(** * caddy-gcs-proxy: the request gateway of [gcsproxy.go], embedded and verified

    The development follows the Go sources:
    - [GoPath]    : [path.Clean] and [path.Join] of the Go standard library,
                    on which [joinPath] and the index probing rest;
    - [GoStrings] : the [strings] helpers the package calls;
    - [GoUtf8], [GoFilepath] : [filepath.Match], the glob of [fileHidden];
    - [GoStrconv] : [strconv.ParseInt], which reads the [If-Match] header;
    - then [joinPath], [fileHidden], [determineErrorsAction] and the
      handlers of [gcsproxy.go], in a monad over an explicit world: the
      state of the object store and the trace of what the handler did to
      the store, to the response and to the log;
    - [GoPathBase], [Browse] : [path.Base] and the page of a listing,
      [MakePageObj] of [browse.go].

    The second part states and proves the properties of the gateway:
    path resolution, visibility, method gating, index resolution and the
    error pages; then the outcomes of each handler, the shape of resolved
    keys, patterns without glob syntax, the [If-Match] header and the
    listing page. *)

From Stdlib Require Import ZArith Lia List Ascii String Bool DecimalString DecimalPos.
From stdpp Require Import gmap strings.
Import ListNotations.

Local Open Scope string_scope.
Local Open Scope bool_scope.

(** Go strings are byte strings: [string] with [ascii] as the byte. *)
Abbreviation bytes := (list ascii).

Definition slash : ascii := "/"%char.
Definition dot : ascii := "."%char.

(** [c == 'x'] for a byte [c] and the one-byte literal ["x"]. *)
Definition isByte (c : ascii) (lit : string) : bool :=
  String.eqb (String c EmptyString) lit.

(** ** Outcome of a Go call that may panic *)

Inductive outcome (A : Type) : Type :=
| Returns (a : A)
| Panics (msg : string).
Arguments Returns {A} a.
Arguments Panics {A} msg.

(** ** Package [path] of the Go standard library *)

Module GoPath.

(** [lazybuf] of [path.Clean] holds the bytes written so far, [buf[0:w]].
    Here the written prefix is the list [out], last byte written first,
    and [w] is its length. *)

(** [out.w--
     for out.w > dotdot && out.index(out.w) != '/' { out.w-- }]
    after the first decrement; [removed] is the byte at index [out.w]. *)
Fixpoint backtrackLoop (removed : ascii) (out : bytes) (dotdot : nat)
  {struct out} : bytes :=
  if (dotdot <? length out)%nat && negb (Ascii.eqb removed slash) then
    match out with
    | c :: out' => backtrackLoop c out' dotdot
    | [] => []
    end
  else out.

Definition backtrack (out : bytes) (dotdot : nat) : bytes :=
  match out with
  | c :: out' => backtrackLoop c out' dotdot
  | [] => []
  end.

(** [r+k == n || path[r+k] == '/'], on the bytes from index [r+k] on. *)
Definition atElemEnd (rest : bytes) : bool :=
  match rest with
  | [] => true
  | c :: _ => Ascii.eqb c slash
  end.

(** [if rooted && out.w != 1 || !rooted && out.w != 0 { out.append('/') }] *)
Definition addSlash (rooted : bool) (out : bytes) : bytes :=
  if rooted && negb (length out =? 1)%nat || negb rooted && negb (length out =? 0)%nat
  then slash :: out else out.

(** The [..] element: backtrack when possible, else (not rooted) append it. *)
Definition dotdotElem (rooted : bool) (out : bytes) (dotdot : nat) : bytes * nat :=
  if (dotdot <? length out)%nat then (backtrack out dotdot, dotdot)
  else if negb rooted then
    let out1 := if (0 <? length out)%nat then slash :: out else out in
    let out2 := dot :: dot :: out1 in
    (out2, length out2)
  else (out, dotdot).

(** [for ; r < n && path[r] != '/'; r++ { out.append(path[r]) }]; at a
    separator the main loop [k] goes on with the rest of the path, and at
    [r == n] the main loop is over as well. *)
Definition copyElem (k : bytes -> bytes -> bytes) : bytes -> bytes -> bytes :=
  fix copy (p : bytes) (o : bytes) {struct p} : bytes :=
    match p with
    | [] => o
    | c :: p' => if Ascii.eqb c slash then k p o else copy p' (c :: o)
    end.

(** The main loop [for r < n { switch { ... } }]; [path] is [path[r:]]. *)
Fixpoint cleanLoop (rooted : bool) (path : bytes) (out : bytes) (dotdot : nat)
  {struct path} : bytes :=
  match path with
  | [] => out
  | c :: p1 =>
    let real :=
      copyElem (fun p o => cleanLoop rooted p o dotdot) p1 (c :: addSlash rooted out) in
    if Ascii.eqb c slash then cleanLoop rooted p1 out dotdot
    else if Ascii.eqb c dot && atElemEnd p1 then cleanLoop rooted p1 out dotdot
    else
      match p1 with
      | c1 :: p2 =>
        if Ascii.eqb c dot && Ascii.eqb c1 dot && atElemEnd p2 then
          let '(out', dotdot') := dotdotElem rooted out dotdot in
          cleanLoop rooted p2 out' dotdot'
        else real
      | [] => real
      end
  end.

(** [func Clean(path string) string] *)
Definition Clean (path : string) : string :=
  match list_ascii_of_string path with
  | [] => "."
  | c :: rest =>
    let out :=
      if Ascii.eqb c slash
      then cleanLoop true rest [slash] 1      (* rooted: out.append('/'); r, dotdot = 1, 1 *)
      else cleanLoop false (c :: rest) [] 0 in
    match out with
    | [] => "."                               (* if out.w == 0 { return "." } *)
    | _ => string_of_list_ascii (rev out)
    end
  end.

(** The buffer [Join] fills before cleaning it: the non-empty elements,
    separated by ['/'] ([if len(buf) > 0 || e != ""]). *)
Definition joinBuf (elem : list string) : string :=
  fold_left
    (fun buf e =>
       if (0 <? String.length buf)%nat || negb (String.eqb e "") then
         (if (0 <? String.length buf)%nat then buf ++ "/" else buf) ++ e
       else buf)
    elem "".

(** [func Join(elem ...string) string] *)
Definition Join (elem : list string) : string :=
  let size := fold_left (fun n e => (n + String.length e)%nat) elem 0%nat in
  if (size =? 0)%nat then "" else Clean (joinBuf elem).

End GoPath.

(** ** Package [strings] of the Go standard library *)

Module GoStrings.

(** [strings.HasPrefix(s, prefix)] *)
Definition HasPrefix (s pre : string) : bool := String.prefix pre s.

(** [strings.TrimPrefix(s, prefix)] *)
Definition TrimPrefix (s pre : string) : string :=
  if HasPrefix s pre
  then String.substring (String.length pre) (String.length s - String.length pre) s
  else s.

(** [strings.HasSuffix(s, suffix)]:
    [len(s) >= len(suffix) && s[len(s)-len(suffix):] == suffix] *)
Definition HasSuffix (s suf : string) : bool :=
  (String.length suf <=? String.length s)%nat
  && String.eqb (String.substring (String.length s - String.length suf)
                                  (String.length suf) s) suf.

(** [strings.Contains(s, sep)] for the one-byte separator [sep]. *)
Fixpoint containsByte (sep : ascii) (s : bytes) : bool :=
  match s with
  | [] => false
  | c :: s' => Ascii.eqb c sep || containsByte sep s'
  end.

(** [strings.Split(s, sep)] for the one-byte separator [sep]: the pieces
    between the separators, at least one piece. *)
Fixpoint splitBytes (sep : ascii) (s : bytes) : list bytes :=
  match s with
  | [] => [[]]
  | c :: s' =>
    if Ascii.eqb c sep then [] :: splitBytes sep s'
    else match splitBytes sep s' with
         | e :: es => (c :: e) :: es
         | [] => [[c]]
         end
  end.

Definition Contains (s : string) (sep : ascii) : bool :=
  containsByte sep (list_ascii_of_string s).

Definition Split (s : string) (sep : ascii) : list string :=
  map string_of_list_ascii (splitBytes sep (list_ascii_of_string s)).

(** ASCII lower-casing of one byte. *)
Definition lowerByte (c : ascii) : ascii :=
  let n := nat_of_ascii c in
  if (65 <=? n)%nat && (n <=? 90)%nat then ascii_of_nat (n + 32) else c.

(** [strings.ToLower(s)] on the ASCII letters. Go lower-cases runes; the
    only runes outside ASCII whose lower case is an ASCII letter give [i]
    and [k], so against a constant without these two letters the byte-wise
    map decides the same comparisons. *)
Fixpoint ToLower (s : string) : string :=
  match s with
  | EmptyString => EmptyString
  | String c s' => String (lowerByte c) (ToLower s')
  end.

End GoStrings.

(** ** Package [unicode/utf8]: [DecodeRuneInString] *)

Module GoUtf8.
Local Open Scope Z_scope.

Definition byteZ (c : ascii) : Z := Z.of_nat (nat_of_ascii c).

Definition RuneError : Z := 0xFFFD.

(** The table [first]: [as] = 0xF0 for ASCII, [xx] = 0xF1 for an invalid
    first byte, else accept-range index << 4 | size. *)
Definition first (b : Z) : Z :=
  if b <? 0x80 then 0xF0
  else if b <? 0xC2 then 0xF1
  else if b <? 0xE0 then 0x02
  else if b =? 0xE0 then 0x13
  else if b <? 0xED then 0x03
  else if b =? 0xED then 0x23
  else if b <? 0xF0 then 0x03
  else if b =? 0xF0 then 0x34
  else if b <? 0xF4 then 0x04
  else if b =? 0xF4 then 0x44
  else 0xF1.

(** [acceptRanges] *)
Definition acceptRange (i : Z) : Z * Z :=
  if i =? 0 then (0x80, 0xBF)
  else if i =? 1 then (0xA0, 0xBF)
  else if i =? 2 then (0x80, 0x9F)
  else if i =? 3 then (0x90, 0xBF)
  else if i =? 4 then (0x80, 0x8F)
  else (0, 0).

(** [utf8.DecodeRuneInString(s)]: the rune and its width in bytes. *)
Definition DecodeRuneInString (s : bytes) : Z * nat :=
  match s with
  | [] => (RuneError, 0%nat)
  | c0 :: t0 =>
    let s0 := byteZ c0 in
    let x := first s0 in
    if 0xF0 <=? x then
      ((if x =? 0xF0 then s0 else RuneError), 1%nat)
    else
      let sz := Z.land x 7 in
      let '(lo, hi) := acceptRange (Z.shiftr x 4) in
      if Z.of_nat (length s) <? sz then (RuneError, 1%nat)
      else
        match t0 with
        | [] => (RuneError, 1%nat)
        | c1 :: t1 =>
          let s1 := byteZ c1 in
          if (s1 <? lo) || (hi <? s1) then (RuneError, 1%nat)
          else if sz <=? 2 then
            (Z.lor (Z.shiftl (Z.land s0 0x1F) 6) (Z.land s1 0x3F), 2%nat)
          else
            match t1 with
            | [] => (RuneError, 1%nat)
            | c2 :: t2 =>
              let s2 := byteZ c2 in
              if (s2 <? 0x80) || (0xBF <? s2) then (RuneError, 1%nat)
              else if sz <=? 3 then
                (Z.lor (Z.lor (Z.shiftl (Z.land s0 0x0F) 12)
                              (Z.shiftl (Z.land s1 0x3F) 6))
                       (Z.land s2 0x3F), 3%nat)
              else
                match t2 with
                | [] => (RuneError, 1%nat)
                | c3 :: _ =>
                  let s3 := byteZ c3 in
                  if (s3 <? 0x80) || (0xBF <? s3) then (RuneError, 1%nat)
                  else
                    (Z.lor (Z.lor (Z.lor (Z.shiftl (Z.land s0 0x07) 18)
                                         (Z.shiftl (Z.land s1 0x3F) 12))
                                  (Z.shiftl (Z.land s2 0x3F) 6))
                           (Z.land s3 0x3F), 4%nat)
                end
            end
        end
  end.

End GoUtf8.

(** ** Package [path/filepath]: [Match] (Unix build, separator ['/']) *)

Module GoFilepath.
Import GoUtf8.

Definition Separator : ascii := slash.

(** The leading stars of [scanChunk]:
    [for len(pattern) > 0 && pattern[0] == '*' { pattern = pattern[1:]; star = true }] *)
Fixpoint skipStars (pattern : bytes) : bool * bytes :=
  match pattern with
  | c :: p' => if isByte c "*" then (true, snd (skipStars p')) else (false, pattern)
  | [] => (false, [])
  end.

(** The [Scan] loop of [scanChunk]: the chunk up to the next star that is
    not inside a bracket range, and what follows it. *)
Fixpoint scanBody (pattern : bytes) (inrange : bool) : bytes * bytes :=
  match pattern with
  | [] => ([], [])
  | c :: p' =>
    if isByte c "\" then
      match p' with
      | c2 :: p'' => let '(chunk, rest) := scanBody p'' inrange in (c :: c2 :: chunk, rest)
      | [] => ([c], [])
      end
    else if isByte c "[" then
      let '(chunk, rest) := scanBody p' true in (c :: chunk, rest)
    else if isByte c "]" then
      let '(chunk, rest) := scanBody p' false in (c :: chunk, rest)
    else if isByte c "*" && negb inrange then ([], pattern)
    else let '(chunk, rest) := scanBody p' inrange in (c :: chunk, rest)
  end.

(** [func scanChunk(pattern string) (star bool, chunk, rest string)] *)
Definition scanChunk (pattern : bytes) : bool * bytes * bytes :=
  let '(star, p) := skipStars pattern in
  let '(chunk, rest) := scanBody p false in
  (star, chunk, rest).

(** [func getEsc(chunk string) (r rune, nchunk string, err error)];
    [None] is [ErrBadPattern]. *)
Definition getEsc (chunk : bytes) : option (Z * bytes) :=
  match chunk with
  | [] => None
  | c :: t =>
    if isByte c "-" || isByte c "]" then None
    else
      let chunk1 := if isByte c "\" then t else chunk in
      match chunk1 with
      | [] => None
      | _ =>
        let '(r, n) := DecodeRuneInString chunk1 in
        if (r =? RuneError)%Z && (n =? 1)%nat then None
        else match skipn n chunk1 with
             | [] => None
             | nchunk => Some (r, nchunk)
             end
      end
  end.

(** The range loop of a character class in [matchChunk]; it yields
    [match] and the chunk after the closing bracket. *)
Fixpoint classLoop (fuel : nat) (chunk : bytes) (r : Z) (matched : bool)
  (nrange : nat) : option (bool * bytes) :=
  match fuel with
  | O => None
  | S fuel' =>
    let ranges :=
      match getEsc chunk with
      | None => None
      | Some (lo, chunk1) =>
        let hi_chunk :=
          match chunk1 with
          | c :: t => if isByte c "-" then getEsc t else Some (lo, chunk1)
          | [] => Some (lo, chunk1)
          end in
        match hi_chunk with
        | None => None
        | Some (hi, chunk2) =>
          classLoop fuel' chunk2 r
                    (matched || ((lo <=? r)%Z && (r <=? hi)%Z)) (S nrange)
        end
      end in
    match chunk with
    | c :: t => if isByte c "]" && (0 <? nrange)%nat then Some (matched, t) else ranges
    | [] => ranges
    end
  end.

(** What [matchChunk] returns: [(rest, true, nil)], [("", false, nil)] or
    [("", false, ErrBadPattern)]. *)
Inductive chunkResult : Type :=
| ChunkOk (rest : bytes)
| ChunkNo
| ChunkBad.

(** The loop [for len(chunk) > 0 { ... }] of [matchChunk], with its
    [failed] flag. *)
Fixpoint matchChunkLoop (fuel : nat) (chunk s : bytes) (failed : bool)
  : chunkResult :=
  match chunk with
  | [] => if failed then ChunkNo else ChunkOk s
  | c :: chunk1 =>
    match fuel with
    | O => ChunkBad
    | S fuel' =>
      let failed := failed || (length s =? 0)%nat in
      if isByte c "[" then
        let '(r, s1) :=
          if failed then (0%Z, s)
          else let '(r, n) := DecodeRuneInString s in (r, skipn n s) in
        let '(negated, chunk2) :=
          match chunk1 with
          | c' :: t => if isByte c' "^" then (true, t) else (false, chunk1)
          | [] => (false, chunk1)
          end in
        match classLoop fuel' chunk2 r false 0 with
        | None => ChunkBad
        | Some (m, chunk3) =>
          matchChunkLoop fuel' chunk3 s1 (failed || Bool.eqb m negated)
        end
      else if isByte c "?" then
        let '(failed', s1) :=
          if failed then (failed, s)
          else (match s with c0 :: _ => Ascii.eqb c0 Separator | [] => false end,
                skipn (snd (DecodeRuneInString s)) s) in
        matchChunkLoop fuel' chunk1 s1 failed'
      else
        let lit := if isByte c "\" then chunk1 else chunk in
        match lit with
        | [] => ChunkBad
        | l :: chunk2 =>
          let '(failed', s1) :=
            if failed then (failed, s)
            else (match s with c0 :: _ => negb (Ascii.eqb l c0) | [] => false end,
                  tl s) in
          matchChunkLoop fuel' chunk2 s1 failed'
        end
    end
  end.

(** [func matchChunk(chunk, s string) (rest string, ok bool, err error)] *)
Definition matchChunk (chunk s : bytes) : chunkResult :=
  matchChunkLoop (length chunk) chunk s false.

(** The search after a star: [for i := 0; i < len(name) && name[i] != '/'; i++],
    trying the chunk at [name[i+1:]]; [k] is the rest of [Match] on the
    remaining pattern. *)
Fixpoint starSearch (k : bytes -> bool) (chunk : bytes) (lastChunk : bool)
  (name : bytes) : bool :=
  match name with
  | [] => false
  | c :: name' =>
    if Ascii.eqb c Separator then false
    else match matchChunk chunk name' with
         | ChunkOk t =>
           if lastChunk && negb (length t =? 0)%nat
           then starSearch k chunk lastChunk name'
           else k t
         | ChunkBad => false
         | ChunkNo => starSearch k chunk lastChunk name'
         end
  end.

(** The [Pattern] loop of [Match]; only [matched] is kept, which is
    [false] whenever [Match] reports [ErrBadPattern]. *)
Fixpoint matchLoop (fuel : nat) (pattern name : bytes) : bool :=
  match pattern with
  | [] => (length name =? 0)%nat
  | _ =>
    match fuel with
    | O => false
    | S fuel' =>
      let '(star, chunk, rest) := scanChunk pattern in
      if star && (length chunk =? 0)%nat then
        negb (GoStrings.containsByte Separator name)
      else
        let afterStar (_ : unit) :=
          if star
          then starSearch (matchLoop fuel' rest) chunk (length rest =? 0)%nat name
          else false in
        match matchChunk chunk name with
        | ChunkOk t =>
          if (length t =? 0)%nat || negb (length rest =? 0)%nat
          then matchLoop fuel' rest t
          else afterStar tt
        | ChunkBad => false
        | ChunkNo => afterStar tt
        end
    end
  end.

(** [func Match(pattern, name string) (matched bool, err error)], the
    [matched] component. *)
Definition Match (pattern name : string) : bool :=
  let p := list_ascii_of_string pattern in
  matchLoop (length p) p (list_ascii_of_string name).

End GoFilepath.

(** ** Package [strconv]: [ParseInt(s, 10, 64)] *)

Module GoStrconv.
Local Open Scope Z_scope.

(** The decimal digits of [ParseUint], most significant first; [None] is
    [ErrSyntax] (a byte that is no digit). *)
Fixpoint digits (s : bytes) (acc : Z) : option Z :=
  match s with
  | [] => Some acc
  | c :: s' =>
    let d := Z.of_nat (nat_of_ascii c) - 48 in
    if (0 <=? d) && (d <=? 9) then digits s' (10 * acc + d) else None
  end.

(** [strconv.ParseInt(s, 10, 64)]: an optional sign, at least one digit,
    and a value that fits [int64]; [None] stands for a non-nil [err]. *)
Definition ParseInt (s : string) : option Z :=
  match list_ascii_of_string s with
  | [] => None
  | c :: t =>
    let neg := isByte c "-" in
    let body := if isByte c "+" || neg then t else c :: t in
    match body with
    | [] => None
    | _ =>
      match digits body 0 with
      | None => None
      | Some un =>
        if negb neg && (2 ^ 63 <=? un) then None
        else if neg && (2 ^ 63 <? un) then None
        else Some (if neg then - un else un)
      end
    end
  end.

End GoStrconv.

(** * Package [caddygcsproxy]: [gcsproxy.go] *)

(** ** Errors, requests, the object store and the world a handler runs in *)

(** The errors that are no [caddyhttp.HandlerError]: the sentinel
    [storage.ErrObjectNotExist], and every other error of the store client,
    of [io.Copy] and of [errors.New]. *)
Inductive PlainError : Type :=
| ErrObjectNotExist
| ErrOther (msg : string).

(** Go [error] values as [ServeHTTP] tells them apart by
    [err.(caddyhttp.HandlerError)]: a handler error (its [ID] and [Trace]
    are left out) or a plain one. *)
Inductive GoError : Type :=
| Plain (err : PlainError)
| HandlerError (StatusCode : Z) (Err : option PlainError).

(** [caddyhttp.Error(statusCode, err)], which the package calls with [nil]
    or a plain error only. *)
Definition caddyhttpError (statusCode : Z) (err : option PlainError) : GoError :=
  HandlerError statusCode err.

(** [err == storage.ErrObjectNotExist] *)
Definition isErrObjectNotExist (err : PlainError) : bool :=
  match err with
  | ErrObjectNotExist => true
  | _ => false
  end.

Definition StatusNotModified : Z := 304.
Definition StatusForbidden : Z := 403.
Definition StatusNotFound : Z := 404.
Definition StatusMethodNotAllowed : Z := 405.
Definition StatusPreconditionFailed : Z := 412.
Definition StatusRequestedRangeNotSatisfiable : Z := 416.
Definition StatusInternalServerError : Z := 500.

Definition MethodGet : string := "GET".
Definition MethodPut : string := "PUT".
Definition MethodDelete : string := "DELETE".

(** [storage.ObjectAttrs], the fields the package reads. [Updated] is [None]
    for the zero time and else the time in [http.TimeFormat]; [Metadata] is
    listed in the order the range loop visits it. *)
Record ObjectAttrs : Type := {
  CacheControl : string;
  ContentDisposition : string;
  ContentEncoding : string;
  ContentLanguage : string;
  ContentType : string;
  Generation : Z;
  Updated : option string;
  Metadata : list (string * string)
}.

(** [*storage.Reader]: the bytes [io.Copy] gets out of it, and the error
    the copy ends with, if any. *)
Record Reader : Type := {
  readerBody : bytes;
  readerErr : option PlainError
}.

(** The calls the package makes to the object store client. *)
Inductive StoreCall : Type :=
| CallNewReader (key : string) (generationMatch : option Z)
| CallReaderClose (key : string)
| CallAttrs (key : string)
| CallNewWriter (key : string)
| CallWriterCopy (key : string) (contentType : string) (body : bytes)
| CallWriterClose (key : string)
| CallDelete (key : string)
| CallObjects (prefix delimiter : string).

(** What a handler does to the outside, in order. *)
Inductive Event : Type :=
| EvStore (call : StoreCall)
| EvSetHeader (key value : string)
| EvWriteHeader (statusCode : Z)
| EvWrite (body : bytes)
| EvLog (level msg key : string) (err : option PlainError).

(** The object store client as an interface over a store state [S]: every
    call answers and may change the store. [storeObjects] answers with the
    entries the iterator yields and the error it stops on ([None] for
    [iterator.Done]). *)
Class ObjectStore (S : Type) : Type := {
  storeNewReader : string -> option Z -> S -> (Reader + PlainError) * S;
  storeAttrs : string -> S -> (ObjectAttrs + PlainError) * S;
  storeWriterCopy : string -> string -> bytes -> S -> option PlainError * S;
  storeWriterClose : string -> S -> option PlainError * S;
  storeDelete : string -> S -> option PlainError * S;
  storeObjects : string -> string -> S -> (list ObjectAttrs * option PlainError) * S
}.

Record World (S : Type) : Type := {
  store : S;
  trace : list Event
}.
Arguments store {S} w.
Arguments trace {S} w.

(** [http.Request] with the replacer of its context: [Replacer root] is
    [repl.ReplaceAll(root, "")]. *)
Record Request : Type := {
  Method : string;
  URLPath : string;
  Header : gmap string string;
  Body : bytes;
  Replacer : string -> string
}.

(** [Header.Get(key)] *)
Definition headerGet (h : gmap string string) (key : string) : string :=
  match h !! key with
  | Some v => v
  | None => ""
  end.

(** [GcsProxy], the configuration fields. *)
Record GcsProxy : Type := {
  Root : string;
  Bucket : string;
  IndexNames : list string;
  Hide : list string;
  EnablePut : bool;
  EnableDelete : bool;
  EnableBrowse : bool;
  BrowseTemplate : string;
  ErrorPages : gmap Z string;
  DefaultErrorPage : string;
  ProjectID : string;
  CredentialsFile : string
}.

(** ** The handler monad: state (store and trace) and panics *)

Definition M (S A : Type) : Type := World S -> outcome A * World S.

Definition ret {S A} (a : A) : M S A := fun w => (Returns a, w).

Definition bind {S A B} (m : M S A) (k : A -> M S B) : M S B :=
  fun w =>
    match m w with
    | (Returns a, w') => k a w'
    | (Panics msg, w') => (Panics msg, w')
    end.

Definition panic {S A} (msg : string) : M S A := fun w => (Panics msg, w).

Definition emit {S} (e : Event) : M S unit :=
  fun w => (Returns tt, {| store := store w; trace := trace w ++ [e] |}).

(** A call to the store client: it is recorded, then answered. *)
Definition call {S A} (c : StoreCall) (op : S -> A * S) : M S A :=
  fun w =>
    let '(a, s') := op (store w) in
    (Returns a, {| store := s'; trace := trace w ++ [EvStore c] |}).

Notation "x <- m ;; k" := (bind m (fun x => k))
  (at level 100, m at next level, right associativity).
Notation "m ;;; k" := (bind m (fun _ => k))
  (at level 100, right associativity).

(** ** Pure helpers of [gcsproxy.go] *)

(** [s[i:]] with Go's bounds check. *)
Definition sliceFrom (s : string) (i : Z) : outcome string :=
  if (i <? 0)%Z || (Z.of_nat (String.length s) <? i)%Z
  then Panics "slice bounds out of range"
  else Returns (String.substring (Z.to_nat i) (String.length s - Z.to_nat i) s).

(** [func joinPath(root string, uriPath string) string] *)
Definition joinPath (root uriPath : string) : outcome string :=
  match sliceFrom uriPath (Z.of_nat (String.length uriPath) - 1) with
  | Panics msg => Panics msg
  | Returns last =>
    let isDir := String.eqb last "/" in
    let newPath := GoPath.Join [root; uriPath] in
    if isDir && negb (String.eqb newPath "/")
    then Returns (newPath ++ "/")
    else Returns newPath
  end.

(** The loop of [fileHidden] over the hide list; [components] is the
    variable of that name, filled on first use. *)
Fixpoint fileHiddenLoop (filename : string) (hide : list string)
  (components : list string) : bool :=
  match hide with
  | [] => false
  | h :: hide' =>
    let noSep := negb (GoStrings.Contains h GoFilepath.Separator) in
    let components' :=
      if noSep && (length components =? 0)%nat
      then GoStrings.Split filename GoFilepath.Separator
      else components in
    if noSep && existsb (fun c => String.eqb c h) components' then true
    else if negb noSep
            && GoStrings.HasPrefix filename h
            && GoStrings.HasPrefix (GoStrings.TrimPrefix filename h) "/" then true
    else if GoFilepath.Match h filename then true
    else fileHiddenLoop filename hide' components'
  end.

(** [func fileHidden(filename string, hide []string) bool] *)
Definition fileHidden (filename : string) (hide : list string) : bool :=
  fileHiddenLoop filename hide [].

(** [func convertToCaddyError(err error) error] *)
Definition convertToCaddyError (err : option PlainError) : option GoError :=
  match err with
  | None => None
  | Some e =>
    if isErrObjectNotExist e
    then Some (caddyhttpError StatusNotFound (Some e))
    else Some (caddyhttpError StatusInternalServerError (Some e))
  end.

(** [func (p GcsProxy) determineErrorsAction(statusCode int) (bool, bool, string)] *)
Definition determineErrorsAction (p : GcsProxy) (statusCode : Z)
  : bool * bool * string :=
  let key :=
    match ErrorPages p !! statusCode with
    | Some errorPageGCSKey => errorPageGCSKey
    | None =>
      if negb (String.eqb (DefaultErrorPage p) "") then DefaultErrorPage p else ""
    end in
  if String.eqb (GoStrings.ToLower key) "pass_through"
  then (true, false, "")
  else (false, negb (String.eqb key ""), key).

(** The generation in decimal between two double quotes, as [fmt.Sprintf]
    renders it for the [ETag] header. *)
Definition quotedDecimal (generation : Z) : string :=
  let q := String (ascii_of_nat 34) EmptyString in
  q ++ NilZero.string_of_int (Z.to_int generation) ++ q.

(** ** The handlers *)

Section Handlers.
Context {S : Type} `{ObjectStore S}.

Definition liftOutcome {A} (o : outcome A) : M S A := fun w => (o, w).

(** [reader.Close()] *)
Definition closeReader (key : string) : M S unit :=
  call (CallReaderClose key) (fun s => (tt, s)).

(** [if v != "" { w.Header().Set(k, v) }] *)
Definition setHeaderIfSet (key value : string) : M S unit :=
  if String.eqb value "" then ret tt else emit (EvSetHeader key value).

(** [for key, value := range attrs.Metadata { w.Header().Set(key, value) }] *)
Fixpoint copyMetadata (metadata : list (string * string)) : M S unit :=
  match metadata with
  | [] => ret tt
  | (key, value) :: metadata' =>
    emit (EvSetHeader key value) ;;; copyMetadata metadata'
  end.

(** [func (p GcsProxy) writeResponseFromGetObject(w, reader, attrs) error];
    [reader] and [attrs] are pointers, [None] is [nil]. *)
Definition writeResponseFromGetObject (reader : option Reader)
  (attrs : option ObjectAttrs) : M S (option PlainError) :=
  match attrs with
  | None => panic "invalid memory address or nil pointer dereference"
  | Some attrs =>
    setHeaderIfSet "Cache-Control" (CacheControl attrs) ;;;
    setHeaderIfSet "Content-Disposition" (ContentDisposition attrs) ;;;
    setHeaderIfSet "Content-Encoding" (ContentEncoding attrs) ;;;
    setHeaderIfSet "Content-Language" (ContentLanguage attrs) ;;;
    setHeaderIfSet "Content-Type" (ContentType attrs) ;;;
    emit (EvSetHeader "ETag" (quotedDecimal (Generation attrs))) ;;;
    match Updated attrs with
    | Some t => emit (EvSetHeader "Last-Modified" t)
    | None => ret tt
    end ;;;
    copyMetadata (Metadata attrs) ;;;
    match reader with
    | Some rd => emit (EvWrite (readerBody rd)) ;;; ret (readerErr rd)
    | None => ret None
    end
  end.

(** [func (p GcsProxy) getGcsObject(bucket, path string, headers http.Header)],
    which returns the reader and the error of [obj.NewReader]. *)
Definition getGcsObject (p : GcsProxy) (bucket path : string)
  (headers : gmap string string) : M S (Reader + PlainError) :=
  let ifMatch := headerGet headers "If-Match" in
  let cond :=
    if negb (String.eqb ifMatch "") && (2 <? String.length ifMatch)%nat
    then GoStrconv.ParseInt
           (String.substring 1 (String.length ifMatch - 2) ifMatch)
    else None in
  call (CallNewReader path cond) (storeNewReader path cond).

(** [func (p GcsProxy) PutHandler(w, r, key string) error] *)
Definition PutHandler (p : GcsProxy) (r : Request) (key : string)
  : M S (option GoError) :=
  call (CallNewWriter key) (fun s => (tt, s)) ;;;
  let contentType := headerGet (Header r) "Content-Type" in
  copied <- call (CallWriterCopy key contentType (Body r))
                 (storeWriterCopy key contentType (Body r)) ;;
  match copied with
  | Some err => ret (convertToCaddyError (Some err))
  | None =>
    closed <- call (CallWriterClose key) (storeWriterClose key) ;;
    match closed with
    | Some err => ret (convertToCaddyError (Some err))
    | None =>
      a <- call (CallAttrs key) (storeAttrs key) ;;
      match a with
      | inl attrs => emit (EvSetHeader "ETag" (quotedDecimal (Generation attrs)))
      | inr _ => ret tt
      end ;;;
      ret None
    end
  end.

(** [func (p GcsProxy) DeleteHandler(w, r, key string) error] *)
Definition DeleteHandler (p : GcsProxy) (r : Request) (key : string)
  : M S (option GoError) :=
  let isDir := GoStrings.HasSuffix key "/" in
  if isDir || negb (EnableDelete p) then
    ret (Some (caddyhttpError StatusMethodNotAllowed
                              (Some (ErrOther "method not allowed"))))
  else
    deleted <- call (CallDelete key) (storeDelete key) ;;
    match deleted with
    | Some err => ret (convertToCaddyError (Some err))
    | None => ret None
    end.

(** [func (p GcsProxy) BrowseHandler(w, r, key string) error]; the entries
    it collects are not used. *)
Definition BrowseHandler (p : GcsProxy) (r : Request) (key : string)
  : M S (option GoError) :=
  listed <- call (CallObjects key "/") (storeObjects key "/") ;;
  match snd listed with
  | Some err => ret (convertToCaddyError (Some err))
  | None => ret None
  end.

(** [func (p GcsProxy) serveErrorPage(w, gcsKey string) error] *)
Definition serveErrorPage (p : GcsProxy) (gcsKey : string)
  : M S (option PlainError) :=
  r <- call (CallNewReader gcsKey None) (storeNewReader gcsKey None) ;;
  match r with
  | inr err => ret (Some err)
  | inl reader =>
    res <- (a <- call (CallAttrs gcsKey) (storeAttrs gcsKey) ;;
            match a with
            | inr err => ret (Some err)
            | inl attrs => writeResponseFromGetObject (Some reader) (Some attrs)
            end) ;;
    closeReader gcsKey ;;;
    ret res
  end.

(** The variables [reader], [attrs], [err] and [isDir] of [GetHandler]. *)
Record getVars : Type := {
  v_reader : option Reader;
  v_attrs : option ObjectAttrs;
  v_err : option PlainError;
  v_isDir : bool
}.

(** [p.log.Warn("error when looking for index", ...)] unless the error is
    [storage.ErrObjectNotExist] ([continue]). *)
Definition warnIndexError (indexPath : string) (err : PlainError) : M S unit :=
  if isErrObjectNotExist err then ret tt
  else emit (EvLog "warn" "error when looking for index" indexPath (Some err)).

(** [for _, indexPage := range p.IndexNames { ... }] of [GetHandler] *)
Fixpoint indexLoop (p : GcsProxy) (fullPath : string) (names : list string)
  (v : getVars) : M S getVars :=
  match names with
  | [] => ret v
  | indexPage :: names' =>
    let indexPath := GoPath.Join [fullPath; indexPage] in
    r <- call (CallNewReader indexPath None) (storeNewReader indexPath None) ;;
    match r with
    | inl reader =>
      a <- call (CallAttrs indexPath) (storeAttrs indexPath) ;;
      match a with
      | inl attrs =>
        ret {| v_reader := Some reader; v_attrs := Some attrs;
               v_err := None; v_isDir := false |}
      | inr err =>
        closeReader indexPath ;;;
        warnIndexError indexPath err ;;;
        indexLoop p fullPath names'
                  {| v_reader := Some reader; v_attrs := None;
                     v_err := Some err; v_isDir := v_isDir v |}
      end
    | inr err =>
      warnIndexError indexPath err ;;;
      indexLoop p fullPath names'
                {| v_reader := None; v_attrs := v_attrs v;
                   v_err := Some err; v_isDir := v_isDir v |}
    end
  end.

(** [func (p GcsProxy) GetHandler(w, r, fullPath string) error] *)
Definition GetHandler (p : GcsProxy) (r : Request) (fullPath : string)
  : M S (option GoError) :=
  if fileHidden fullPath (Hide p) then
    ret (Some (caddyhttpError StatusNotFound None))
  else
    let isDir := GoStrings.HasSuffix fullPath "/" in
    let v0 := {| v_reader := None; v_attrs := None; v_err := None;
                 v_isDir := isDir |} in
    v <- (if isDir && (0 <? length (IndexNames p))%nat
          then indexLoop p fullPath (IndexNames p) v0
          else ret v0) ;;
    if v_isDir v then
      if EnableBrowse p then BrowseHandler p r fullPath
      else ret (Some (caddyhttpError StatusForbidden
                                     (Some (ErrOther "cannot view a directory"))))
    else
      match v_reader v with
      | Some reader =>
        werr <- writeResponseFromGetObject (Some reader) (v_attrs v) ;;
        ret (option_map Plain werr)
      | None =>
        rd <- call (CallNewReader fullPath None) (storeNewReader fullPath None) ;;
        match rd with
        | inr err =>
          if isErrObjectNotExist err then
            emit (EvLog "debug" "not found" fullPath None) ;;;
            ret (Some (caddyhttpError StatusNotFound (Some err)))
          else
            emit (EvLog "error" "failed to get object" fullPath (Some err)) ;;;
            ret (convertToCaddyError (Some err))
        | inl reader =>
          res <- (a <- call (CallAttrs fullPath) (storeAttrs fullPath) ;;
                  match a with
                  | inr err => ret (convertToCaddyError (Some err))
                  | inl attrs =>
                    werr <- writeResponseFromGetObject (Some reader) (Some attrs) ;;
                    ret (option_map Plain werr)
                  end) ;;
          closeReader fullPath ;;;
          ret res
        end
      end.

(** [if caddyErr.StatusCode != 0 { w.WriteHeader(caddyErr.StatusCode) }] *)
Definition writeHeaderIfSet (statusCode : Z) : M S unit :=
  if negb (statusCode =? 0)%Z then emit (EvWriteHeader statusCode) else ret tt.

(** [ServeHTTP], the [switch r.Method] (lines 294-303). *)
Definition dispatch (p : GcsProxy) (r : Request) (fullPath : string)
  : M S (option GoError) :=
  if String.eqb (Method r) MethodGet then GetHandler p r fullPath
  else if String.eqb (Method r) MethodPut then PutHandler p r fullPath
  else if String.eqb (Method r) MethodDelete then DeleteHandler p r fullPath
  else ret (Some (caddyhttpError StatusMethodNotAllowed
                                 (Some (ErrOther "method not allowed")))).

(** [caddyErr, isCaddyErr := err.(caddyhttp.HandlerError)
     if !isCaddyErr { caddyErr = caddyhttp.Error(500, err) }]:
    the status code and the wrapped error of [caddyErr]. *)
Definition asHandlerError (err : GoError) : Z * option PlainError :=
  match err with
  | HandlerError statusCode cause => (statusCode, cause)
  | Plain e => (StatusInternalServerError, Some e)
  end.

(** [ServeHTTP] after a handler has failed with [err] (lines 309-350);
    [next] is [next.ServeHTTP(w, r)]. *)
Definition onError (p : GcsProxy) (r : Request) (next : M S (option GoError))
  (err : GoError) : M S (option GoError) :=
  let '(statusCode, cause) := asHandlerError err in
  let caddyErr := HandlerError statusCode cause in
  if negb (String.eqb (Method r) MethodGet) then
    writeHeaderIfSet statusCode ;;; ret (Some caddyErr)
  else if (statusCode =? StatusNotModified)%Z
          || (statusCode =? StatusPreconditionFailed)%Z
          || (statusCode =? StatusRequestedRangeNotSatisfiable)%Z then
    emit (EvWriteHeader statusCode) ;;; ret (Some caddyErr)
  else
    let '(doPassThrough, doGCSErrorPage, key) :=
      determineErrorsAction p statusCode in
    if doPassThrough then next
    else
      writeHeaderIfSet statusCode ;;;
      (if doGCSErrorPage then
         served <- serveErrorPage p key ;;
         match served with
         | Some e => emit (EvLog "error" "error serving error page" key (Some e))
         | None => ret tt
         end
       else ret tt) ;;;
      ret (Some caddyErr).

(** [func (p GcsProxy) ServeHTTP(w, r, next) error] *)
Definition ServeHTTP (p : GcsProxy) (r : Request) (next : M S (option GoError))
  : M S (option GoError) :=
  fullPath <- liftOutcome (joinPath (Replacer r (Root p)) (URLPath r)) ;;
  err <- dispatch p r fullPath ;;
  match err with
  | None => ret None
  | Some e => onError p r next e
  end.

End Handlers.

(** ** An in-memory bucket, the store of the worked examples *)

Record Object : Type := {
  objectBody : bytes;
  objectAttrs : ObjectAttrs
}.

(** A read with [GenerationMatch] fails unless the generation is the stored
    one; reads of a missing key answer [ErrObjectNotExist]. *)
Definition bucketNewReader (key : string) (generationMatch : option Z)
  (b : gmap string Object) : (Reader + PlainError) * gmap string Object :=
  match b !! key with
  | None => (inr ErrObjectNotExist, b)
  | Some o =>
    let ok := inl {| readerBody := objectBody o; readerErr := None |} in
    match generationMatch with
    | None => (ok, b)
    | Some g =>
      if (g =? Generation (objectAttrs o))%Z then (ok, b)
      else (inr (ErrOther "conditionNotMet"), b)
    end
  end.

Definition bucketAttrs (key : string) (b : gmap string Object)
  : (ObjectAttrs + PlainError) * gmap string Object :=
  match b !! key with
  | None => (inr ErrObjectNotExist, b)
  | Some o => (inl (objectAttrs o), b)
  end.

Definition plainAttrs (contentType : string) (generation : Z) : ObjectAttrs :=
  {| CacheControl := ""; ContentDisposition := ""; ContentEncoding := "";
     ContentLanguage := ""; ContentType := contentType;
     Generation := generation; Updated := None; Metadata := [] |}.

Definition bucketWriterCopy (key contentType : string) (body : bytes)
  (b : gmap string Object) : option PlainError * gmap string Object :=
  (None, <[key := {| objectBody := body;
                     objectAttrs := plainAttrs contentType 1 |}]> b).

Definition bucketDelete (key : string) (b : gmap string Object)
  : option PlainError * gmap string Object :=
  match b !! key with
  | None => (Some ErrObjectNotExist, b)
  | Some _ => (None, delete key b)
  end.

#[export] Instance bucketStore : ObjectStore (gmap string Object) := {
  storeNewReader := bucketNewReader;
  storeAttrs := bucketAttrs;
  storeWriterCopy := bucketWriterCopy;
  storeWriterClose := fun _ b => (None, b);
  storeDelete := bucketDelete;
  storeObjects := fun _ _ b => (([], None), b)
}.

Definition emptyWorld (b : gmap string Object) : World (gmap string Object) :=
  {| store := b; trace := [] |}.

(** A configuration with every capability off and the default index
    names; [Root] is empty and the replacer of the example requests leaves
    it so. *)
Definition defaultProxy : GcsProxy :=
  {| Root := ""; Bucket := "b"; IndexNames := ["index.html"; "index.txt"];
     Hide := []; EnablePut := false; EnableDelete := false;
     EnableBrowse := false; BrowseTemplate := "";
     ErrorPages := ∅; DefaultErrorPage := "";
     ProjectID := ""; CredentialsFile := "" |}.

Definition request (method path : string) : Request :=
  {| Method := method; URLPath := path; Header := ∅; Body := [];
     Replacer := fun s => s |}.

(** The same with an error page for 404 and a hidden name. *)
Definition pagesProxy : GcsProxy :=
  {| Root := ""; Bucket := "b"; IndexNames := ["index.html"; "index.txt"];
     Hide := ["secret"]; EnablePut := false; EnableDelete := true;
     EnableBrowse := false; BrowseTemplate := "";
     ErrorPages := {[ 404%Z := "/404.html" ]}; DefaultErrorPage := "";
     ProjectID := ""; CredentialsFile := "" |}.

Definition textObject (body : string) (generation : Z) : Object :=
  {| objectBody := list_ascii_of_string body;
     objectAttrs := plainAttrs "text/plain" generation |}.

(** A bucket with a directory that has [index.txt] only, an error page,
    a file whose name is hidden and a plain file of generation 42. *)
Definition siteBucket : gmap string Object :=
  {[ "/dir/index.txt" := textObject "index" 7;
     "/404.html" := textObject "gone" 3;
     "/secret" := textObject "s3cr3t" 5;
     "/a.txt" := textObject "hello" 42 ]}.

(** [pagesProxy] with the override of 404 set to pass-through. *)
Definition passProxy : GcsProxy :=
  {| Root := ""; Bucket := "b"; IndexNames := ["index.html"; "index.txt"];
     Hide := ["secret"]; EnablePut := false; EnableDelete := true;
     EnableBrowse := false; BrowseTemplate := "";
     ErrorPages := {[ 404%Z := "Pass_Through" ]}; DefaultErrorPage := "";
     ProjectID := ""; CredentialsFile := "" |}.

(** The next handler of the examples: it answers without an error and
    leaves the world as it is. *)
Definition nextOk {S : Type} : M S (option GoError) := ret None.

(** A next handler that answers 200 itself. *)
Definition nextServes {S : Type} : M S (option GoError) :=
  emit (EvWriteHeader 200) ;;; ret None.

(** * Package [path]: [Base] *)

Module GoPathBase.

(** [for len(path) > 0 && path[len(path)-1] == '/' { path = path[0 : len(path)-1] }],
    on the bytes of the path read from its end. *)
Fixpoint stripSlashes (rpath : bytes) : bytes :=
  match rpath with
  | c :: rpath' => if Ascii.eqb c slash then stripSlashes rpath' else rpath
  | [] => []
  end.

(** [if i := lastSlash(path); i >= 0 { path = path[i+1:] }]: the bytes after
    the last separator, read from the end of the path. *)
Fixpoint lastElem (rpath : bytes) : bytes :=
  match rpath with
  | c :: rpath' => if Ascii.eqb c slash then [] else c :: lastElem rpath'
  | [] => []
  end.

(** [func Base(path string) string] *)
Definition Base (path : string) : string :=
  if String.eqb path "" then "."
  else
    match lastElem (stripSlashes (rev (list_ascii_of_string path))) with
    | [] => "/"                              (* it had only slashes *)
    | c :: elem => string_of_list_ascii (rev (c :: elem))
    end.

End GoPathBase.

(** * Package [caddygcsproxy]: [browse.go] *)

Module Browse.

(** [int64(x)] and [uint64(x)] of an integer. *)
Definition int64 (x : Z) : Z := ((x + 2 ^ 63) mod 2 ^ 64 - 2 ^ 63)%Z.
Definition uint64 (x : Z) : Z := (x mod 2 ^ 64)%Z.

Section Listing.

(** [time.Time] *)
Variable Time : Type.

(** [humanize.Bytes] *)
Variable humanizeBytes : Z -> string.

(** [humanize.Time], which compares with the clock: the first argument is
    the position of the entry the call is made for. *)
Variable humanizeTime : nat -> Time -> string.

(** [url.QueryEscape] *)
Variable queryEscape : string -> string.

(** [storage.ObjectAttrs], the fields [MakePageObj] reads. *)
Record ObjectAttrs : Type := {
  Prefix : string;
  attrsName : string;
  attrsSize : Z;
  Updated : Time
}.

(** [*storage.ObjectIterator]: the entries [Next] yields, the error it
    stops on ([None] for [iterator.Done]), and its page info. *)
Record ObjectIterator : Type := {
  entries : list ObjectAttrs;
  stop : option PlainError;
  Token : string;
  MaxSize : Z
}.

Record Item : Type := {
  Name : string;
  IsDir : bool;
  Key : string;
  Url : string;
  Size : string;
  LastModified : string
}.

Record PageObj : Type := {
  Count : Z;
  Items : list Item;
  MoreLink : string
}.

(** [PageObj{}] *)
Definition zeroPage : PageObj := {| Count := 0; Items := []; MoreLink := "" |}.

(** The item of one entry, the body of the loop after [po.Count++]. *)
Definition makeItem (position : nat) (attrs : ObjectAttrs) : Item :=
  if negb (String.eqb (Prefix attrs) "") then
    let name := GoPathBase.Base (Prefix attrs) in
    let dirPath := ("./" ++ name ++ "/")%string in
    {| Url := dirPath; Name := name; IsDir := true;
       Key := ""; Size := ""; LastModified := "" |}
  else
    let name := GoPathBase.Base (attrsName attrs) in
    let itemPath := ("./" ++ name)%string in
    let size := humanizeBytes (uint64 (attrsSize attrs)) in
    let timeAgo := humanizeTime position (Updated attrs) in
    {| Name := name; Key := attrsName attrs; Url := itemPath;
       Size := size; LastModified := timeAgo; IsDir := false |}.

(** [for { attrs, err := it.Next(); ... }]: the page when the iterator is
    done, the error when it fails. *)
Fixpoint nextLoop (rest : list ObjectAttrs) (stopped : option PlainError)
  (po : PageObj) : PageObj + PlainError :=
  match rest with
  | [] =>
    match stopped with
    | None => inl po
    | Some err => inr err
    end
  | attrs :: rest' =>
    nextLoop rest' stopped
             {| Count := int64 (Count po + 1);
                Items := (Items po ++ [makeItem (length (Items po)) attrs])%list;
                MoreLink := MoreLink po |}
  end.

(** [queryItems.Encode()] for the values added under [next] and [max]:
    the keys in sorted order. *)
Definition encodeQuery (token : string) (maxSize : Z) : string :=
  ((if (0 <? maxSize)%Z
    then "max=" ++ queryEscape (NilZero.string_of_int (Z.to_int (int64 maxSize))) ++ "&"
    else "")
   ++ "next=" ++ queryEscape token)%string.

(** [func (p GcsProxy) MakePageObj(it *storage.ObjectIterator) (PageObj, error)] *)
Definition MakePageObj (it : ObjectIterator) : PageObj * option PlainError :=
  match nextLoop (entries it) (stop it) zeroPage with
  | inr err => (zeroPage, Some err)
  | inl po =>
    if negb (String.eqb (Token it) "") then
      ({| Count := Count po; Items := Items po;
          MoreLink := ("?" ++ encodeQuery (Token it) (MaxSize it))%string |}, None)
    else (po, None)
  end.

End Listing.

Arguments Prefix {Time} _.
Arguments attrsName {Time} _.
Arguments attrsSize {Time} _.
Arguments Updated {Time} _.
Arguments entries {Time} _.
Arguments stop {Time} _.
Arguments Token {Time} _.
Arguments MaxSize {Time} _.

End Browse.

(** ** Specification vocabulary for [path.Clean] *)

Local Open Scope list_scope.

(** A path element: the bytes between two separators. *)
Definition noSlash (e : bytes) : Prop := GoStrings.containsByte slash e = false.

(** An element that [Clean] keeps: not empty, not [.] and not [..]. *)
Definition realElem (e : bytes) : Prop :=
  noSlash e /\ e <> [] /\ e <> [dot] /\ e <> [dot; dot].

(** What one element does to the buffer and to [dotdot]. *)
Definition stepElem (rooted : bool) (st : bytes * nat) (e : bytes) : bytes * nat :=
  match e with
  | [] => st
  | [c] =>
    if Ascii.eqb c dot then st
    else (rev e ++ GoPath.addSlash rooted (fst st), snd st)
  | [c; c1] =>
    if Ascii.eqb c dot && Ascii.eqb c1 dot
    then GoPath.dotdotElem rooted (fst st) (snd st)
    else (rev e ++ GoPath.addSlash rooted (fst st), snd st)
  | _ => (rev e ++ GoPath.addSlash rooted (fst st), snd st)
  end.

(** The buffer that holds the elements [cs], last element first. *)
Fixpoint joinRev (cs : list bytes) : bytes :=
  match cs with
  | [] => []
  | c :: cs' => rev c ++ match cs' with
                         | [] => []
                         | _ => slash :: joinRev cs'
                         end
  end.

(** The leading separator of a rooted buffer. *)
Definition rootMark (rooted : bool) : bytes := if rooted then [slash] else [].

(** The loop invariant of [Clean]: the buffer holds kept elements on top of
    the leading [..] elements (none when rooted) and of the root separator,
    and [dotdot] is the length of that bottom part. *)
Definition cleanInv (rooted : bool) (st : bytes * nat) : Prop :=
  exists reals dots,
    Forall realElem reals
    /\ Forall (fun d => d = [dot; dot]) dots
    /\ (rooted = true -> dots = [])
    /\ fst st = joinRev (reals ++ dots) ++ rootMark rooted
    /\ snd st = length (joinRev dots ++ rootMark rooted).

(** Elements of the buffer: no separator inside, not empty. *)
Definition bufElem (e : bytes) : Prop := noSlash e /\ e <> [].

(** The last byte is the separator. *)
Definition endsInSlash (l : bytes) : bool :=
  match rev l with
  | c :: _ => Ascii.eqb c slash
  | [] => false
  end.

(** The path starts with the separator. *)
Definition rootedBytes (l : bytes) : bool :=
  match l with
  | c :: _ => Ascii.eqb c slash
  | [] => false
  end.

(** The buffer [path.Join] cleans for a root and a non-empty path. *)
Definition joined (root p : string) : string :=
  if (0 <? String.length root)%nat then ((root ++ "/") ++ p)%string else p.

(** ** Specification vocabulary for [fileHidden] *)

(** A pattern without separator equals one of the components of the key. *)
Definition componentEq (h k : string) : Prop :=
  GoStrings.Contains h GoFilepath.Separator = false
  /\ In h (GoStrings.Split k GoFilepath.Separator).

(** A pattern with a separator is a prefix of the key and a separator
    follows it there. *)
Definition boundedPrefix (h k : string) : Prop :=
  GoStrings.Contains h GoFilepath.Separator = true
  /\ exists rest, k = (h ++ "/" ++ rest)%string.

(** The pattern matches the whole key as a glob. *)
Definition globMatch (h k : string) : Prop := GoFilepath.Match h k = true.

Definition hidesKey (h k : string) : Prop :=
  componentEq h k \/ boundedPrefix h k \/ globMatch h k.

(** ** Specification vocabulary for the handlers *)

(** The world [w] after the events [evs], with the store as it is. *)
Definition after {S : Type} (w : World S) (evs : list Event) : World S :=
  {| store := store w; trace := trace w ++ evs |}.

(** The error of a refused method or of a missing capability. *)
Definition notAllowed : GoError :=
  HandlerError StatusMethodNotAllowed (Some (ErrOther "method not allowed")).

(** The statuses that are written as they are. *)
Definition bypassStatus (statusCode : Z) : Prop :=
  statusCode = StatusNotModified
  \/ statusCode = StatusPreconditionFailed
  \/ statusCode = StatusRequestedRangeNotSatisfiable.

(** The override target of a failed request: the page of the status if
    there is one, else the default page if it is not empty, else the empty
    key. *)
Definition overrideTarget (p : GcsProxy) (statusCode : Z) : string :=
  match ErrorPages p !! statusCode with
  | Some page => page
  | None => if String.eqb (DefaultErrorPage p) "" then "" else DefaultErrorPage p
  end.

(** What the log gets for a candidate that cannot be served: nothing for
    a candidate that does not exist, a warning for any other error. *)
Definition warnEvents (indexPath : string) (err : PlainError) : list Event :=
  if isErrObjectNotExist err then []
  else [EvLog "warn" "error when looking for index" indexPath (Some err)].

(** The probe of one index candidate misses: its reader cannot be opened,
    or its attributes cannot be fetched. The second world is the one the
    probe leaves. *)
Inductive probeMiss {S : Type} `{ObjectStore S} (indexPath : string)
  (w : World S) : World S -> Prop :=
| miss_reader (err : PlainError) (s1 : S) :
    storeNewReader indexPath None (store w) = (inr err, s1) ->
    probeMiss indexPath w
      {| store := s1;
         trace := trace w ++ EvStore (CallNewReader indexPath None)
                               :: warnEvents indexPath err |}
| miss_attrs (reader : Reader) (s1 : S) (err : PlainError) (s2 : S) :
    storeNewReader indexPath None (store w) = (inl reader, s1) ->
    storeAttrs indexPath s1 = (inr err, s2) ->
    probeMiss indexPath w
      {| store := s2;
         trace := trace w ++ EvStore (CallNewReader indexPath None)
                               :: EvStore (CallAttrs indexPath)
                               :: EvStore (CallReaderClose indexPath)
                               :: warnEvents indexPath err |}.

(** The probe of one index candidate finds it: reader and attributes. *)
Inductive probeHit {S : Type} `{ObjectStore S} (indexPath : string)
  (w : World S) : Reader -> ObjectAttrs -> World S -> Prop :=
| hit_candidate (reader : Reader) (s1 : S) (attrs : ObjectAttrs) (s2 : S) :
    storeNewReader indexPath None (store w) = (inl reader, s1) ->
    storeAttrs indexPath s1 = (inl attrs, s2) ->
    probeHit indexPath w reader attrs
      {| store := s2;
         trace := trace w ++ [EvStore (CallNewReader indexPath None);
                              EvStore (CallAttrs indexPath)] |}.

(** The candidates [names] of the directory [dir] are probed one after the
    other, in this order, and all miss. *)
Inductive allMiss {S : Type} `{ObjectStore S} (dir : string)
  : list string -> World S -> World S -> Prop :=
| allMiss_nil (w : World S) : allMiss dir [] w w
| allMiss_cons (name : string) (names : list string) (w w1 w2 : World S) :
    probeMiss (GoPath.Join [dir; name]) w w1 ->
    allMiss dir names w1 w2 ->
    allMiss dir (name :: names) w w2.

(** Serving a found object: its headers and body are written, and a
    failure of the copy is the error of the request. *)
Definition serveObject {S : Type} `{ObjectStore S} (reader : Reader)
  (attrs : ObjectAttrs) : M S (option GoError) :=
  werr <- writeResponseFromGetObject (Some reader) (Some attrs) ;;
  ret (option_map Plain werr).

(** The events of the store client in a trace. *)
Fixpoint storeCalls (tr : list Event) : list StoreCall :=
  match tr with
  | [] => []
  | EvStore c :: tr' => c :: storeCalls tr'
  | _ :: tr' => storeCalls tr'
  end.

(** The status codes written in a trace, in order. *)
Fixpoint statusWrites (tr : list Event) : list Z :=
  match tr with
  | [] => []
  | EvWriteHeader statusCode :: tr' => statusCode :: statusWrites tr'
  | _ :: tr' => statusWrites tr'
  end.

(** A computation that returns (no panic), only adds events to the trace
    and writes no status code. *)
Definition keepsStatus {S A : Type} (m : M S A) : Prop :=
  forall w, exists a w' tl,
    m w = (Returns a, w')
    /\ trace w' = trace w ++ tl
    /\ statusWrites tl = [].

(** A computation that writes no status code, however it ends. *)
Definition noStatus {S A : Type} (m : M S A) : Prop :=
  forall w, exists tl,
    trace (snd (m w)) = trace w ++ tl /\ statusWrites tl = [].

(** ** Specification vocabulary for the outcomes of the handlers *)

(** The status [convertToCaddyError] gives a store error. *)
Definition convertedStatus (e : PlainError) : Z :=
  if isErrObjectNotExist e then StatusNotFound else StatusInternalServerError.

(** The header events of the metadata entries, in their order. *)
Definition metadataHeaders (metadata : list (string * string)) : list Event :=
  map (fun kv => EvSetHeader (fst kv) (snd kv)) metadata.

(** The event sets a response header. *)
Definition isSetHeader (e : Event) : Prop := exists k v, e = EvSetHeader k v.

(** The header event of an attribute, none when the attribute is empty. *)
Definition optHeader (key value : string) : list Event :=
  if String.eqb value "" then [] else [EvSetHeader key value].

(** The headers of the standard attributes of an object, in the order
    [writeResponseFromGetObject] sets them. *)
Definition standardHeaders (attrs : ObjectAttrs) : list Event :=
  optHeader "Cache-Control" (CacheControl attrs)
  ++ optHeader "Content-Disposition" (ContentDisposition attrs)
  ++ optHeader "Content-Encoding" (ContentEncoding attrs)
  ++ optHeader "Content-Language" (ContentLanguage attrs)
  ++ optHeader "Content-Type" (ContentType attrs)
  ++ [EvSetHeader "ETag" (quotedDecimal (Generation attrs))]
  ++ match Updated attrs with
     | Some t => [EvSetHeader "Last-Modified" t]
     | None => []
     end.

(** The body event of a reader, none for the [nil] reader. *)
Definition bodyEvents (reader : option Reader) : list Event :=
  match reader with
  | Some rd => [EvWrite (readerBody rd)]
  | None => []
  end.

(** What reaches the client in a trace: headers, statuses and bodies. *)
Fixpoint responseEvents (tr : list Event) : list Event :=
  match tr with
  | [] => []
  | EvStore _ :: tr' => responseEvents tr'
  | EvLog _ _ _ _ :: tr' => responseEvents tr'
  | e :: tr' => e :: responseEvents tr'
  end.

(** The log entry of a direct fetch whose reader cannot be opened. *)
Definition fetchLog (fullPath : string) (err : PlainError) : Event :=
  if isErrObjectNotExist err then EvLog "debug" "not found" fullPath None
  else EvLog "error" "failed to get object" fullPath (Some err).

(** A computation that returns in every world: no panic. *)
Definition returns {S A : Type} (m : M S A) : Prop :=
  forall w, exists a w', m w = (Returns a, w').

(** A configuration with browsing on and no index names. *)
Definition browseProxy : GcsProxy :=
  {| Root := ""; Bucket := "b"; IndexNames := [];
     Hide := []; EnablePut := false; EnableDelete := false;
     EnableBrowse := true; BrowseTemplate := "";
     ErrorPages := ∅; DefaultErrorPage := "";
     ProjectID := ""; CredentialsFile := "" |}.

(** ** Specification vocabulary for names and patterns *)

(** The name [h] is a component of the key [k] as text: it stands between
    two separators, or between a separator and an end of the key, or it
    is the whole key. *)
Definition namedComponent (h k : string) : Prop :=
  k = h
  \/ (exists post, k = (h ++ "/" ++ post)%string)
  \/ (exists pre, k = (pre ++ "/" ++ h)%string)
  \/ (exists pre post, k = (pre ++ "/" ++ h ++ "/" ++ post)%string).

(** The same on bytes. *)
Definition namedElem (h k : bytes) : Prop :=
  k = h
  \/ (exists post, k = h ++ slash :: post)
  \/ (exists pre, k = pre ++ slash :: h)
  \/ (exists pre post, k = pre ++ slash :: h ++ slash :: post).

(** The configuration [p] with another default error page. *)
Definition withDefaultErrorPage (p : GcsProxy) (page : string) : GcsProxy :=
  {| Root := Root p; Bucket := Bucket p; IndexNames := IndexNames p;
     Hide := Hide p; EnablePut := EnablePut p; EnableDelete := EnableDelete p;
     EnableBrowse := EnableBrowse p; BrowseTemplate := BrowseTemplate p;
     ErrorPages := ErrorPages p; DefaultErrorPage := page;
     ProjectID := ProjectID p; CredentialsFile := CredentialsFile p |}.

(** ** Specification vocabulary for resolved keys *)

(** The buffer [path.Join] cleans starts with the separator: the root
    does, or there is no root and the request path does. *)
Definition rootedRequest (root uriPath : string) : Prop :=
  GoStrings.HasPrefix root "/" = true
  \/ (root = ""%string /\ GoStrings.HasPrefix uriPath "/" = true).

(** A name of a resolved key: not empty, not [.], not [..], and without
    separator. *)
Definition realName (n : string) : Prop :=
  n <> ""%string /\ n <> "."%string /\ n <> ".."%string
  /\ GoStrings.Contains n GoFilepath.Separator = false.

(** A byte that stands for itself in a glob: none of [*], [?], [[] and
    the backslash. *)
Definition literalByte (c : ascii) : bool :=
  negb (isByte c "*" || isByte c "?" || isByte c "[" || isByte c "\").

(** A pattern without glob syntax. *)
Definition literalPattern (h : string) : Prop :=
  forallb literalByte (list_ascii_of_string h) = true.

(** No override sends a failed request to the next handler. *)
Definition noPassThrough (p : GcsProxy) : Prop :=
  forall statusCode,
    fst (fst (determineErrorsAction p statusCode)) = false.

(** A store whose readers break off: every object opens and has
    attributes, and the copy of its body ends with an error. *)
Definition truncatingStore : ObjectStore unit :=
  {| storeNewReader := fun _ _ s =>
       (inl {| readerBody := list_ascii_of_string "par";
               readerErr := Some (ErrOther "connection reset") |}, s);
     storeAttrs := fun _ s => (inl (plainAttrs "text/plain" 1), s);
     storeWriterCopy := fun _ _ _ s => (None, s);
     storeWriterClose := fun _ s => (None, s);
     storeDelete := fun _ s => (None, s);
     storeObjects := fun _ _ s => (([], None), s) |}.

(** ** Specification vocabulary for conditional GET *)





(** * Verification *)

(** ** The library models on the cases of the Go documentation and tests *)

Example Clean_ex1 : GoPath.Clean "/a/b/../c/./d//" = "/a/c/d". Proof. reflexivity. Qed.
Example Clean_ex2 : GoPath.Clean "a/../../b" = "../b". Proof. reflexivity. Qed.
Example Clean_ex3 : GoPath.Clean "/../a/.." = "/". Proof. reflexivity. Qed.
Example Clean_ex4 : GoPath.Clean "../../a/../.." = "../../..". Proof. reflexivity. Qed.
Example Clean_ex5 : GoPath.Clean "abc/def/../.." = ".". Proof. reflexivity. Qed.
Example Clean_ex6 : GoPath.Clean "/abc/..def/.x/..." = "/abc/..def/.x/...". Proof. reflexivity. Qed.
Example Join_ex1 : GoPath.Join [""; "/a/b/"] = "/a/b". Proof. reflexivity. Qed.
Example Join_ex2 : GoPath.Join ["/site"; "/a/../"] = "/site". Proof. reflexivity. Qed.
Example Join_ex3 : GoPath.Join [""; ""] = "". Proof. reflexivity. Qed.
Example Match_ex1 : GoFilepath.Match "_*" "/_draft" = false. Proof. reflexivity. Qed.
Example Match_ex2 : GoFilepath.Match "_*" "_draft" = true. Proof. reflexivity. Qed.
Example Match_ex3 : GoFilepath.Match "*" "a/b" = false. Proof. reflexivity. Qed.
Example Match_ex4 : GoFilepath.Match "/*/b" "/a/b" = true. Proof. reflexivity. Qed.
Example Match_ex5 : GoFilepath.Match "a*b*c" "axxbyyc" = true. Proof. reflexivity. Qed.
Example Match_ex6 : GoFilepath.Match "a[b-d]e" "ace" = true. Proof. reflexivity. Qed.
Example Match_ex7 : GoFilepath.Match "a[^b-d]e" "ace" = false. Proof. reflexivity. Qed.
Example Match_ex8 : GoFilepath.Match "a?c" "a/c" = false. Proof. reflexivity. Qed.
Example Match_ex9 : GoFilepath.Match "a\*c" "a*c" = true. Proof. reflexivity. Qed.
Example Match_ex10 : GoFilepath.Match "[" "a" = false. Proof. reflexivity. Qed.
Example Match_ex11 : GoFilepath.Match "*.txt" "foo.txt" = true. Proof. reflexivity. Qed.
Example Match_ex12 : GoFilepath.Match "*x" "xxx" = true. Proof. reflexivity. Qed.
Example Match_ex13 : GoFilepath.Match "a*" "ab/c" = false. Proof. reflexivity. Qed.
Example Match_ex14 : GoFilepath.Match "[a-]" "a" = false. Proof. reflexivity. Qed.
Example Match_ex15 : GoFilepath.Match "ab[e-g]*" "abfxy" = true. Proof. reflexivity. Qed.
Example Match_ex16 : GoFilepath.Match "/foo*" "/foobar" = true. Proof. reflexivity. Qed.
Example ParseInt_ex1 : GoStrconv.ParseInt "1700000000000042" = Some 1700000000000042%Z.
Proof. reflexivity. Qed.
Example ParseInt_ex2 : GoStrconv.ParseInt "-9223372036854775808" = Some (- 2 ^ 63)%Z.
Proof. reflexivity. Qed.
Example ParseInt_ex3 : GoStrconv.ParseInt "9223372036854775808" = None.
Proof. reflexivity. Qed.
Example ParseInt_ex4 : GoStrconv.ParseInt "12a" = None.
Proof. reflexivity. Qed.
Example ToLower_ex1 : GoStrings.ToLower "Pass_THROUGH" = "pass_through".
Proof. reflexivity. Qed.
Example Split_ex1 : GoStrings.Split "/foo/bar/baz" slash = [""; "foo"; "bar"; "baz"]%string.
Proof. reflexivity. Qed.
Example fileHidden_ex1 : fileHidden "/foo/bar/baz" ["bar"%string] = true.
Proof. reflexivity. Qed.
Example fileHidden_ex2 : fileHidden "/barstool" ["bar"%string] = false.
Proof. reflexivity. Qed.
Example fileHidden_ex3 : fileHidden "/foo/bar" ["/foo"%string] = true.
Proof. reflexivity. Qed.
Example fileHidden_ex4 : fileHidden "/foobar" ["/foo"%string] = false.
Proof. reflexivity. Qed.
Example joinPath_ex1 : joinPath "/site" "/docs/../img/" = Returns "/site/img/"%string.
Proof. reflexivity. Qed.
Example joinPath_ex2 : joinPath "" "/" = Returns "/"%string.
Proof. reflexivity. Qed.
Example joinPath_ex3 : joinPath "/" "." = Returns "/"%string.
Proof. reflexivity. Qed.

(** ** [path.Clean] works element by element *)

Section CleanElements.
Import GoPath GoStrings.

Lemma eqb_slash_false c : Ascii.eqb c slash = false -> c <> slash.
Proof. intros E ->. now rewrite Ascii.eqb_refl in E. Qed.

Lemma noSlash_cons c e :
  noSlash (c :: e) <-> Ascii.eqb c slash = false /\ noSlash e.
Proof. unfold noSlash; simpl. now rewrite orb_false_iff. Qed.

Lemma noSlash_app a b : noSlash (a ++ b) <-> noSlash a /\ noSlash b.
Proof.
  induction a as [|c a IH]; simpl.
  - unfold noSlash at 2; simpl. tauto.
  - rewrite !noSlash_cons, IH. tauto.
Qed.

Lemma noSlash_rev e : noSlash (rev e) <-> noSlash e.
Proof.
  induction e as [|c e IH]; simpl; [tauto|].
  rewrite noSlash_app, !noSlash_cons, IH. unfold noSlash at 2; simpl. tauto.
Qed.

Lemma copyElem_end k e o : noSlash e -> copyElem k e o = rev e ++ o.
Proof.
  revert o. induction e as [|c e IH]; intros o Hn; simpl; [reflexivity|].
  apply noSlash_cons in Hn as [Hc He]. rewrite Hc, IH by assumption.
  now rewrite <- app_assoc.
Qed.

Lemma copyElem_sep k e rest o :
  noSlash e -> copyElem k (e ++ slash :: rest) o = k (slash :: rest) (rev e ++ o).
Proof.
  revert o. induction e as [|c e IH]; intros o Hn; simpl.
  - reflexivity.
  - apply noSlash_cons in Hn as [Hc He]. rewrite Hc, IH by assumption.
    now rewrite <- app_assoc.
Qed.

Lemma cleanLoop_cons rooted c p1 out dotdot :
  cleanLoop rooted (c :: p1) out dotdot =
  let real :=
    copyElem (fun p o => cleanLoop rooted p o dotdot) p1 (c :: addSlash rooted out) in
  if Ascii.eqb c slash then cleanLoop rooted p1 out dotdot
  else if Ascii.eqb c dot && atElemEnd p1 then cleanLoop rooted p1 out dotdot
  else
    match p1 with
    | c1 :: p2 =>
      if Ascii.eqb c dot && Ascii.eqb c1 dot && atElemEnd p2 then
        let '(out', dotdot') := dotdotElem rooted out dotdot in
        cleanLoop rooted p2 out' dotdot'
      else real
    | [] => real
    end.
Proof. reflexivity. Qed.

Lemma cleanLoop_slash rooted rest out dotdot :
  cleanLoop rooted (slash :: rest) out dotdot = cleanLoop rooted rest out dotdot.
Proof. reflexivity. Qed.

Lemma atElemEnd_noSlash_app e rest :
  noSlash e -> atElemEnd (e ++ slash :: rest) = match e with [] => true | _ => false end.
Proof.
  destruct e as [|c e]; simpl; [reflexivity|].
  intros Hn. now apply noSlash_cons in Hn as [-> _].
Qed.

(** One element followed by a separator is one step. *)
Lemma cleanLoop_elem_sep rooted e rest out dotdot :
  noSlash e ->
  cleanLoop rooted (e ++ slash :: rest) out dotdot =
  cleanLoop rooted rest (fst (stepElem rooted (out, dotdot) e))
                        (snd (stepElem rooted (out, dotdot) e)).
Proof.
  intros Hn. destruct e as [|c [|c1 e2]].
  - reflexivity.
  - apply noSlash_cons in Hn as [Hc _]. simpl app.
    rewrite cleanLoop_cons. cbv zeta. rewrite Hc. simpl atElemEnd.
    unfold stepElem. rewrite andb_true_r.
    destruct (Ascii.eqb c dot) eqn:Hd.
    + now rewrite cleanLoop_slash.
    + simpl andb. simpl copyElem. reflexivity.
  - apply noSlash_cons in Hn as [Hc Hn]. pose proof Hn as Hn1.
    apply noSlash_cons in Hn1 as [Hc1 He2].
    change ((c :: c1 :: e2) ++ slash :: rest) with (c :: c1 :: (e2 ++ slash :: rest)).
    rewrite cleanLoop_cons. cbv zeta. rewrite Hc.
    simpl atElemEnd at 1. rewrite Hc1, andb_false_r.
    rewrite (atElemEnd_noSlash_app e2 rest He2).
    change (c1 :: e2 ++ slash :: rest) with ((c1 :: e2) ++ slash :: rest).
    rewrite copyElem_sep by assumption. cbv beta.
    rewrite cleanLoop_slash.
    destruct e2 as [|c2 e3].
    + unfold stepElem. rewrite andb_true_r.
      destruct (Ascii.eqb c dot && Ascii.eqb c1 dot).
      * cbn [fst snd].
        destruct (dotdotElem rooted out dotdot) as [o d]. reflexivity.
      * simpl. rewrite <- ?app_assoc; reflexivity.
    + rewrite andb_false_r. unfold stepElem. simpl fst. simpl snd.
      f_equal. simpl. rewrite <- ?app_assoc; reflexivity.
Qed.

(** The last element, with nothing after it, is one step too. *)
Lemma cleanLoop_elem_end rooted e out dotdot :
  noSlash e ->
  cleanLoop rooted e out dotdot = fst (stepElem rooted (out, dotdot) e).
Proof.
  intros Hn. destruct e as [|c [|c1 e2]].
  - reflexivity.
  - apply noSlash_cons in Hn as [Hc _].
    rewrite cleanLoop_cons. cbv zeta. rewrite Hc. simpl atElemEnd.
    unfold stepElem. rewrite andb_true_r.
    destruct (Ascii.eqb c dot); reflexivity.
  - apply noSlash_cons in Hn as [Hc Hn]. pose proof Hn as Hn1.
    apply noSlash_cons in Hn1 as [Hc1 He2].
    rewrite cleanLoop_cons. cbv zeta. rewrite Hc.
    simpl atElemEnd at 1. rewrite Hc1, andb_false_r.
    rewrite copyElem_end by assumption.
    destruct e2 as [|c2 e3].
    + unfold stepElem. simpl atElemEnd. rewrite andb_true_r.
      destruct (Ascii.eqb c dot && Ascii.eqb c1 dot).
      * cbn [fst snd].
        destruct (dotdotElem rooted out dotdot) as [o d]. reflexivity.
      * simpl. rewrite <- ?app_assoc; reflexivity.
    + apply noSlash_cons in He2 as [Hc2 _].
      simpl atElemEnd. rewrite Hc2, andb_false_r. unfold stepElem. simpl fst.
      simpl. rewrite <- ?app_assoc; reflexivity.
Qed.

Lemma splitBytes_nonempty s : splitBytes slash s <> [].
Proof.
  destruct s as [|c s]; simpl; [discriminate|].
  destruct (Ascii.eqb c slash); [discriminate|].
  destruct (splitBytes slash s); discriminate.
Qed.

Lemma splitBytes_noSlash e : noSlash e -> splitBytes slash e = [e].
Proof.
  induction e as [|c e IH]; intros Hn; simpl; [reflexivity|].
  apply noSlash_cons in Hn as [Hc He]. now rewrite Hc, IH.
Qed.

Lemma splitBytes_sep e rest :
  noSlash e ->
  splitBytes slash (e ++ slash :: rest) = e :: splitBytes slash rest.
Proof.
  induction e as [|c e IH]; intros Hn; simpl; [reflexivity|].
  apply noSlash_cons in Hn as [Hc He]. now rewrite Hc, IH.
Qed.

(** Every path is its first element, alone or before a separator. *)
Lemma first_element s :
  exists e, noSlash e /\ (s = e \/ exists rest, s = e ++ slash :: rest).
Proof.
  induction s as [|c s [e [Hn Hs]]].
  - exists []. split; [reflexivity | now left].
  - destruct (Ascii.eqb c slash) eqn:Hc.
    + apply Ascii.eqb_eq in Hc as ->. exists []. split; [reflexivity|].
      right. now exists s.
    + exists (c :: e). split; [now apply noSlash_cons|].
      destruct Hs as [-> | [rest ->]]; [now left | right; now exists rest].
Qed.

(** Induction on a path, one element at a time. *)
Lemma path_elem_ind (P : bytes -> Prop) :
  (forall e, noSlash e -> P e) ->
  (forall e rest, noSlash e -> P rest -> P (e ++ slash :: rest)) ->
  forall s, P s.
Proof.
  intros Hend Hsep s.
  remember (length s) as n eqn:Hlen. revert s Hlen.
  induction n as [n IH] using lt_wf_ind. intros s ->.
  destruct (first_element s) as [e [Hn [-> | [rest ->]]]].
  - now apply Hend.
  - apply Hsep; [assumption|].
    apply (IH (length rest)); [|reflexivity].
    rewrite length_app. simpl. lia.
Qed.

(** [Clean]'s loop is a fold of [stepElem] over the elements. *)
Lemma cleanLoop_fold rooted path :
  forall out dotdot,
    cleanLoop rooted path out dotdot =
    fst (fold_left (stepElem rooted) (splitBytes slash path) (out, dotdot)).
Proof.
  induction path as [e Hn | e rest Hn IH] using path_elem_ind; intros out dotdot.
  - rewrite splitBytes_noSlash by assumption. simpl.
    now apply cleanLoop_elem_end.
  - rewrite splitBytes_sep by assumption. simpl.
    rewrite cleanLoop_elem_sep by assumption. rewrite IH.
    now destruct (stepElem rooted (out, dotdot) e).
Qed.

Lemma splitBytes_last z c :
  noSlash c -> splitBytes slash (z ++ slash :: c) = splitBytes slash z ++ [c].
Proof.
  intros Hc. induction z as [e Hn | e rest Hn IH] using path_elem_ind.
  - rewrite splitBytes_sep, !splitBytes_noSlash by assumption. reflexivity.
  - rewrite <- app_assoc. simpl.
    rewrite (splitBytes_sep e (rest ++ slash :: c)), (splitBytes_sep e rest)
      by assumption.
    now rewrite IH.
Qed.

End CleanElements.

(** ** The loop invariant of [path.Clean] *)

Section CleanInvariant.
Import GoPath GoStrings.

Lemma backtrackLoop_eq removed out dotdot :
  backtrackLoop removed out dotdot =
  if (dotdot <? length out)%nat && negb (Ascii.eqb removed slash) then
    match out with
    | c :: out' => backtrackLoop c out' dotdot
    | [] => []
    end
  else out.
Proof. destruct out; reflexivity. Qed.

(** Popping the top element stops at the bottom part of the buffer. *)
Lemma backtrackLoop_stop pre : forall x rest dotdot,
  noSlash (x :: pre) -> length rest = dotdot ->
  backtrackLoop x (pre ++ rest) dotdot = rest.
Proof.
  induction pre as [|y pre IH]; intros x rest dotdot Hn Hl;
    rewrite backtrackLoop_eq; simpl app.
  - subst dotdot. now rewrite Nat.ltb_irrefl.
  - apply noSlash_cons in Hn as [Hx Hn].
    replace (dotdot <? length (y :: pre ++ rest))%nat with true.
    + rewrite Hx. simpl. now apply IH.
    + symmetry. apply Nat.ltb_lt. simpl. rewrite length_app. lia.
Qed.

(** Popping the top element also takes the separator below it. *)
Lemma backtrackLoop_sep pre : forall x rest dotdot,
  noSlash (x :: pre) -> (dotdot <= length rest)%nat ->
  backtrackLoop x (pre ++ slash :: rest) dotdot = rest.
Proof.
  induction pre as [|y pre IH]; intros x rest dotdot Hn Hl;
    rewrite backtrackLoop_eq; simpl app.
  - apply noSlash_cons in Hn as [Hx _].
    replace (dotdot <? length (slash :: rest))%nat with true
      by (symmetry; apply Nat.ltb_lt; simpl; lia).
    rewrite Hx. simpl. rewrite backtrackLoop_eq.
    change (Ascii.eqb slash slash) with true. now rewrite andb_false_r.
  - apply noSlash_cons in Hn as [Hx Hn].
    replace (dotdot <? length (y :: pre ++ slash :: rest))%nat with true.
    + rewrite Hx. simpl. now apply IH.
    + symmetry. apply Nat.ltb_lt. simpl. rewrite length_app. simpl. lia.
Qed.

Lemma rev_top c :
  noSlash c -> c <> [] -> exists x pre, rev c = x :: pre /\ noSlash (x :: pre).
Proof.
  intros Hn Hne. destruct (rev c) as [|x pre] eqn:E.
  - apply (f_equal (@rev ascii)) in E. rewrite rev_involutive in E. now subst.
  - exists x, pre. split; [reflexivity|]. rewrite <- E. now apply noSlash_rev.
Qed.

Lemma backtrack_stop c rest dotdot :
  noSlash c -> c <> [] -> length rest = dotdot ->
  backtrack (rev c ++ rest) dotdot = rest.
Proof.
  intros Hn Hne Hl. destruct (rev_top c Hn Hne) as [x [pre [-> Hx]]].
  simpl. now apply backtrackLoop_stop.
Qed.

Lemma backtrack_sep c rest dotdot :
  noSlash c -> c <> [] -> (dotdot <= length rest)%nat ->
  backtrack (rev c ++ slash :: rest) dotdot = rest.
Proof.
  intros Hn Hne Hl. destruct (rev_top c Hn Hne) as [x [pre [-> Hx]]].
  simpl. now apply backtrackLoop_sep.
Qed.

Lemma realElem_bufElem e : realElem e -> bufElem e.
Proof. intros [Hn [Hne _]]. now split. Qed.

Lemma dotdot_bufElem d : d = [dot; dot] -> bufElem d.
Proof. intros ->. split; [reflexivity | discriminate]. Qed.

Lemma inv_bufElems reals dots :
  Forall realElem reals -> Forall (fun d => d = [dot; dot]) dots ->
  Forall bufElem (reals ++ dots).
Proof.
  intros Hr Hd. apply Forall_app. split.
  - eapply Forall_impl; [exact Hr|]. intros x. apply realElem_bufElem.
  - eapply Forall_impl; [exact Hd|]. intros x. apply dotdot_bufElem.
Qed.

Lemma joinRev_top c cs :
  bufElem c -> exists x t, joinRev (c :: cs) = x :: t /\ x <> slash.
Proof.
  intros [Hn Hne]. destruct (rev_top c Hn Hne) as [x [pre [E Hx]]].
  simpl. rewrite E. eexists x, _. split; [reflexivity|].
  apply noSlash_cons in Hx as [Hx _]. now apply eqb_slash_false.
Qed.

Lemma joinRev_length_app rs ds :
  (length (joinRev ds) <= length (joinRev (rs ++ ds)))%nat.
Proof.
  induction rs as [|r rs IH]; [reflexivity|].
  change ((r :: rs) ++ ds) with (r :: (rs ++ ds)).
  cbn [joinRev]. rewrite length_app.
  destruct (rs ++ ds) as [|y ys] eqn:E.
  - apply app_eq_nil in E as [_ ->]. simpl. lia.
  - cbn [length]. lia.
Qed.

Lemma addSlash_joinRev rooted cs :
  Forall bufElem cs ->
  addSlash rooted (joinRev cs ++ rootMark rooted) =
  match cs with
  | [] => rootMark rooted
  | _ => slash :: joinRev cs ++ rootMark rooted
  end.
Proof.
  intros Hcs. unfold addSlash. destruct cs as [|c cs].
  - destruct rooted; reflexivity.
  - apply Forall_cons_iff in Hcs as [Hc _].
    destruct (joinRev_top c cs Hc) as [x [t [-> _]]].
    destruct rooted; simpl; [|reflexivity].
    rewrite length_app. simpl.
    replace (length t + 1)%nat with (S (length t)) by lia. reflexivity.
Qed.

Lemma push_joinRev rooted e cs :
  Forall bufElem cs ->
  rev e ++ addSlash rooted (joinRev cs ++ rootMark rooted) =
  joinRev (e :: cs) ++ rootMark rooted.
Proof.
  intros Hcs. rewrite addSlash_joinRev by assumption.
  destruct cs as [|c cs].
  - cbn [joinRev]. now rewrite app_nil_r.
  - change (joinRev (e :: c :: cs)) with (rev e ++ slash :: joinRev (c :: cs)).
    now rewrite <- app_assoc.
Qed.

Lemma bytes_eq_dec (a b : bytes) : {a = b} + {a <> b}.
Proof. apply (List.list_eq_dec ascii_dec). Qed.

Lemma elem_cases e :
  noSlash e -> e = [] \/ e = [dot] \/ e = [dot; dot] \/ realElem e.
Proof.
  intros Hn.
  destruct (bytes_eq_dec e []); [now left|].
  destruct (bytes_eq_dec e [dot]); [now right; left|].
  destruct (bytes_eq_dec e [dot; dot]); [now right; right; left|].
  right; right; right. repeat split; assumption.
Qed.

Lemma stepElem_real rooted st e :
  realElem e -> stepElem rooted st e = (rev e ++ addSlash rooted (fst st), snd st).
Proof.
  intros [_ [Hne [Hd Hdd]]]. destruct e as [|c [|c1 [|c2 e]]]; try reflexivity.
  - contradiction.
  - unfold stepElem. destruct (Ascii.eqb c dot) eqn:E; [|reflexivity].
    apply Ascii.eqb_eq in E as ->. contradiction.
  - unfold stepElem.
    destruct (Ascii.eqb c dot) eqn:E; [|reflexivity].
    destruct (Ascii.eqb c1 dot) eqn:E1; [|reflexivity].
    apply Ascii.eqb_eq in E as ->. apply Ascii.eqb_eq in E1 as ->. contradiction.
Qed.

Lemma cleanInv_init rooted :
  cleanInv rooted (rootMark rooted, length (rootMark rooted)).
Proof. exists [], []. repeat split; auto. Qed.

(** The [..] element keeps the invariant. *)
Lemma dotdotElem_inv rooted out dotdot :
  cleanInv rooted (out, dotdot) -> cleanInv rooted (dotdotElem rooted out dotdot).
Proof.
  intros [reals [dots [Hr [Hd [Hroot [Hout Hdd]]]]]]. cbn [fst snd] in Hout, Hdd.
  pose proof (inv_bufElems reals dots Hr Hd) as Hall.
  unfold dotdotElem. destruct reals as [|r rs].
  - (* nothing to pop *)
    simpl app in Hout.
    replace (dotdot <? length out)%nat with false
      by (symmetry; apply Nat.ltb_ge; subst; lia).
    destruct rooted; cbn [negb].
    + exists [], dots. repeat split; auto.
    + exists [], ([dot; dot] :: dots). cbn [rootMark] in *.
      rewrite app_nil_r in Hout. subst out.
      repeat split; auto.
      * discriminate.
      * cbn [fst app joinRev rev]. rewrite app_nil_r.
        destruct dots as [|d ds]; [reflexivity|].
        apply Forall_cons_iff in Hall as [Hb _].
        destruct (joinRev_top d ds Hb) as [x [t [-> _]]]. reflexivity.
      * cbn [snd fst app]. rewrite app_nil_r. f_equal.
        cbn [joinRev rev app].
        destruct dots as [|d ds]; [reflexivity|].
        apply Forall_cons_iff in Hall as [Hb _].
        destruct (joinRev_top d ds Hb) as [x [t [-> _]]]. reflexivity.
  - (* pop the top element *)
    change ((r :: rs) ++ dots) with (r :: (rs ++ dots)) in Hout, Hall.
    apply Forall_cons_iff in Hall as [[Hrn Hrne] Hall].
    apply Forall_cons_iff in Hr as [_ Hr].
    pose proof (joinRev_length_app rs dots) as Hlen.
    cbn [joinRev] in Hout. rewrite <- app_assoc in Hout.
    assert (Hlt : (dotdot <? length out)%nat = true).
    { apply Nat.ltb_lt. subst out dotdot. rewrite !length_app.
      assert (length (rev r) <> 0)%nat.
      { rewrite length_rev. destruct r; [contradiction | discriminate]. }
      destruct (rs ++ dots) as [|y ys] eqn:E.
      - apply app_eq_nil in E as [_ ->]. simpl. lia.
      - cbn [length app]. rewrite ?length_app in *. cbn [length] in *. lia. }
    rewrite Hlt. exists rs, dots. repeat split; auto. cbn [fst]. subst out.
    destruct (rs ++ dots) as [|y ys] eqn:E.
    + apply app_eq_nil in E as [_ ->]. simpl app.
      apply backtrack_stop; auto.
    + apply backtrack_sep; auto. subst dotdot. rewrite !length_app. lia.
Qed.

(** Every element keeps the invariant. *)
Lemma stepElem_inv rooted st e :
  noSlash e -> cleanInv rooted st -> cleanInv rooted (stepElem rooted st e).
Proof.
  intros Hn Hinv. destruct (elem_cases e Hn) as [-> | [-> | [-> | Hreal]]].
  - exact Hinv.
  - exact Hinv.
  - destruct st as [out dotdot]. now apply dotdotElem_inv.
  - rewrite stepElem_real by assumption.
    destruct Hinv as [reals [dots [Hr [Hd [Hroot [Hout Hdd]]]]]].
    exists (e :: reals), dots. repeat split; auto.
    cbn [fst]. rewrite Hout.
    apply push_joinRev. now apply inv_bufElems.
Qed.

Lemma splitBytes_noSlash_all s : Forall noSlash (splitBytes slash s).
Proof.
  induction s as [e Hn | e rest Hn IH] using path_elem_ind.
  - rewrite splitBytes_noSlash by assumption. now constructor.
  - rewrite splitBytes_sep by assumption. now constructor.
Qed.

Lemma fold_stepElem_inv rooted es : forall st,
  Forall noSlash es -> cleanInv rooted st ->
  cleanInv rooted (fold_left (stepElem rooted) es st).
Proof.
  induction es as [|e es IH]; intros st Hes Hinv; [exact Hinv|].
  apply Forall_cons_iff in Hes as [He Hes]. simpl.
  apply IH; [assumption|]. now apply stepElem_inv.
Qed.

Lemma cleanLoop_inv rooted path out dotdot :
  cleanInv rooted (out, dotdot) ->
  exists dotdot', cleanInv rooted (cleanLoop rooted path out dotdot, dotdot').
Proof.
  intros Hinv. rewrite cleanLoop_fold.
  pose proof (fold_stepElem_inv rooted _ _ (splitBytes_noSlash_all path) Hinv) as H.
  destruct (fold_left _ _ _) as [o d]. now exists d.
Qed.

End CleanInvariant.

(** ** Strings and their bytes *)

Section StringBytes.
Import GoStrings.

Lemma bytes_app (a b : string) :
  list_ascii_of_string (a ++ b)%string =
  list_ascii_of_string a ++ list_ascii_of_string b.
Proof. induction a as [|c a IH]; simpl; [reflexivity | now rewrite IH]. Qed.

Lemma bytes_length (s : string) :
  length (list_ascii_of_string s) = String.length s.
Proof. induction s as [|c s IH]; simpl; [reflexivity | now rewrite IH]. Qed.

Lemma bytes_inj (a b : string) :
  list_ascii_of_string a = list_ascii_of_string b -> a = b.
Proof.
  intros E. rewrite <- (string_of_list_ascii_of_string a),
              <- (string_of_list_ascii_of_string b). now rewrite E.
Qed.

Lemma endsInSlash_cons c l :
  l <> [] -> endsInSlash (c :: l) = endsInSlash l.
Proof.
  intros Hne. unfold endsInSlash. simpl.
  destruct (rev l) as [|x t] eqn:E; [|reflexivity].
  apply (f_equal (@rev ascii)) in E. rewrite rev_involutive in E. now subst.
Qed.

Lemma substring_last c (s : string) :
  s <> ""%string ->
  String.substring (String.length (String c s) - 1) 1 (String c s) =
  String.substring (String.length s - 1) 1 s.
Proof.
  intros Hne. destruct s as [|c' s]; [contradiction|].
  simpl String.length.
  replace (S (S (String.length s)) - 1)%nat with (S (String.length s)) by lia.
  replace (S (String.length s) - 1)%nat with (String.length s) by lia.
  reflexivity.
Qed.

Lemma lastByte_endsInSlash (s : string) :
  s <> ""%string ->
  String.eqb (String.substring (String.length s - 1) 1 s) "/" =
  endsInSlash (list_ascii_of_string s).
Proof.
  induction s as [|c s IH]; intros Hne; [contradiction|].
  destruct s as [|c' s].
  - simpl. unfold endsInSlash, slash. simpl. now destruct (Ascii.eqb c "/").
  - rewrite substring_last by discriminate.
    rewrite IH by discriminate.
    change (list_ascii_of_string (String c (String c' s)))
      with (c :: list_ascii_of_string (String c' s)).
    symmetry. apply endsInSlash_cons. discriminate.
Qed.

Lemma HasSuffix_slash (s : string) :
  HasSuffix s "/" = endsInSlash (list_ascii_of_string s).
Proof.
  unfold HasSuffix. destruct s as [|c s]; [reflexivity|].
  change (String.length "/") with 1%nat.
  rewrite lastByte_endsInSlash by discriminate. reflexivity.
Qed.

Lemma HasSuffix_app_slash (s : string) : HasSuffix (s ++ "/")%string "/" = true.
Proof.
  rewrite HasSuffix_slash, bytes_app. unfold endsInSlash.
  rewrite rev_app_distr. reflexivity.
Qed.

Lemma endsInSlash_true l : endsInSlash l = true -> exists t, l = t ++ [slash].
Proof.
  unfold endsInSlash. destruct (rev l) as [|c t] eqn:E; [discriminate|].
  intros Hc. apply Ascii.eqb_eq in Hc as ->.
  exists (rev t). apply (f_equal (@rev ascii)) in E.
  rewrite rev_involutive in E. now subst.
Qed.

End StringBytes.

(** ** What [path.Clean] returns *)

Section CleanResult.
Import GoPath GoStrings.

(** [Clean] returns the buffer of a state that satisfies the invariant. *)
Lemma Clean_spec (path : string) :
  exists out dotdot,
    cleanInv (rootedBytes (list_ascii_of_string path)) (out, dotdot)
    /\ Clean path = match out with
                    | [] => "."%string
                    | _ => string_of_list_ascii (rev out)
                    end.
Proof.
  unfold Clean. destruct (list_ascii_of_string path) as [|c rest].
  - exists [], 0%nat. split; [apply (cleanInv_init false) | reflexivity].
  - cbn [rootedBytes]. destruct (Ascii.eqb c slash).
    + destruct (cleanLoop_inv true rest [slash] 1 (cleanInv_init true)) as [d Hd].
      now exists (cleanLoop true rest [slash] 1), d.
    + destruct (cleanLoop_inv false (c :: rest) [] 0 (cleanInv_init false)) as [d Hd].
      now exists (cleanLoop false (c :: rest) [] 0), d.
Qed.

(** A buffer that ends in the separator is the root alone. *)
Lemma cleanInv_top_slash rooted t dotdot :
  cleanInv rooted (slash :: t, dotdot) -> rooted = true /\ t = [].
Proof.
  intros [reals [dots [Hr [Hd [Hroot [Hout _]]]]]]. cbn [fst] in Hout.
  pose proof (inv_bufElems reals dots Hr Hd) as Hall.
  destruct (reals ++ dots) as [|c cs].
  - destruct rooted; [|discriminate]. now injection Hout as ->.
  - apply Forall_cons_iff in Hall as [Hc _].
    destruct (joinRev_top c cs Hc) as [x [u [E Hx]]].
    rewrite E in Hout. simpl in Hout. injection Hout as Hx' _. now subst x.
Qed.

Lemma Clean_nonempty (path : string) : Clean path <> ""%string.
Proof.
  destruct (Clean_spec path) as [out [d [_ ->]]].
  destruct out as [|c out]; [discriminate|].
  intros E. apply (f_equal list_ascii_of_string) in E.
  rewrite list_ascii_of_string_of_list_ascii in E. simpl in E.
  now apply app_eq_nil in E as [_ E].
Qed.

(** "The returned path ends in a slash only if it is the root". *)
Lemma Clean_trailing_slash (path : string) :
  HasSuffix (Clean path) "/" = true -> Clean path = "/"%string.
Proof.
  destruct (Clean_spec path) as [out [d [Hinv ->]]].
  destruct out as [|c out]; [discriminate|].
  rewrite HasSuffix_slash, list_ascii_of_string_of_list_ascii.
  unfold endsInSlash. rewrite rev_involutive.
  intros Hc. apply Ascii.eqb_eq in Hc as ->.
  apply cleanInv_top_slash in Hinv as [_ ->]. reflexivity.
Qed.

(** A path that does not start at the root is not cleaned to the root. *)
Lemma Clean_unrooted (path : string) :
  rootedBytes (list_ascii_of_string path) = false -> Clean path <> "/"%string.
Proof.
  intros Hroot. destruct (Clean_spec path) as [out [d [Hinv ->]]].
  rewrite Hroot in Hinv.
  destruct out as [|c out]; [discriminate|].
  intros E. apply (f_equal list_ascii_of_string) in E.
  rewrite list_ascii_of_string_of_list_ascii in E.
  apply (f_equal (@rev ascii)) in E. rewrite rev_involutive in E.
  simpl in E. injection E as -> ->.
  now apply cleanInv_top_slash in Hinv as [? _].
Qed.

(** A rooted path is cleaned to the root or to a path whose last element
    is kept by [Clean]. *)
Lemma Clean_rooted_shape (path : string) :
  rootedBytes (list_ascii_of_string path) = true ->
  Clean path = "/"%string
  \/ exists z c, realElem c /\ list_ascii_of_string (Clean path) = z ++ slash :: c.
Proof.
  intros Hroot. destruct (Clean_spec path) as [out [d [Hinv ->]]].
  rewrite Hroot in Hinv.
  destruct Hinv as [reals [dots [Hr [_ [Hdots [Hout _]]]]]].
  rewrite (Hdots eq_refl), app_nil_r in Hout. cbn [fst rootMark] in Hout.
  destruct reals as [|c rs].
  - left. subst out. reflexivity.
  - right. apply Forall_cons_iff in Hr as [Hc _].
    destruct out as [|x out].
    { destruct (joinRev (c :: rs)); discriminate. }
    rewrite list_ascii_of_string_of_list_ascii, Hout.
    rewrite rev_app_distr. cbn [joinRev]. rewrite rev_app_distr, rev_involutive.
    destruct rs as [|r rs].
    + exists [], c. split; [assumption | reflexivity].
    + exists (slash :: rev (joinRev (r :: rs))), c. split; [assumption|].
      cbn [rev app]. rewrite <- !app_assoc. reflexivity.
Qed.

(** A path whose last element is kept is not cleaned to the root. *)
Lemma Clean_ends_real (path : string) z c :
  realElem c -> list_ascii_of_string path = z ++ slash :: c ->
  Clean path <> "/"%string.
Proof.
  intros Hc Hpath.
  destruct (rootedBytes (list_ascii_of_string path)) eqn:Hroot;
    [|now apply Clean_unrooted].
  unfold Clean. rewrite Hpath in *.
  assert (Hrest : exists rest es, z ++ slash :: c = slash :: rest
                                  /\ splitBytes slash rest = es ++ [c]).
  { destruct Hc as [Hn _]. destruct z as [|x z].
    - exists c, []. split; [reflexivity | now apply splitBytes_noSlash].
    - simpl in Hroot. apply Ascii.eqb_eq in Hroot as ->.
      exists (z ++ slash :: c), (splitBytes slash z).
      split; [reflexivity | now apply splitBytes_last]. }
  destruct Hrest as [rest [es [-> Hsplit]]].
  change (Ascii.eqb slash slash) with true. cbv iota.
  rewrite cleanLoop_fold, Hsplit, fold_left_app. cbn [fold_left].
  pose proof (splitBytes_noSlash_all rest) as Hall. rewrite Hsplit in Hall.
  apply Forall_app in Hall as [Hes _].
  pose proof (fold_stepElem_inv true es _ Hes (cleanInv_init true)) as Hinv.
  change (rootMark true, length (rootMark true)) with ([slash], 1%nat) in Hinv.
  rewrite stepElem_real by assumption. cbn [fst].
  destruct Hinv as [reals [dots [Hr [Hd [_ [Hout _]]]]]].
  rewrite Hout, push_joinRev by (now apply inv_bufElems).
  destruct (joinRev_top c (reals ++ dots) (realElem_bufElem c Hc)) as [x [t [-> Hx]]].
  cbn [rootMark app]. intros E.
  apply (f_equal list_ascii_of_string) in E.
  rewrite list_ascii_of_string_of_list_ascii in E.
  apply (f_equal (@length ascii)) in E.
  cbn [rev] in E. rewrite !length_app, length_rev, length_app in E. simpl in E. lia.
Qed.

End CleanResult.

(** ** [joinPath] *)

Section JoinPath.
Import GoPath GoStrings.

Lemma Join_two root p : p <> ""%string -> Join [root; p] = Clean (joined root p).
Proof.
  intros Hp. unfold Join, joinBuf, joined. cbn [fold_left].
  destruct p as [|c p]; [contradiction|].
  destruct root as [|r root].
  - reflexivity.
  - cbn [String.length Nat.add Nat.eqb Nat.ltb Nat.leb orb String.eqb].
    reflexivity.
Qed.

Lemma joinPath_eq root p :
  p <> ""%string ->
  joinPath root p =
  Returns (if HasSuffix p "/" && negb (String.eqb (Join [root; p]) "/")
           then (Join [root; p] ++ "/")%string else Join [root; p]).
Proof.
  intros Hp. unfold joinPath, sliceFrom.
  assert (Hlen : (1 <= String.length p)%nat)
    by (destruct p; [contradiction | simpl; lia]).
  replace (Z.of_nat (String.length p) - 1 <? 0)%Z with false
    by (symmetry; apply Z.ltb_ge; lia).
  replace (Z.of_nat (String.length p) <? Z.of_nat (String.length p) - 1)%Z
    with false by (symmetry; apply Z.ltb_ge; lia).
  cbn [orb].
  replace (Z.to_nat (Z.of_nat (String.length p) - 1))
    with (String.length p - 1)%nat by lia.
  replace (String.length p - (String.length p - 1))%nat with 1%nat by lia.
  rewrite lastByte_endsInSlash, <- HasSuffix_slash by assumption.
  destruct (HasSuffix p "/" && negb (String.eqb (Join [root; p]) "/"));
    reflexivity.
Qed.

Lemma rootedBytes_app a b : a <> [] -> rootedBytes (a ++ b) = rootedBytes a.
Proof. destruct a; [contradiction | reflexivity]. Qed.

Lemma joinRev_bottom cs :
  Forall bufElem cs -> cs <> [] -> rootedBytes (rev (joinRev cs)) = false.
Proof.
  induction cs as [|c cs IH]; intros Hall Hne; [contradiction|].
  apply Forall_cons_iff in Hall as [[Hn Hc] Hall].
  destruct cs as [|c' cs].
  - cbn [joinRev]. rewrite app_nil_r, rev_involutive.
    destruct c as [|x c]; [contradiction|].
    apply noSlash_cons in Hn as [Hx _]. exact Hx.
  - change (joinRev (c :: c' :: cs)) with (rev c ++ slash :: joinRev (c' :: cs)).
    rewrite rev_app_distr. cbn [rev]. rewrite <- app_assoc.
    assert (Hb : bufElem c') by now apply Forall_cons_iff in Hall as [? _].
    destruct (joinRev_top c' cs Hb) as [x [t [E _]]].
    rewrite rootedBytes_app.
    + apply IH; [assumption | discriminate].
    + rewrite E. simpl. now destruct (rev t).
Qed.

(** Cleaning keeps a path off the root. *)
Lemma Clean_unrooted_stays (path : string) :
  rootedBytes (list_ascii_of_string path) = false ->
  rootedBytes (list_ascii_of_string (Clean path)) = false.
Proof.
  intros Hroot. destruct (Clean_spec path) as [out [d [Hinv ->]]].
  rewrite Hroot in Hinv.
  destruct out as [|x out]; [reflexivity|].
  rewrite list_ascii_of_string_of_list_ascii.
  destruct Hinv as [reals [dots [Hr [Hd [_ [Hout _]]]]]].
  cbn [fst rootMark] in Hout. rewrite app_nil_r in Hout. rewrite Hout.
  apply joinRev_bottom; [now apply inv_bufElems|].
  intros E. rewrite E in Hout. discriminate.
Qed.

Lemma joined_bytes root p :
  list_ascii_of_string (joined root p) =
  match list_ascii_of_string root with
  | [] => list_ascii_of_string p
  | _ => list_ascii_of_string root ++ slash :: list_ascii_of_string p
  end.
Proof.
  unfold joined. destruct root as [|c root]; [reflexivity|].
  cbn [String.length Nat.ltb Nat.leb]. rewrite !bytes_app.
  rewrite <- app_assoc. reflexivity.
Qed.

(** Joining an already resolved key to the same root does not collapse
    it to the root. *)
Lemma Clean_rejoin root p :
  Clean (joined root p) <> "/"%string ->
  Clean (joined root (Clean (joined root p))) <> "/"%string.
Proof.
  intros Hkey.
  destruct (rootedBytes (list_ascii_of_string (joined root p))) eqn:Hroot.
  - destruct (Clean_rooted_shape _ Hroot) as [E | [z [c [Hc Hz]]]];
      [contradiction|].
    destruct (list_ascii_of_string root) as [|r rs] eqn:Er.
    + apply (Clean_ends_real _ z c Hc). now rewrite joined_bytes, Er.
    + apply (Clean_ends_real _ ((r :: rs) ++ slash :: z) c Hc).
      rewrite joined_bytes, Er, Hz, <- app_assoc. reflexivity.
  - apply Clean_unrooted. destruct root as [|r root].
    + change (joined "" p) with p in *.
      change (joined "" (Clean p)) with (Clean p).
      now apply Clean_unrooted_stays.
    + rewrite joined_bytes in *. exact Hroot.
Qed.

End JoinPath.

(** ** The directory flag of a resolved key *)

Section JoinPathFlag.
Import GoPath GoStrings.

Lemma joinPath_of_directory root key :
  HasSuffix key "/" = true ->
  exists key', joinPath root key = Returns key' /\ HasSuffix key' "/" = true.
Proof.
  intros Hdir.
  assert (Hne : key <> ""%string) by (intros ->; discriminate).
  rewrite joinPath_eq, Hdir by assumption. cbn [andb].
  destruct (String.eqb (Join [root; key]) "/") eqn:E; cbn [negb].
  - apply String.eqb_eq in E. rewrite E. now exists "/"%string.
  - eexists. split; [reflexivity | apply HasSuffix_app_slash].
Qed.

End JoinPathFlag.

(** C9. For every root and every non-empty path, [joinPath] returns a key
    that ends in a separator exactly when the path does, unless the key is
    the root marker ["/"]; and joining that key to the same root again
    returns a key with the same directory flag. *)
Theorem joinPath_directory_flag (root p : string) :
  p <> ""%string ->
  exists key,
    joinPath root p = Returns key
    /\ (key = "/"%string
        \/ GoStrings.HasSuffix key "/" = GoStrings.HasSuffix p "/")
    /\ exists key',
         joinPath root key = Returns key'
         /\ GoStrings.HasSuffix key' "/" = GoStrings.HasSuffix key "/".
Proof.
  intros Hp. rewrite joinPath_eq by assumption.
  rewrite (Join_two root p Hp).
  set (newPath := GoPath.Clean (joined root p)).
  assert (Hnew : newPath <> ""%string) by apply Clean_nonempty.
  destruct (GoStrings.HasSuffix p "/") eqn:Hdir; cbn [andb].
  - (* the path names a directory *)
    destruct (String.eqb newPath "/") eqn:E; cbn [negb].
    + apply String.eqb_eq in E. rewrite E. exists "/"%string.
      split; [reflexivity|]. split; [now left|].
      destruct (joinPath_of_directory root "/" eq_refl) as [key' [H1 H2]].
      exists key'. now split.
    + exists (newPath ++ "/")%string. split; [reflexivity|].
      pose proof (HasSuffix_app_slash newPath) as Hs.
      split; [now right|].
      destruct (joinPath_of_directory root _ Hs) as [key' [H1 H2]].
      exists key'. split; [assumption | congruence].
  - (* the path names an object *)
    exists newPath. split; [reflexivity|].
    destruct (GoStrings.HasSuffix newPath "/") eqn:Hs.
    + split; [left; now apply Clean_trailing_slash|].
      destruct (joinPath_of_directory root _ Hs) as [key' [H1 H2]].
      exists key'. split; [assumption | congruence].
    + split; [now right|].
      rewrite joinPath_eq, Hs by assumption. cbn [andb].
      eexists. split; [reflexivity|].
      rewrite (Join_two root newPath Hnew).
      destruct (GoStrings.HasSuffix (GoPath.Clean (joined root newPath)) "/") eqn:Hs';
        [|reflexivity].
      apply Clean_trailing_slash in Hs'. exfalso.
      apply (Clean_rejoin root p); [|exact Hs'].
      fold newPath. intros E. rewrite E in Hs. discriminate.
Qed.

Lemma joinPath_directory_flag_witness :
  exists key,
    joinPath "/site" "/docs/../img/" = Returns key
    /\ (key = "/"%string
        \/ GoStrings.HasSuffix key "/" = GoStrings.HasSuffix "/docs/../img/" "/")
    /\ exists key',
         joinPath "/site" key = Returns key'
         /\ GoStrings.HasSuffix key' "/" = GoStrings.HasSuffix key "/".
Proof. apply (joinPath_directory_flag "/site" "/docs/../img/"). discriminate. Defined.

(** C10. [joinPath] returns a key for every root and every non-empty
    request path; on the empty path its slice [uriPath[len(uriPath)-1:]]
    is out of range and the call panics, and so does [ServeHTTP] on a
    request whose URL path is empty, before anything else happens. *)
Theorem joinPath_total_on_nonempty (root uriPath : string) :
  (uriPath <> ""%string -> exists key, joinPath root uriPath = Returns key)
  /\ (uriPath = ""%string ->
      joinPath root uriPath = Panics "slice bounds out of range"
      /\ forall (S : Type) (C : ObjectStore S) (p : GcsProxy) (r : Request)
                (next : M S (option GoError)) (w : World S),
           URLPath r = uriPath ->
           ServeHTTP p r next w = (Panics "slice bounds out of range", w)).
Proof.
  split.
  - intros Hp. rewrite joinPath_eq by assumption. eexists. reflexivity.
  - intros ->. split; [reflexivity|].
    intros S C p r next w Hr. unfold ServeHTTP, bind, liftOutcome.
    rewrite Hr. reflexivity.
Qed.

Lemma joinPath_total_on_nonempty_witness :
  (exists key, joinPath "/site" "/a.txt" = Returns key)
  /\ joinPath "/site" "" = Panics "slice bounds out of range".
Proof.
  split.
  - apply (proj1 (joinPath_total_on_nonempty "/site" "/a.txt")). discriminate.
  - apply (proj2 (joinPath_total_on_nonempty "/site" "")). reflexivity.
Defined.

(** ** [fileHidden] *)

Section FileHidden.
Import GoStrings.

Lemma prefix_iff (p s : string) :
  String.prefix p s = true <-> exists t, s = (p ++ t)%string.
Proof.
  revert s. induction p as [|c p IH]; intros s.
  - split; [intros _; now exists s | intros _; now destruct s].
  - destruct s as [|d s]; simpl.
    + split; [discriminate | intros [t E]; discriminate].
    + destruct (ascii_dec c d) as [->|Hne].
      * rewrite IH. split; intros [t E]; exists t; [now rewrite E|].
        change (String d s = String d (p ++ t)%string) in E. now injection E.
      * split; [discriminate|]. intros [t E].
        change (String d s = String c (p ++ t)%string) in E. congruence.
Qed.

Lemma string_length_app (a b : string) :
  String.length (a ++ b)%string = (String.length a + String.length b)%nat.
Proof. induction a as [|c a IH]; simpl; [reflexivity | now rewrite IH]. Qed.

Lemma substring_all (t : string) : String.substring 0 (String.length t) t = t.
Proof. induction t as [|c t IH]; simpl; [reflexivity | now rewrite IH]. Qed.

Lemma substring_skip (p t : string) n :
  String.substring (String.length p) n (p ++ t)%string = String.substring 0 n t.
Proof. induction p as [|c p IH]; simpl; [reflexivity | exact IH]. Qed.

Lemma TrimPrefix_app (p t : string) : TrimPrefix (p ++ t)%string p = t.
Proof.
  unfold TrimPrefix, HasPrefix.
  replace (String.prefix p (p ++ t)%string) with true
    by (symmetry; apply prefix_iff; now exists t).
  rewrite string_length_app, substring_skip.
  replace (String.length p + String.length t - String.length p)%nat
    with (String.length t) by lia.
  apply substring_all.
Qed.

Lemma boundedPrefix_test (h k : string) :
  HasPrefix k h && HasPrefix (TrimPrefix k h) "/" = true
  <-> exists rest, k = (h ++ "/" ++ rest)%string.
Proof.
  rewrite andb_true_iff. unfold HasPrefix at 1 2. rewrite !prefix_iff. split.
  - intros [[t ->] [rest E]]. rewrite TrimPrefix_app in E. subst t. now exists rest.
  - intros [rest ->]. split; [now eexists|].
    rewrite TrimPrefix_app. now exists rest.
Qed.

Lemma component_test (h : string) (components : list string) :
  existsb (fun c => String.eqb c h) components = true <-> In h components.
Proof.
  rewrite existsb_exists. split.
  - intros [c [Hin E]]. apply String.eqb_eq in E. now subst.
  - intros Hin. exists h. split; [assumption | apply String.eqb_refl].
Qed.

Lemma Split_nonempty (s : string) (sep : ascii) : Split s sep <> [].
Proof.
  unfold Split. destruct (splitBytes sep (list_ascii_of_string s)) eqn:E;
    [|discriminate].
  exfalso. revert E. generalize (list_ascii_of_string s). intros l.
  destruct l as [|c l]; simpl; [discriminate|].
  destruct (Ascii.eqb c sep); [discriminate|].
  destruct (splitBytes sep l); discriminate.
Qed.

(** The loop decides the three rules, whether [components] is still empty
    or already holds the components of the key. *)
Lemma fileHiddenLoop_spec (k : string) (hide : list string) :
  forall components,
    components = [] \/ components = Split k GoFilepath.Separator ->
    fileHiddenLoop k hide components = true
    <-> exists h, In h hide /\ hidesKey h k.
Proof.
  induction hide as [|h hide IH]; intros components Hc; cbn [fileHiddenLoop].
  - split; [discriminate | intros [h [[] _]]].
  - set (noSep := negb (Contains h GoFilepath.Separator)).
    set (components' := if noSep && (length components =? 0)%nat
                        then Split k GoFilepath.Separator else components).
    assert (Hc' : components' = [] \/ components' = Split k GoFilepath.Separator).
    { subst components'. destruct (noSep && (length components =? 0)%nat); auto. }
    assert (Hsplit : noSep = true -> components' = Split k GoFilepath.Separator).
    { intros Hn. subst components'. rewrite Hn. cbn [andb].
      destruct Hc as [-> | ->]; [reflexivity|].
      now destruct (length (Split k GoFilepath.Separator) =? 0)%nat. }
    assert (Hthis :
      (noSep && existsb (fun c => String.eqb c h) components' = true <-> componentEq h k)
      /\ (negb noSep && HasPrefix k h && HasPrefix (TrimPrefix k h) "/" = true
          <-> boundedPrefix h k)).
    { unfold componentEq, boundedPrefix. subst noSep. split.
      - destruct (Contains h GoFilepath.Separator) eqn:E; cbn [negb andb] in *.
        + split; [discriminate | intros [? _]; discriminate].
        + rewrite (Hsplit eq_refl), component_test. tauto.
      - rewrite <- andb_assoc, andb_true_iff, boundedPrefix_test.
        destruct (Contains h GoFilepath.Separator); cbn [negb];
          split; intros [? ?]; split; auto; discriminate. }
    destruct Hthis as [Hcomp Hpre].
    destruct (noSep && existsb (fun c => String.eqb c h) components') eqn:E1.
    { split; [intros _ | reflexivity]. exists h. split; [now left|].
      left. now apply Hcomp. }
    destruct (negb noSep && HasPrefix k h && HasPrefix (TrimPrefix k h) "/") eqn:E2.
    { split; [intros _ | reflexivity]. exists h. split; [now left|].
      right; left. now apply Hpre. }
    destruct (GoFilepath.Match h k) eqn:E3.
    { split; [intros _ | reflexivity]. exists h. split; [now left|].
      right; right. exact E3. }
    rewrite (IH components' Hc'). split.
    + intros [h' [Hin Hh]]. exists h'. split; [now right | assumption].
    + intros [h' [[<- | Hin] Hh]].
      * exfalso. destruct Hh as [Hh | [Hh | Hh]].
        -- apply Hcomp in Hh. discriminate.
        -- apply Hpre in Hh. discriminate.
        -- unfold globMatch in Hh. congruence.
      * now exists h'.
Qed.

End FileHidden.

(** C3, as the code has it. A key is hidden exactly when some pattern of
    the hide list matches it by component equality, by separator-bounded
    prefix or as a glob against the whole key; with the patterns
    ["foo.txt"] and ["_*"], [/foo.txt] is hidden and [/foobar] is not, and
    [/_draft] is not hidden either, since the glob is tried on the whole
    key, whose leading separator ["_*"] does not match. *)
Theorem fileHidden_three_rules (k : string) (hide : list string) :
  (fileHidden k hide = true <-> exists h, In h hide /\ hidesKey h k)
  /\ fileHidden "/foo.txt" ["foo.txt"; "_*"]%string = true
  /\ fileHidden "/foobar" ["foo.txt"; "_*"]%string = false
  /\ fileHidden "/_draft" ["foo.txt"; "_*"]%string = false
  /\ fileHidden "_draft" ["foo.txt"; "_*"]%string = true.
Proof.
  split; [|repeat split; reflexivity].
  unfold fileHidden. apply fileHiddenLoop_spec. now left.
Qed.

(** C3 as stated fails on its own example: [/_draft] is not hidden by the
    patterns ["foo.txt"] and ["_*"]. *)
Lemma fileHidden_draft_not_hidden :
  fileHidden "/_draft" ["foo.txt"; "_*"]%string = false
  /\ ~ (exists h, In h ["foo.txt"; "_*"]%string /\ hidesKey h "/_draft").
Proof.
  split; [reflexivity|].
  intros H. apply (fileHiddenLoop_spec "/_draft" _ [] (or_introl eq_refl)) in H.
  discriminate.
Qed.

(** ** The handlers *)

(** Case analysis on the innermost scrutinee of a run [E]. *)
Ltac case_run E :=
  repeat (match type of E with
          | context [match ?x with _ => _ end] =>
            lazymatch x with
            | context [match _ with _ => _ end] => fail
            | _ => destruct x eqn:?
            end
          end; cbn [store trace fst snd] in E).

Section HandlerFacts.
Context {S : Type} {C : ObjectStore S}.
Implicit Types (p : GcsProxy) (r : Request) (w : World S).

Lemma after_nil w : after w [] = w.
Proof. destruct w as [s t]. unfold after. simpl. now rewrite app_nil_r. Qed.

Lemma after_after w evs evs' : after (after w evs) evs' = after w (evs ++ evs').
Proof. unfold after. simpl. now rewrite <- app_assoc. Qed.

Lemma emit_after (e : Event) w : emit e w = (Returns tt, after w [e]).
Proof. reflexivity. Qed.

Lemma writeHeaderIfSet_after statusCode w :
  statusCode <> 0%Z ->
  writeHeaderIfSet statusCode w = (Returns tt, after w [EvWriteHeader statusCode]).
Proof.
  intros Hne. unfold writeHeaderIfSet.
  destruct (Z.eqb_spec statusCode 0); [contradiction | reflexivity].
Qed.

Lemma DeleteHandler_refused p r key w :
  GoStrings.HasSuffix key "/" = true \/ EnableDelete p = false ->
  DeleteHandler p r key w = (Returns (Some notAllowed), w).
Proof.
  intros H. unfold DeleteHandler.
  replace (GoStrings.HasSuffix key "/" || negb (EnableDelete p)) with true;
    [reflexivity|].
  symmetry. apply orb_true_iff. destruct H as [-> | ->]; auto.
Qed.

Lemma dispatch_delete p r key :
  Method r = MethodDelete -> dispatch p r key = DeleteHandler p r key.
Proof. intros E. unfold dispatch. now rewrite E. Qed.

Lemma dispatch_put p r key :
  Method r = MethodPut -> dispatch p r key = PutHandler p r key.
Proof. intros E. unfold dispatch. now rewrite E. Qed.

Lemma dispatch_get p r key :
  Method r = MethodGet -> dispatch p r key = GetHandler p r key.
Proof. intros E. unfold dispatch. now rewrite E. Qed.

(** [ServeHTTP] once the key is resolved and the handler has answered. *)
Lemma ServeHTTP_run p r next w key res w1 :
  joinPath (Replacer r (Root p)) (URLPath r) = Returns key ->
  dispatch p r key w = (Returns res, w1) ->
  ServeHTTP p r next w =
  match res with
  | None => (Returns None, w1)
  | Some e => onError p r next e w1
  end.
Proof.
  intros Hkey Hd. unfold ServeHTTP, bind, liftOutcome. rewrite Hkey, Hd.
  now destruct res.
Qed.

(** Failures of the methods other than GET: the status is written and the
    error returned. *)
Lemma onError_not_get p r next err w :
  Method r <> MethodGet ->
  onError p r next err w =
  (Returns (Some (HandlerError (fst (asHandlerError err)) (snd (asHandlerError err)))),
   if (fst (asHandlerError err) =? 0)%Z then w
   else after w [EvWriteHeader (fst (asHandlerError err))]).
Proof.
  intros Hm. unfold onError. destruct (asHandlerError err) as [statusCode cause].
  cbn [fst snd].
  replace (String.eqb (Method r) MethodGet) with false
    by (symmetry; now apply String.eqb_neq).
  cbn [negb]. unfold bind, writeHeaderIfSet, ret.
  destruct (statusCode =? 0)%Z; reflexivity.
Qed.

(** Failures of GET with a status of the bypass set: the same. *)
Lemma onError_bypass p r next err w :
  Method r = MethodGet ->
  bypassStatus (fst (asHandlerError err)) ->
  onError p r next err w =
  (Returns (Some (HandlerError (fst (asHandlerError err)) (snd (asHandlerError err)))),
   after w [EvWriteHeader (fst (asHandlerError err))]).
Proof.
  intros Hm Hb. unfold onError. destruct (asHandlerError err) as [statusCode cause].
  cbn [fst snd] in *. rewrite Hm. cbn [String.eqb negb].
  change (String.eqb MethodGet MethodGet) with true. cbn [negb].
  replace ((statusCode =? StatusNotModified)%Z
           || (statusCode =? StatusPreconditionFailed)%Z
           || (statusCode =? StatusRequestedRangeNotSatisfiable)%Z) with true.
  - reflexivity.
  - symmetry. destruct Hb as [-> | [-> | ->]]; reflexivity.
Qed.

End HandlerFacts.

(** C8. A DELETE whose resolved key ends in a separator is refused with
    405 whatever [EnableDelete] says, and a DELETE with [EnableDelete]
    off is refused with 405 whatever the key; the handler leaves the world
    as it found it (no call to the store), and [ServeHTTP] only writes
    the status. *)
Theorem delete_refused_without_store_call
  {S : Type} {C : ObjectStore S} (p : GcsProxy) (r : Request)
  (next : M S (option GoError)) (key : string) (w : World S) :
  GoStrings.HasSuffix key "/" = true \/ EnableDelete p = false ->
  DeleteHandler p r key w = (Returns (Some notAllowed), w)
  /\ (Method r = MethodDelete ->
      joinPath (Replacer r (Root p)) (URLPath r) = Returns key ->
      ServeHTTP p r next w =
      (Returns (Some notAllowed), after w [EvWriteHeader StatusMethodNotAllowed])
      /\ storeCalls (trace (snd (ServeHTTP p r next w))) = storeCalls (trace w)).
Proof.
  intros H. pose proof (DeleteHandler_refused p r key w H) as Hd.
  split; [exact Hd|]. intros Hm Hkey.
  assert (E : ServeHTTP p r next w =
              (Returns (Some notAllowed),
               after w [EvWriteHeader StatusMethodNotAllowed])).
  { rewrite (ServeHTTP_run p r next w key (Some notAllowed) w Hkey)
      by (now rewrite dispatch_delete).
    rewrite onError_not_get by (rewrite Hm; discriminate). reflexivity. }
  split; [exact E|]. rewrite E. cbn [snd after trace].
  induction (trace w) as [|e t IH]; [reflexivity|].
  destruct e; simpl; now rewrite ?IH.
Qed.

Lemma delete_refused_without_store_call_witness :
  DeleteHandler defaultProxy (request "DELETE" "/dir/") "/dir/"
                (emptyWorld ∅) = (Returns (Some notAllowed), emptyWorld ∅).
Proof.
  apply (delete_refused_without_store_call
           defaultProxy (request "DELETE" "/dir/") nextOk "/dir/" (emptyWorld ∅)).
  left. reflexivity.
Defined.

(** ** Error pages *)

Section ErrorPages.
Context {S : Type} {C : ObjectStore S}.
Implicit Types (p : GcsProxy) (r : Request) (w : World S).

Lemma determineErrorsAction_spec p statusCode :
  determineErrorsAction p statusCode =
  let key := overrideTarget p statusCode in
  if String.eqb (GoStrings.ToLower key) "pass_through" then (true, false, ""%string)
  else (false, negb (String.eqb key ""), key).
Proof.
  unfold determineErrorsAction, overrideTarget.
  destruct (ErrorPages p !! statusCode); [reflexivity|].
  now destruct (String.eqb (DefaultErrorPage p) "").
Qed.

Lemma convertToCaddyError_status err e :
  convertToCaddyError (Some err) = Some e ->
  fst (asHandlerError e) = StatusNotFound
  \/ fst (asHandlerError e) = StatusInternalServerError.
Proof.
  unfold convertToCaddyError. destruct (isErrObjectNotExist err);
    intros E; injection E as <-; [now left | now right].
Qed.

(** The statuses a failed GET can have. *)
Lemma GetHandler_status p r key w err w1 :
  GetHandler p r key w = (Returns (Some err), w1) ->
  fst (asHandlerError err) = StatusForbidden
  \/ fst (asHandlerError err) = StatusNotFound
  \/ fst (asHandlerError err) = StatusInternalServerError.
Proof.
  intros E.
  unfold GetHandler, BrowseHandler, bind, call, ret, emit, closeReader in E.
  cbn [store trace fst snd] in E.
  case_run E; try discriminate; injection E as E _;
    try (apply convertToCaddyError_status in E; tauto);
    try (injection E as <-; cbn; tauto);
    try (subst err; cbn; tauto);
    match goal with
    | H : option_map Plain ?o = Some _ |- _ =>
      destruct o; [injection H as <-; cbn; tauto | discriminate]
    end.
Qed.

Lemma statusWrites_app (a b : list Event) :
  statusWrites (a ++ b) = statusWrites a ++ statusWrites b.
Proof.
  induction a as [|e a IH]; [reflexivity|].
  destruct e; simpl; now rewrite IH.
Qed.

Lemma keepsStatus_ret {A} (a : A) : keepsStatus (ret (S := S) a).
Proof. intros w. exists a, w, []. now rewrite app_nil_r. Qed.

Lemma keepsStatus_bind {A B} (m : M S A) (k : A -> M S B) :
  keepsStatus m -> (forall a, keepsStatus (k a)) -> keepsStatus (bind m k).
Proof.
  intros Hm Hk w. destruct (Hm w) as [a [w1 [t1 [E1 [T1 N1]]]]].
  destruct (Hk a w1) as [b [w2 [t2 [E2 [T2 N2]]]]].
  exists b, w2, (t1 ++ t2). unfold bind. rewrite E1, E2.
  split; [reflexivity|]. split.
  - now rewrite T2, T1, <- app_assoc.
  - now rewrite statusWrites_app, N1, N2.
Qed.

Lemma keepsStatus_emit (e : Event) :
  statusWrites [e] = [] -> keepsStatus (emit (S := S) e).
Proof. intros He w. now exists tt, (after w [e]), [e]. Qed.

Lemma keepsStatus_call {A} (c : StoreCall) (op : S -> A * S) :
  keepsStatus (call c op).
Proof.
  intros w. unfold call. destruct (op (store w)) as [a s'].
  now eexists a, _, [EvStore c].
Qed.

Lemma keepsStatus_setHeaderIfSet key value :
  keepsStatus (setHeaderIfSet (S := S) key value).
Proof.
  unfold setHeaderIfSet. destruct (String.eqb value "");
    [apply keepsStatus_ret | now apply keepsStatus_emit].
Qed.

Lemma keepsStatus_copyMetadata metadata :
  keepsStatus (copyMetadata (S := S) metadata).
Proof.
  induction metadata as [|[k v] md IH]; [apply keepsStatus_ret|].
  apply keepsStatus_bind; [now apply keepsStatus_emit | intros _; exact IH].
Qed.

Lemma keepsStatus_writeResponse reader attrs :
  keepsStatus (writeResponseFromGetObject (S := S) reader (Some attrs)).
Proof.
  unfold writeResponseFromGetObject.
  repeat (apply keepsStatus_bind;
          [first [ apply keepsStatus_setHeaderIfSet
                 | apply keepsStatus_copyMetadata
                 | now apply keepsStatus_emit
                 | destruct (Updated attrs);
                   [now apply keepsStatus_emit | apply keepsStatus_ret] ]
          | intros _]).
  destruct reader as [rd|]; [|apply keepsStatus_ret].
  apply keepsStatus_bind; [now apply keepsStatus_emit | intros _; apply keepsStatus_ret].
Qed.

(** Serving an error page returns, starts with the fetch of the page and
    writes no status code. *)
Lemma serveErrorPage_keepsStatus p key : keepsStatus (serveErrorPage (S := S) p key).
Proof.
  unfold serveErrorPage.
  apply keepsStatus_bind; [apply keepsStatus_call|].
  intros [reader | err]; [|apply keepsStatus_ret].
  apply keepsStatus_bind.
  - apply keepsStatus_bind; [apply keepsStatus_call|].
    intros [attrs | err]; [apply keepsStatus_writeResponse | apply keepsStatus_ret].
  - intros res. apply keepsStatus_bind; [apply keepsStatus_call|].
    intros _. apply keepsStatus_ret.
Qed.


Lemma keepsStatus_noStatus {A} (m : M S A) : keepsStatus m -> noStatus m.
Proof.
  intros Hm w. destruct (Hm w) as [a [w' [tl [E [T N]]]]].
  exists tl. now rewrite E.
Qed.

Lemma noStatus_bind {A B} (m : M S A) (k : A -> M S B) :
  noStatus m -> (forall a, noStatus (k a)) -> noStatus (bind m k).
Proof.
  intros Hm Hk w. destruct (Hm w) as [t1 [T1 N1]]. unfold bind.
  destruct (m w) as [[a | msg] w1]; cbn [snd] in T1.
  - destruct (Hk a w1) as [t2 [T2 N2]]. exists (t1 ++ t2). split.
    + now rewrite T2, T1, <- app_assoc.
    + now rewrite statusWrites_app, N1, N2.
  - now exists t1.
Qed.

Lemma noStatus_writeResponse reader attrs :
  noStatus (writeResponseFromGetObject (S := S) reader attrs).
Proof.
  destruct attrs as [attrs|].
  - apply keepsStatus_noStatus, keepsStatus_writeResponse.
  - intros w. exists []. now rewrite app_nil_r.
Qed.

Lemma noStatus_warnIndexError indexPath err :
  noStatus (warnIndexError (S := S) indexPath err).
Proof.
  apply keepsStatus_noStatus. unfold warnIndexError.
  destruct (isErrObjectNotExist err);
    [apply keepsStatus_ret | now apply keepsStatus_emit].
Qed.

Lemma noStatus_indexLoop p dir names :
  forall v, noStatus (indexLoop (S := S) p dir names v).
Proof.
  induction names as [|name names IH]; intros v.
  - apply keepsStatus_noStatus, keepsStatus_ret.
  - cbn [indexLoop].
    apply noStatus_bind; [apply keepsStatus_noStatus, keepsStatus_call|].
    intros [reader | err].
    + apply noStatus_bind; [apply keepsStatus_noStatus, keepsStatus_call|].
      intros [attrs | err]; [apply keepsStatus_noStatus, keepsStatus_ret|].
      apply noStatus_bind; [apply keepsStatus_noStatus, keepsStatus_call|].
      intros _. apply noStatus_bind; [apply noStatus_warnIndexError|].
      intros _. apply IH.
    + apply noStatus_bind; [apply noStatus_warnIndexError|].
      intros _. apply IH.
Qed.

(** [GetHandler] writes no status code. *)
Lemma noStatus_GetHandler p r key : noStatus (GetHandler (S := S) p r key).
Proof.
  unfold GetHandler.
  destruct (fileHidden key (Hide p)); [apply keepsStatus_noStatus, keepsStatus_ret|].
  apply noStatus_bind.
  { destruct (GoStrings.HasSuffix key "/" && (0 <? length (IndexNames p))%nat);
      [apply noStatus_indexLoop | apply keepsStatus_noStatus, keepsStatus_ret]. }
  intros v. destruct (v_isDir v).
  - destruct (EnableBrowse p); [|apply keepsStatus_noStatus, keepsStatus_ret].
    unfold BrowseHandler.
    apply noStatus_bind; [apply keepsStatus_noStatus, keepsStatus_call|].
    intros listed. destruct (snd listed); apply keepsStatus_noStatus, keepsStatus_ret.
  - destruct (v_reader v) as [reader|].
    + apply noStatus_bind; [apply noStatus_writeResponse|].
      intros werr. apply keepsStatus_noStatus, keepsStatus_ret.
    + apply noStatus_bind; [apply keepsStatus_noStatus, keepsStatus_call|].
      intros [reader | err].
      * apply noStatus_bind.
        -- apply noStatus_bind; [apply keepsStatus_noStatus, keepsStatus_call|].
           intros [attrs | err]; [|apply keepsStatus_noStatus, keepsStatus_ret].
           apply noStatus_bind; [apply noStatus_writeResponse|].
           intros werr. apply keepsStatus_noStatus, keepsStatus_ret.
        -- intros res.
           apply noStatus_bind; [apply keepsStatus_noStatus, keepsStatus_call|].
           intros _. apply keepsStatus_noStatus, keepsStatus_ret.
      * destruct (isErrObjectNotExist err);
          (apply noStatus_bind;
           [apply keepsStatus_noStatus; now apply keepsStatus_emit
           | intros _; apply keepsStatus_noStatus, keepsStatus_ret]).
Qed.

(** Error processing of a failed GET whose status is outside the bypass
    set. *)
Lemma onError_get p r next err w :
  Method r = MethodGet ->
  ~ bypassStatus (fst (asHandlerError err)) ->
  fst (asHandlerError err) <> 0%Z ->
  let statusCode := fst (asHandlerError err) in
  let caddyErr := HandlerError statusCode (snd (asHandlerError err)) in
  let key := overrideTarget p statusCode in
  let written := after w [EvWriteHeader statusCode] in
  onError p r next err w =
  if String.eqb (GoStrings.ToLower key) "pass_through" then next w
  else if String.eqb key "" then (Returns (Some caddyErr), written)
  else
    (Returns (Some caddyErr),
     match fst (serveErrorPage p key written) with
     | Returns (Some e) =>
       after (snd (serveErrorPage p key written))
             [EvLog "error" "error serving error page" key (Some e)]
     | _ => snd (serveErrorPage p key written)
     end).
Proof.
  intros Hm Hb Hne. cbv zeta. unfold onError.
  destruct (asHandlerError err) as [statusCode cause]. cbn [fst snd] in *.
  rewrite Hm. change (String.eqb MethodGet MethodGet) with true. cbn [negb].
  replace ((statusCode =? StatusNotModified)%Z
           || (statusCode =? StatusPreconditionFailed)%Z
           || (statusCode =? StatusRequestedRangeNotSatisfiable)%Z) with false.
  2:{ symmetry. apply orb_false_iff. split; [apply orb_false_iff; split|];
      apply Z.eqb_neq; intros E; apply Hb; unfold bypassStatus; auto. }
  rewrite determineErrorsAction_spec. cbv zeta.
  destruct (String.eqb (GoStrings.ToLower (overrideTarget p statusCode)) "pass_through");
    [reflexivity|].
  unfold bind at 1. rewrite writeHeaderIfSet_after by assumption.
  destruct (String.eqb (overrideTarget p statusCode) ""); cbn [negb].
  - reflexivity.
  - destruct (serveErrorPage_keepsStatus p (overrideTarget p statusCode)
                (after w [EvWriteHeader statusCode])) as [served [w2 [tl [E _]]]].
    unfold bind. rewrite E. cbn [fst snd]. now destruct served.
Qed.

(** A failed handler reports a status: 403, 404, 405 or 500. *)
Lemma dispatch_status p r key w err w1 :
  dispatch p r key w = (Returns (Some err), w1) ->
  fst (asHandlerError err) <> 0%Z.
Proof.
  unfold dispatch.
  destruct (String.eqb (Method r) MethodGet).
  { intros E. destruct (GetHandler_status p r key w err w1 E) as [H | [H | H]];
      rewrite H; discriminate. }
  destruct (String.eqb (Method r) MethodPut);
    [|destruct (String.eqb (Method r) MethodDelete)]; intros E.
  - unfold PutHandler, bind, call, ret, emit in E. cbn [store trace fst snd] in E.
    case_run E; try discriminate; injection E as E _;
      apply convertToCaddyError_status in E; destruct E as [H | H];
      rewrite H; discriminate.
  - unfold DeleteHandler, bind, call, ret in E. cbn [store trace fst snd] in E.
    case_run E; try discriminate; injection E as E _.
    + subst err. discriminate.
    + apply convertToCaddyError_status in E. destruct E as [H | H];
        rewrite H; discriminate.
  - injection E as <- _. discriminate.
Qed.

End ErrorPages.

(** C6. When a handler has failed, the gateway writes the status and
    returns the error, and does nothing else, in two cases: for every
    method other than GET, and for GET when the status is 304, 412 or
    416. The next handler and the error pages play no part there: they
    apply to GET with a status outside this set only. This holds for an
    arbitrary handler error with a status code, and so for every request
    whose handler has failed, where the status is never 0. *)
Theorem error_override_bypassed
  {S : Type} {C : ObjectStore S} (p : GcsProxy) (r : Request)
  (next : M S (option GoError)) (err : GoError) (w : World S) :
  Method r <> MethodGet
  \/ (Method r = MethodGet /\ bypassStatus (fst (asHandlerError err))) ->
  let statusCode := fst (asHandlerError err) in
  let caddyErr := HandlerError statusCode (snd (asHandlerError err)) in
  (statusCode <> 0%Z ->
   onError p r next err w =
   (Returns (Some caddyErr), after w [EvWriteHeader statusCode]))
  /\ (forall (w0 : World S) (key : string),
        joinPath (Replacer r (Root p)) (URLPath r) = Returns key ->
        dispatch p r key w0 = (Returns (Some err), w) ->
        ServeHTTP p r next w0 =
        (Returns (Some caddyErr), after w [EvWriteHeader statusCode])).
Proof.
  intros Hcase. cbv zeta.
  assert (Hon : fst (asHandlerError err) <> 0%Z ->
                onError p r next err w =
                (Returns (Some (HandlerError (fst (asHandlerError err))
                                             (snd (asHandlerError err)))),
                 after w [EvWriteHeader (fst (asHandlerError err))])).
  { intros Hne. destruct Hcase as [Hm | [Hm Hb]].
    - rewrite onError_not_get by assumption.
      now destruct (Z.eqb_spec (fst (asHandlerError err)) 0).
    - now apply onError_bypass. }
  split; [exact Hon|].
  intros w0 key Hkey Hd.
  rewrite (ServeHTTP_run p r next w0 key (Some err) w Hkey Hd).
  apply Hon. exact (dispatch_status p r key w0 err w Hd).
Qed.

Lemma error_override_bypassed_witness :
  onError defaultProxy (request "GET" "/a") nextOk
          (HandlerError StatusPreconditionFailed None) (emptyWorld ∅) =
  (Returns (Some (HandlerError StatusPreconditionFailed None)),
   after (emptyWorld ∅) [EvWriteHeader StatusPreconditionFailed])
  /\ ServeHTTP defaultProxy (request "PATCH" "/a") nextOk (emptyWorld ∅) =
     (Returns (Some notAllowed),
      after (emptyWorld ∅) [EvWriteHeader StatusMethodNotAllowed]).
Proof.
  split.
  - apply (proj1 (error_override_bypassed defaultProxy (request "GET" "/a") nextOk
             (HandlerError StatusPreconditionFailed None) (emptyWorld ∅)
             (or_intror (conj eq_refl (or_intror (or_introl eq_refl)))))).
    discriminate.
  - refine (proj2 (error_override_bypassed defaultProxy (request "PATCH" "/a") nextOk
                     notAllowed (emptyWorld ∅) _)
                  (emptyWorld ∅) "/a"%string eq_refl eq_refl).
    left. discriminate.
Defined.





(** ** The index candidates of a directory *)

Section IndexCandidates.
Context {S : Type} {C : ObjectStore S}.
Implicit Types (p : GcsProxy) (r : Request) (w : World S) (v : getVars).

Lemma warnIndexError_run indexPath err (s : S) (tr : list Event) :
  warnIndexError indexPath err {| store := s; trace := tr |} =
  (Returns tt, {| store := s; trace := tr ++ warnEvents indexPath err |}).
Proof.
  unfold warnIndexError, warnEvents. destruct (isErrObjectNotExist err).
  - unfold ret. now rewrite app_nil_r.
  - reflexivity.
Qed.

(** A candidate that misses leaves the loop to the next one. *)
Lemma indexLoop_miss p dir name names v w w1 :
  probeMiss (GoPath.Join [dir; name]) w w1 ->
  exists v', indexLoop p dir (name :: names) v w = indexLoop p dir names v' w1
             /\ v_isDir v' = v_isDir v.
Proof.
  intros Hmiss. cbn [indexLoop]. unfold bind at 1. unfold call at 1.
  destruct Hmiss as [err s1 Hr | reader s1 err s2 Hr Ha]; rewrite Hr.
  - unfold bind at 1. rewrite warnIndexError_run.
    eexists. split; [rewrite <- app_assoc; reflexivity | reflexivity].
  - unfold bind at 1. unfold call at 1. cbn [store trace]. rewrite Ha.
    unfold bind at 1. unfold closeReader, call. cbn [store trace].
    unfold bind at 1. rewrite warnIndexError_run.
    eexists. split; [rewrite <- !app_assoc; reflexivity | reflexivity].
Qed.

(** When every candidate misses the loop ends with [isDir] as it was. *)
Lemma indexLoop_allMiss p dir names w w1 :
  allMiss dir names w w1 ->
  forall v, exists v', indexLoop p dir names v w = (Returns v', w1)
                       /\ v_isDir v' = v_isDir v.
Proof.
  induction 1 as [w | name names w w1 w2 Hmiss Hall IH]; intros v.
  - now exists v.
  - destruct (indexLoop_miss p dir name names v w w1 Hmiss) as [v1 [E1 D1]].
    destruct (IH v1) as [v2 [E2 D2]].
    exists v2. split; [now rewrite E1 | congruence].
Qed.

(** The first candidate that is found ends the loop, whatever follows. *)
Lemma indexLoop_hit p dir pre c post w w1 reader attrs w2 :
  allMiss dir pre w w1 ->
  probeHit (GoPath.Join [dir; c]) w1 reader attrs w2 ->
  forall v,
    indexLoop p dir (pre ++ c :: post) v w =
    (Returns {| v_reader := Some reader; v_attrs := Some attrs;
                v_err := None; v_isDir := false |}, w2).
Proof.
  induction 1 as [w | name names w w1 w3 Hmiss Hall IH]; intros Hhit v.
  - destruct Hhit as [reader s1 attrs s2 Hr Ha].
    cbn [app indexLoop]. unfold bind at 1. unfold call at 1. rewrite Hr.
    unfold bind at 1. unfold call at 1. cbn [store trace]. rewrite Ha.
    unfold ret. rewrite <- app_assoc. reflexivity.
  - destruct (indexLoop_miss p dir name (names ++ c :: post) v w w1 Hmiss)
      as [v1 [E1 _]].
    change ((name :: names) ++ c :: post) with (name :: (names ++ c :: post)).
    rewrite E1. now apply IH.
Qed.

End IndexCandidates.

(** C7. For a GET of a directory key (not hidden), the index names are
    probed in their configured order. When the candidates before [c] all
    miss and [c] is found, the object of [c] is served from the world the
    probe of [c] leaves, whatever names follow: they are not tried. A
    candidate that does not exist leaves no log entry, any other failure
    leaves a warning, and both go on with the next name ([probeMiss]).
    When every candidate misses, the request is a listing if browsing is
    enabled and 403 Forbidden otherwise. With the names [index.html] and
    [index.txt] and a directory that holds [index.txt] only, [index.txt]
    is served. *)
Theorem index_candidates_in_order
  {S : Type} {C : ObjectStore S} (p : GcsProxy) (r : Request)
  (fullPath : string) (w : World S) :
  fileHidden fullPath (Hide p) = false ->
  GoStrings.HasSuffix fullPath "/" = true ->
  (forall pre c post w1 reader attrs w2,
      IndexNames p = pre ++ c :: post ->
      allMiss fullPath pre w w1 ->
      probeHit (GoPath.Join [fullPath; c]) w1 reader attrs w2 ->
      GetHandler p r fullPath w = serveObject reader attrs w2)
  /\ (forall w1,
        allMiss fullPath (IndexNames p) w w1 ->
        GetHandler p r fullPath w =
        if EnableBrowse p then BrowseHandler p r fullPath w1
        else (Returns (Some (HandlerError StatusForbidden
                                          (Some (ErrOther "cannot view a directory")))),
              w1))
  /\ GetHandler defaultProxy (request "GET" "/dir/") "/dir/" (emptyWorld siteBucket) =
     (Returns None,
      after (emptyWorld siteBucket)
            [EvStore (CallNewReader "/dir/index.html" None);
             EvStore (CallNewReader "/dir/index.txt" None);
             EvStore (CallAttrs "/dir/index.txt");
             EvSetHeader "Content-Type" "text/plain";
             EvSetHeader "ETag" (quotedDecimal 7);
             EvWrite (list_ascii_of_string "index")]).
Proof.
  intros Hhide Hdir. split; [|split; [|reflexivity]].
  - intros pre c post w1 reader attrs w2 Hnames Hmiss Hhit.
    unfold GetHandler. rewrite Hhide, Hdir, Hnames.
    replace (0 <? length (pre ++ c :: post))%nat with true
      by (symmetry; apply Nat.ltb_lt; rewrite length_app; simpl; lia).
    cbn [andb]. unfold bind at 1.
    rewrite (indexLoop_hit p fullPath pre c post w w1 reader attrs w2 Hmiss Hhit).
    reflexivity.
  - intros w1 Hmiss. unfold GetHandler. rewrite Hhide, Hdir. cbn [andb].
    destruct (0 <? length (IndexNames p))%nat eqn:Hlen.
    + unfold bind at 1.
      destruct (indexLoop_allMiss p fullPath _ w w1 Hmiss
                  {| v_reader := None; v_attrs := None; v_err := None;
                     v_isDir := true |}) as [v' [E D]].
      rewrite E. cbn [v_isDir] in D. rewrite D.
      now destruct (EnableBrowse p).
    + destruct (IndexNames p) as [|n ns]; [|discriminate].
      inversion Hmiss; subst. unfold bind, ret. cbn [v_isDir].
      now destruct (EnableBrowse p).
Qed.

Lemma index_candidates_in_order_witness :
  GetHandler defaultProxy (request "GET" "/dir/") "/dir/" (emptyWorld siteBucket) =
  serveObject {| readerBody := list_ascii_of_string "index"; readerErr := None |}
              (plainAttrs "text/plain" 7)
              (after (emptyWorld siteBucket)
                     [EvStore (CallNewReader "/dir/index.html" None);
                      EvStore (CallNewReader "/dir/index.txt" None);
                      EvStore (CallAttrs "/dir/index.txt")]).
Proof.
  exact (proj1 (index_candidates_in_order defaultProxy (request "GET" "/dir/")
                  "/dir/" (emptyWorld siteBucket) eq_refl eq_refl)
               ["index.html"%string] "index.txt"%string []
               (after (emptyWorld siteBucket)
                      [EvStore (CallNewReader "/dir/index.html" None)])
               {| readerBody := list_ascii_of_string "index"; readerErr := None |}
               (plainAttrs "text/plain" 7)
               (after (emptyWorld siteBucket)
                      [EvStore (CallNewReader "/dir/index.html" None);
                       EvStore (CallNewReader "/dir/index.txt" None);
                       EvStore (CallAttrs "/dir/index.txt")])
               eq_refl
               (allMiss_cons "/dir/" "index.html" [] _ _ _
                  (miss_reader "/dir/index.html" (emptyWorld siteBucket)
                               ErrObjectNotExist siteBucket eq_refl)
                  (allMiss_nil "/dir/" _))
               (hit_candidate "/dir/index.txt"
                  (after (emptyWorld siteBucket)
                         [EvStore (CallNewReader "/dir/index.html" None)])
                  {| readerBody := list_ascii_of_string "index"; readerErr := None |}
                  siteBucket (plainAttrs "text/plain" 7) siteBucket
                  eq_refl eq_refl)).
Defined.

(** ** PUT and hidden keys *)

Section WritesAndVisibility.
Context {S : Type} {C : ObjectStore S}.
Implicit Types (p : GcsProxy) (r : Request) (w : World S).

(** [PutHandler] starts by opening a writer and copying the body to it,
    whatever the configuration says. *)
Lemma PutHandler_writes p r key w :
  exists tl,
    trace (snd (PutHandler p r key w)) =
    trace w ++ EvStore (CallNewWriter key)
            :: EvStore (CallWriterCopy key (headerGet (Header r) "Content-Type")
                                       (Body r))
            :: tl.
Proof.
  unfold PutHandler, bind, call, ret, emit. cbn [store trace].
  destruct (storeWriterCopy _ _ _ _) as [[e|] s1]; cbn [snd trace].
  - exists []. now rewrite <- app_assoc.
  - destruct (storeWriterClose _ _) as [[e|] s2]; cbn [snd trace store].
    + eexists. rewrite <- !app_assoc. reflexivity.
    + destruct (storeAttrs _ _) as [[a|e] s3]; cbn [snd trace store];
        eexists; rewrite <- !app_assoc; reflexivity.
Qed.

(** The world error processing leaves does not depend on the cause that
    the handler error wraps. *)
Lemma onError_cause p r next statusCode cause cause' w :
  snd (onError p r next (HandlerError statusCode cause) w) =
  snd (onError p r next (HandlerError statusCode cause') w).
Proof.
  unfold onError, asHandlerError, bind, ret.
  repeat match goal with
         | |- context [match ?x with _ => _ end] =>
           lazymatch x with
           | context [match _ with _ => _ end] => fail
           | _ => destruct x
           end
         end; reflexivity.
Qed.

Lemma GetHandler_hidden p r fullPath w :
  fileHidden fullPath (Hide p) = true ->
  GetHandler p r fullPath w = (Returns (Some (HandlerError StatusNotFound None)), w).
Proof. intros Hh. unfold GetHandler. now rewrite Hh. Qed.

End WritesAndVisibility.

(** C1, on the code. [PutHandler] never reads [EnablePut]: every PUT opens
    a writer and copies the request body to the store. With [EnablePut]
    off, a PUT of [/a.txt] is answered without an error and the object is
    in the bucket afterwards. *)
Theorem put_disabled_reaches_store :
  (forall (S : Type) (C : ObjectStore S) (p : GcsProxy) (r : Request)
          (key : string) (w : World S),
      exists tl,
        trace (snd (PutHandler p r key w)) =
        trace w ++ EvStore (CallNewWriter key)
                :: EvStore (CallWriterCopy key (headerGet (Header r) "Content-Type")
                                           (Body r))
                :: tl)
  /\ EnablePut defaultProxy = false
  /\ ServeHTTP defaultProxy
       {| Method := "PUT"; URLPath := "/a.txt"; Header := ∅;
          Body := list_ascii_of_string "new"; Replacer := fun s => s |}
       nextOk (emptyWorld ∅) =
     (Returns None,
      {| store := <["/a.txt"%string := {| objectBody := list_ascii_of_string "new";
                                          objectAttrs := plainAttrs "" 1 |}]> ∅;
         trace := [EvStore (CallNewWriter "/a.txt");
                   EvStore (CallWriterCopy "/a.txt" "" (list_ascii_of_string "new"));
                   EvStore (CallWriterClose "/a.txt");
                   EvStore (CallAttrs "/a.txt");
                   EvSetHeader "ETag" (quotedDecimal 1)] |}).
Proof.
  split; [intros; apply PutHandler_writes|]. split; reflexivity.
Qed.

(** C2 as stated fails. The key [/secret] is hidden by the pattern
    [secret]; yet a DELETE of it is answered without an error and the
    store's delete is called, and a GET of it, when the override of 404 is
    pass-through, is answered by the next handler and no 404 is written. *)
Lemma hidden_key_deleted :
  fileHidden "/secret" (Hide pagesProxy) = true
  /\ joinPath (Root pagesProxy) "/secret" = Returns "/secret"%string
  /\ fst (ServeHTTP pagesProxy (request "DELETE" "/secret") nextOk
                    (emptyWorld siteBucket)) = Returns None
  /\ trace (snd (ServeHTTP pagesProxy (request "DELETE" "/secret") nextOk
                           (emptyWorld siteBucket))) =
     [EvStore (CallDelete "/secret")]
  /\ store (snd (ServeHTTP pagesProxy (request "DELETE" "/secret") nextOk
                           (emptyWorld siteBucket))) !! "/secret"%string = None
  /\ fileHidden "/secret" (Hide passProxy) = true
  /\ ServeHTTP passProxy (request "GET" "/secret") nextServes
               (emptyWorld siteBucket) =
     (Returns None, after (emptyWorld siteBucket) [EvWriteHeader 200]).
Proof. repeat split; reflexivity. Qed.

(** C2, for GET. When the resolved key is hidden, [GetHandler] returns a
    404 error straight away and leaves the world as it is: no call to the
    store. [ServeHTTP] then processes this error as any 404: the world it
    leaves is the one a 404 with any cause leaves; when the override of
    404 is [pass_through] the request is the next handler's, and else the
    status 404 is written, is the only status written, and the 404 error
    is returned. *)
Theorem hidden_get_is_not_found
  {S : Type} {C : ObjectStore S} (p : GcsProxy) (r : Request)
  (next : M S (option GoError)) (fullPath : string) (w : World S) :
  fileHidden fullPath (Hide p) = true ->
  Method r = MethodGet ->
  joinPath (Replacer r (Root p)) (URLPath r) = Returns fullPath ->
  GetHandler p r fullPath w = (Returns (Some (HandlerError StatusNotFound None)), w)
  /\ (forall cause,
        snd (ServeHTTP p r next w) =
        snd (onError p r next (HandlerError StatusNotFound cause) w))
  /\ if String.eqb (GoStrings.ToLower (overrideTarget p StatusNotFound)) "pass_through"
     then ServeHTTP p r next w = next w
     else exists tl,
         fst (ServeHTTP p r next w) = Returns (Some (HandlerError StatusNotFound None))
         /\ trace (snd (ServeHTTP p r next w)) =
            trace w ++ EvWriteHeader StatusNotFound :: tl
         /\ statusWrites tl = [].
Proof.
  intros Hh Hm Hkey.
  pose proof (GetHandler_hidden p r fullPath w Hh) as Hget.
  split; [exact Hget|].
  assert (Hrun : ServeHTTP p r next w =
                 onError p r next (HandlerError StatusNotFound None) w).
  { now rewrite (ServeHTTP_run p r next w fullPath
                                (Some (HandlerError StatusNotFound None)) w Hkey)
      by (rewrite dispatch_get by assumption; exact Hget). }
  split; [intros cause; rewrite Hrun; apply onError_cause|].
  rewrite Hrun.
  assert (Hb : ~ bypassStatus StatusNotFound)
    by (intros [H | [H | H]]; discriminate H).
  rewrite (onError_get p r next (HandlerError StatusNotFound None) w Hm Hb)
    by discriminate.
  cbv zeta. cbn [asHandlerError fst snd].
  destruct (String.eqb (GoStrings.ToLower (overrideTarget p StatusNotFound))
                       "pass_through"); [reflexivity|].
  destruct (String.eqb (overrideTarget p StatusNotFound) "").
  - exists []. repeat split; reflexivity.
  - destruct (serveErrorPage_keepsStatus p (overrideTarget p StatusNotFound)
                (after w [EvWriteHeader StatusNotFound]))
      as [served [w2 [tl [E [T N]]]]].
    rewrite E. cbn [fst snd].
    destruct served as [e|].
    + exists (tl ++ [EvLog "error" "error serving error page"
                           (overrideTarget p StatusNotFound) (Some e)]).
      split; [reflexivity|]. split.
      * cbn [after trace]. rewrite T. cbn [after trace].
        rewrite <- !app_assoc. reflexivity.
      * rewrite statusWrites_app, N. reflexivity.
    + exists tl. split; [reflexivity|]. split; [|exact N].
      rewrite T. cbn [after trace]. rewrite <- app_assoc. reflexivity.
Qed.

Lemma hidden_get_is_not_found_witness :
  GetHandler pagesProxy (request "GET" "/secret") "/secret" (emptyWorld siteBucket) =
  (Returns (Some (HandlerError StatusNotFound None)), emptyWorld siteBucket).
Proof.
  exact (proj1 (hidden_get_is_not_found pagesProxy (request "GET" "/secret") nextOk
                  "/secret" (emptyWorld siteBucket) eq_refl eq_refl eq_refl)).
Defined.

(** * Further properties of the gateway *)

(** ** Methods, statuses and the store calls of each handler *)

Section HandlerOutcomes.
Context {S : Type} {C : ObjectStore S}.
Implicit Types (p : GcsProxy) (r : Request) (w : World S).

Lemma convertToCaddyError_some e :
  convertToCaddyError (Some e) = Some (HandlerError (convertedStatus e) (Some e)).
Proof.
  unfold convertToCaddyError, convertedStatus.
  now destruct (isErrObjectNotExist e).
Qed.

Lemma convertedStatus_nonzero e : convertedStatus e <> 0%Z.
Proof. unfold convertedStatus. now destruct (isErrObjectNotExist e). Qed.

Lemma keepsStatus_PutHandler p r key : keepsStatus (PutHandler (S := S) p r key).
Proof.
  unfold PutHandler.
  apply keepsStatus_bind; [apply keepsStatus_call | intros _].
  apply keepsStatus_bind; [apply keepsStatus_call | intros [e|]];
    [apply keepsStatus_ret|].
  apply keepsStatus_bind; [apply keepsStatus_call | intros [e|]];
    [apply keepsStatus_ret|].
  apply keepsStatus_bind; [apply keepsStatus_call | intros a].
  apply keepsStatus_bind; [|intros _; apply keepsStatus_ret].
  destruct a; [now apply keepsStatus_emit | apply keepsStatus_ret].
Qed.

Lemma keepsStatus_DeleteHandler p r key :
  keepsStatus (DeleteHandler (S := S) p r key).
Proof.
  unfold DeleteHandler.
  destruct (GoStrings.HasSuffix key "/" || negb (EnableDelete p));
    [apply keepsStatus_ret|].
  apply keepsStatus_bind; [apply keepsStatus_call | intros [e|]];
    apply keepsStatus_ret.
Qed.

Lemma noStatus_dispatch p r key : noStatus (dispatch (S := S) p r key).
Proof.
  unfold dispatch.
  destruct (String.eqb (Method r) MethodGet); [apply noStatus_GetHandler|].
  destruct (String.eqb (Method r) MethodPut);
    [apply keepsStatus_noStatus, keepsStatus_PutHandler|].
  destruct (String.eqb (Method r) MethodDelete);
    [apply keepsStatus_noStatus, keepsStatus_DeleteHandler|].
  apply keepsStatus_noStatus, keepsStatus_ret.
Qed.

(** Error processing hands over to the next handler or writes at most one
    status, and then it returns an error. *)
Lemma onError_one_status p r next err w :
  onError p r next err w = next w
  \/ exists l,
      (length l <= 1)%nat
      /\ statusWrites (trace (snd (onError p r next err w))) =
         statusWrites (trace w) ++ l
      /\ fst (onError p r next err w) <> Returns None.
Proof.
  unfold onError. destruct (asHandlerError err) as [statusCode cause].
  assert (Hw : forall w0, exists l,
               (length l <= 1)%nat
               /\ fst (writeHeaderIfSet statusCode w0) = Returns tt
               /\ statusWrites (trace (snd (writeHeaderIfSet statusCode w0))) =
                  statusWrites (trace w0) ++ l
               /\ store (snd (writeHeaderIfSet statusCode w0)) = store w0).
  { intros w0. unfold writeHeaderIfSet. destruct (statusCode =? 0)%Z; cbn.
    - exists []. rewrite app_nil_r. auto.
    - exists [statusCode]. rewrite statusWrites_app. auto. }
  destruct (negb (String.eqb (Method r) MethodGet)).
  { right. destruct (Hw w) as [l [Hl [E1 [E2 _]]]]. exists l. unfold bind.
    destruct (writeHeaderIfSet statusCode w) as [[[]|msg] w1];
      cbn [fst snd] in *; [|discriminate]. repeat split; auto; discriminate. }
  destruct ((statusCode =? StatusNotModified)%Z
            || (statusCode =? StatusPreconditionFailed)%Z
            || (statusCode =? StatusRequestedRangeNotSatisfiable)%Z).
  { right. exists [statusCode]. unfold bind, emit, ret. cbn.
    rewrite statusWrites_app. repeat split; auto; discriminate. }
  destruct (determineErrorsAction p statusCode) as [[doPass doPage] key].
  destruct doPass; [now left|]. right.
  destruct (Hw w) as [l [Hl [E1 [E2 _]]]]. exists l. unfold bind.
  destruct (writeHeaderIfSet statusCode w) as [[[]|msg] w1];
    cbn [fst snd] in *; [|discriminate].
  destruct doPage.
  - destruct (serveErrorPage_keepsStatus p key w1) as [served [w2 [tl [E [T N]]]]].
    rewrite E. unfold emit, ret.
    destruct served as [e|]; cbn [fst snd trace store];
      (split; [exact Hl|]); (split; [|discriminate]);
      rewrite ?T, ?statusWrites_app, ?N, ?E2; cbn; now rewrite ?app_nil_r.
  - unfold ret. cbn. repeat split; auto; discriminate.
Qed.

End HandlerOutcomes.

(** X1. A request whose method is none of GET, PUT and DELETE (the
    comparison is exact, so [get] is such a method) is refused with 405:
    the status is written, the error returned, and nothing else happens,
    in particular no call to the store. *)
Theorem other_methods_not_allowed
  {S : Type} {C : ObjectStore S} (p : GcsProxy) (r : Request)
  (next : M S (option GoError)) (key : string) (w : World S) :
  Method r <> MethodGet -> Method r <> MethodPut -> Method r <> MethodDelete ->
  joinPath (Replacer r (Root p)) (URLPath r) = Returns key ->
  ServeHTTP p r next w =
  (Returns (Some notAllowed), after w [EvWriteHeader StatusMethodNotAllowed]).
Proof.
  intros Hg Hp Hd Hkey.
  assert (E : dispatch p r key w = (Returns (Some notAllowed), w)).
  { unfold dispatch.
    apply String.eqb_neq in Hg, Hp, Hd. now rewrite Hg, Hp, Hd. }
  rewrite (ServeHTTP_run p r next w key _ w Hkey E).
  rewrite onError_not_get by assumption. reflexivity.
Qed.

Lemma other_methods_not_allowed_witness :
  ServeHTTP pagesProxy (request "get" "/a.txt") nextServes (emptyWorld siteBucket) =
  (Returns (Some notAllowed),
   after (emptyWorld siteBucket) [EvWriteHeader StatusMethodNotAllowed]).
Proof.
  apply (other_methods_not_allowed pagesProxy (request "get" "/a.txt") nextServes
           "/a.txt" (emptyWorld siteBucket)); try discriminate. reflexivity.
Defined.

(** X2. The gateway writes at most one status code per request, and none
    when the request succeeds: either [ServeHTTP] ends by handing the
    request to the next handler, having written no status itself, or the
    statuses in the trace grow by at most one, and by none when [nil] is
    returned. *)
Theorem one_status_per_request
  {S : Type} {C : ObjectStore S} (p : GcsProxy) (r : Request)
  (next : M S (option GoError)) (w : World S) :
  exists w1,
    statusWrites (trace w1) = statusWrites (trace w)
    /\ (ServeHTTP p r next w = next w1
        \/ exists l,
            (length l <= 1)%nat
            /\ statusWrites (trace (snd (ServeHTTP p r next w))) =
               statusWrites (trace w) ++ l
            /\ (fst (ServeHTTP p r next w) = Returns None -> l = [])).
Proof.
  unfold ServeHTTP, bind, liftOutcome.
  destruct (joinPath (Replacer r (Root p)) (URLPath r)) as [key | msg].
  2:{ exists w. split; [reflexivity|]. right. exists [].
      cbn. rewrite app_nil_r. auto. }
  destruct (noStatus_dispatch p r key w) as [tl [T N]].
  destruct (dispatch p r key w) as [[[e|] | msg] w1]; cbn [snd] in T.
  - exists w1.
    assert (E1 : statusWrites (trace w1) = statusWrites (trace w))
      by now rewrite T, statusWrites_app, N, app_nil_r.
    split; [exact E1|].
    destruct (onError_one_status p r next e w1) as [E | [l [Hl [E Hn]]]];
      [now left|].
    right. exists l. split; [exact Hl|]. split; [now rewrite E, E1|].
    intros H. contradiction.
  - exists w. split; [reflexivity|]. right. exists []. unfold ret. cbn [fst snd].
    rewrite T, statusWrites_app, N. auto.
  - exists w. split; [reflexivity|]. right. exists []. cbn [fst snd].
    rewrite T, statusWrites_app, N. auto.
Qed.

(** X3. A DELETE of an object key with [EnableDelete] on makes exactly one
    call to the store, the delete of the resolved key. When the store
    deletes, [nil] is returned and nothing is written; when it fails, the
    status is written at once, 404 for an object that does not exist and
    500 for any other error, and neither the error pages nor the next
    handler are used. *)
Theorem delete_enabled_outcomes
  {S : Type} {C : ObjectStore S} (p : GcsProxy) (r : Request)
  (next : M S (option GoError)) (key : string) (w : World S) :
  Method r = MethodDelete ->
  joinPath (Replacer r (Root p)) (URLPath r) = Returns key ->
  EnableDelete p = true ->
  GoStrings.HasSuffix key "/" = false ->
  let w1 := {| store := snd (storeDelete key (store w));
               trace := trace w ++ [EvStore (CallDelete key)] |} in
  ServeHTTP p r next w =
  match fst (storeDelete key (store w)) with
  | None => (Returns None, w1)
  | Some e =>
    (Returns (Some (HandlerError (convertedStatus e) (Some e))),
     after w1 [EvWriteHeader (convertedStatus e)])
  end.
Proof.
  intros Hm Hkey He Hd. cbv zeta.
  assert (E : dispatch p r key w =
              (Returns (convertToCaddyError (fst (storeDelete key (store w)))),
               {| store := snd (storeDelete key (store w));
                  trace := trace w ++ [EvStore (CallDelete key)] |})).
  { rewrite dispatch_delete by assumption. unfold DeleteHandler.
    rewrite Hd, He. cbn [negb orb]. unfold bind, call, ret.
    destruct (storeDelete key (store w)) as [[e|] s1]; reflexivity. }
  rewrite (ServeHTTP_run p r next w key _ _ Hkey E).
  destruct (fst (storeDelete key (store w))) as [e|]; [|reflexivity].
  rewrite convertToCaddyError_some.
  rewrite onError_not_get by (rewrite Hm; discriminate).
  cbn [asHandlerError fst snd].
  now destruct (Z.eqb_spec (convertedStatus e) 0) as [H | _];
    [apply convertedStatus_nonzero in H|].
Qed.

Lemma delete_enabled_outcomes_witness :
  ServeHTTP pagesProxy (request "DELETE" "/gone.txt") nextServes
            (emptyWorld siteBucket) =
  (Returns (Some (HandlerError StatusNotFound (Some ErrObjectNotExist))),
   after (emptyWorld siteBucket)
         [EvStore (CallDelete "/gone.txt"); EvWriteHeader StatusNotFound]).
Proof.
  exact (delete_enabled_outcomes pagesProxy (request "DELETE" "/gone.txt")
           nextServes "/gone.txt" (emptyWorld siteBucket)
           eq_refl eq_refl eq_refl eq_refl).
Defined.

(** ** What the handlers write and what they ask of the store *)

Section ResponseEvents.
Context {S : Type} {C : ObjectStore S}.
Implicit Types (p : GcsProxy) (r : Request) (w : World S).

Lemma setHeaderIfSet_run key value w :
  setHeaderIfSet key value w = (Returns tt, after w (optHeader key value)).
Proof.
  unfold setHeaderIfSet, optHeader. destruct (String.eqb value "").
  - unfold ret. now rewrite after_nil.
  - reflexivity.
Qed.

Lemma copyMetadata_run metadata : forall w,
  copyMetadata metadata w = (Returns tt, after w (metadataHeaders metadata)).
Proof.
  induction metadata as [|[k v] md IH]; intros w.
  - unfold copyMetadata, ret. now rewrite after_nil.
  - cbn [copyMetadata]. unfold bind. rewrite emit_after, IH, after_after.
    reflexivity.
Qed.

(** The response of an object as a list of events. *)
Lemma writeResponse_run reader attrs w :
  writeResponseFromGetObject reader (Some attrs) w =
  (Returns match reader with Some rd => readerErr rd | None => None end,
   after w (standardHeaders attrs ++ metadataHeaders (Metadata attrs)
            ++ bodyEvents reader)).
Proof.
  unfold writeResponseFromGetObject, standardHeaders, bind.
  rewrite !setHeaderIfSet_run, emit_after, !after_after.
  assert (E : forall w0,
             match Updated attrs with
             | Some t => emit (EvSetHeader "Last-Modified" t)
             | None => ret tt
             end w0 =
             (Returns tt, after w0 match Updated attrs with
                                   | Some t => [EvSetHeader "Last-Modified" t]
                                   | None => []
                                   end)).
  { intros w0. destruct (Updated attrs); [reflexivity|].
    unfold ret. now rewrite after_nil. }
  rewrite E, after_after, copyMetadata_run, after_after.
  destruct reader as [rd|]; cbn [bodyEvents].
  - rewrite emit_after, after_after. unfold ret.
    rewrite <- !app_assoc. reflexivity.
  - unfold ret. rewrite app_nil_r, <- !app_assoc. reflexivity.
Qed.

Lemma storeCalls_app (a b : list Event) :
  storeCalls (a ++ b) = storeCalls a ++ storeCalls b.
Proof.
  induction a as [|e a IH]; [reflexivity|].
  destruct e; simpl; now rewrite IH.
Qed.

Lemma storeCalls_optHeader key value : storeCalls (optHeader key value) = [].
Proof. unfold optHeader. now destruct (String.eqb value ""). Qed.

Lemma storeCalls_metadataHeaders metadata :
  storeCalls (metadataHeaders metadata) = [].
Proof. induction metadata as [|kv md IH]; [reflexivity | exact IH]. Qed.

Lemma storeCalls_response reader attrs :
  storeCalls (standardHeaders attrs ++ metadataHeaders (Metadata attrs)
              ++ bodyEvents reader) = [].
Proof.
  unfold standardHeaders.
  rewrite !storeCalls_app, !storeCalls_optHeader, storeCalls_metadataHeaders.
  destruct (Updated attrs); destruct reader; reflexivity.
Qed.

Lemma Forall_isSetHeader_optHeader key value :
  Forall isSetHeader (optHeader key value).
Proof.
  unfold optHeader. destruct (String.eqb value ""); repeat constructor.
  now exists key, value.
Qed.

End ResponseEvents.

(** X4. [writeResponseFromGetObject] sets all headers before it writes the
    body and writes no status. The [ETag] header is always among them, the
    generation of the object in decimal between quotes; the headers of the
    metadata come after the standard ones, so that a metadata entry named
    like a standard header is the one set last. The body is written once,
    when there is a reader, and the error of the copy is the error
    returned. *)
Theorem response_headers_then_body
  {S : Type} {C : ObjectStore S} (reader : option Reader) (attrs : ObjectAttrs)
  (w : World S) :
  exists std,
    writeResponseFromGetObject reader (Some attrs) w =
    (Returns match reader with Some rd => readerErr rd | None => None end,
     after w (std ++ metadataHeaders (Metadata attrs) ++ bodyEvents reader))
    /\ Forall isSetHeader (std ++ metadataHeaders (Metadata attrs))
    /\ In (EvSetHeader "ETag" (quotedDecimal (Generation attrs))) std
    /\ statusWrites (std ++ metadataHeaders (Metadata attrs) ++ bodyEvents reader) = [].
Proof.
  exists (standardHeaders attrs). split; [apply writeResponse_run|].
  assert (Hstd : Forall isSetHeader (standardHeaders attrs)).
  { unfold standardHeaders.
    repeat (apply Forall_app; split; [apply Forall_isSetHeader_optHeader|]).
    apply Forall_app; split; [repeat constructor; now eexists _, _|].
    destruct (Updated attrs); repeat constructor. now eexists _, _. }
  assert (Hmd : Forall isSetHeader (metadataHeaders (Metadata attrs))).
  { induction (Metadata attrs) as [|[k v] md IH]; constructor;
      [now exists k, v | exact IH]. }
  split; [apply Forall_app; now split|]. split.
  - unfold standardHeaders. rewrite !in_app_iff. do 5 right. left. now left.
  - assert (Hs : forall l, Forall isSetHeader l -> statusWrites l = []).
    { induction 1 as [|e l [k [v ->]] _ IH]; [reflexivity | exact IH]. }
    rewrite !statusWrites_app, (Hs _ Hstd), (Hs _ Hmd).
    now destruct reader.
Qed.

(** ** The outcomes of PUT and of GET *)

Section FetchOutcomes.
Context {S : Type} {C : ObjectStore S}.
Implicit Types (p : GcsProxy) (r : Request) (w : World S).

Lemma call_run {A} (c : StoreCall) (op : S -> A * S) w :
  call c op w =
  (Returns (fst (op (store w))),
   {| store := snd (op (store w)); trace := trace w ++ [EvStore c] |}).
Proof. unfold call. now destruct (op (store w)). Qed.

Lemma responseEvents_app (a b : list Event) :
  responseEvents (a ++ b) = responseEvents a ++ responseEvents b.
Proof.
  induction a as [|e a IH]; [reflexivity|].
  destruct e; simpl; now rewrite IH.
Qed.

Lemma responseEvents_warn indexPath err :
  responseEvents (warnEvents indexPath err) = [].
Proof. unfold warnEvents. now destruct (isErrObjectNotExist err). Qed.

(** Probes that miss send nothing to the client. *)
Lemma allMiss_trace dir names w w1 :
  allMiss dir names w w1 ->
  exists tl, trace w1 = trace w ++ tl /\ responseEvents tl = [].
Proof.
  induction 1 as [w | name names w w1 w2 Hp _ [tl [T N]]].
  - exists []. now rewrite app_nil_r.
  - destruct Hp as [err s1 _ | reader s1 err s2 _ _]; cbn [trace] in T;
      eexists; (split; [rewrite T, <- app_assoc; reflexivity|]);
      rewrite responseEvents_app; cbn [responseEvents app];
      rewrite responseEvents_warn, N; reflexivity.
Qed.

(** The index loop returns, and it leaves either a directory or a reader
    with its attributes. *)
Lemma indexLoop_returns p dir names : forall v w,
  v_isDir v = true ->
  exists v' w',
    indexLoop p dir names v w = (Returns v', w')
    /\ (v_isDir v' = true
        \/ exists reader attrs, v_reader v' = Some reader /\ v_attrs v' = Some attrs).
Proof.
  induction names as [|name names IH]; intros v w Hv.
  - exists v, w. split; [reflexivity | now left].
  - cbn [indexLoop]. unfold bind at 1. rewrite call_run.
    destruct (fst (storeNewReader _ None (store w))) as [reader | err].
    + unfold bind at 1. rewrite call_run. cbn [store trace].
      destruct (fst (storeAttrs _ _)) as [attrs | err].
      * eexists _, _. split; [reflexivity|]. right. now eexists _, _.
      * unfold bind at 1, closeReader. rewrite call_run. cbn [fst snd store trace].
        unfold bind at 1.
        match goal with
        | |- context [warnIndexError ?k ?e ?w0] =>
          destruct w0 as [s0 t0]; rewrite (warnIndexError_run k e s0 t0)
        end.
        apply IH. exact Hv.
    + unfold bind at 1.
      match goal with
      | |- context [warnIndexError ?k ?e ?w0] =>
        destruct w0 as [s0 t0] eqn:Ew0; rewrite (warnIndexError_run k e s0 t0)
      end.
      apply IH. exact Hv.
Qed.

Lemma returns_GetHandler p r key : returns (GetHandler (S := S) p r key).
Proof.
  intros w. unfold GetHandler.
  destruct (fileHidden key (Hide p)); [now eexists _, _|].
  assert (Hdirect : forall w0,
    exists a w',
      (rd <- call (CallNewReader key None) (storeNewReader key None) ;;
       match rd with
       | inr err =>
         if isErrObjectNotExist err then
           emit (EvLog "debug" "not found" key None) ;;;
           ret (Some (caddyhttpError StatusNotFound (Some err)))
         else
           emit (EvLog "error" "failed to get object" key (Some err)) ;;;
           ret (convertToCaddyError (Some err))
       | inl reader =>
         res <- (a <- call (CallAttrs key) (storeAttrs key) ;;
                 match a with
                 | inr err => ret (convertToCaddyError (Some err))
                 | inl attrs =>
                   werr <- writeResponseFromGetObject (Some reader) (Some attrs) ;;
                   ret (option_map Plain werr)
                 end) ;;
         closeReader key ;;;
         ret res
       end) w0 = (Returns a, w')).
  { intros w0. unfold bind at 1. rewrite call_run.
    destruct (fst (storeNewReader key None (store w0))) as [reader | err].
    - unfold bind, closeReader. rewrite !call_run. cbn [store trace].
      destruct (fst (storeAttrs key _)) as [attrs | err].
      + rewrite writeResponse_run. unfold ret. rewrite call_run. now eexists _, _.
      + unfold ret. rewrite call_run. now eexists _, _.
    - destruct (isErrObjectNotExist err); unfold bind, emit, ret; now eexists _, _. }
  assert (Hlist : forall w0,
    exists a w',
      (if EnableBrowse p then BrowseHandler p r key
       else ret (Some (caddyhttpError StatusForbidden
                                      (Some (ErrOther "cannot view a directory"))))) w0
      = (Returns a, w')).
  { intros w0. destruct (EnableBrowse p); [|now eexists _, _].
    unfold BrowseHandler, bind. rewrite call_run.
    destruct (snd (fst (storeObjects key "/" (store w0)))); now eexists _, _. }
  destruct (GoStrings.HasSuffix key "/") eqn:Hdir; cbn [andb].
  - destruct (0 <? length (IndexNames p))%nat.
    + unfold bind at 1.
      destruct (indexLoop_returns p key (IndexNames p)
                  {| v_reader := None; v_attrs := None; v_err := None;
                     v_isDir := true |} w eq_refl)
        as [v' [w' [E [D | [reader [attrs [Hr Ha]]]]]]]; rewrite E.
      * rewrite D. apply Hlist.
      * destruct (v_isDir v'); [apply Hlist|].
        rewrite Hr, Ha. unfold bind. rewrite writeResponse_run.
        now eexists _, _.
    + unfold bind at 1, ret at 1. cbn [v_isDir]. apply Hlist.
  - unfold bind at 1, ret at 1. cbn [v_isDir v_reader]. apply Hdirect.
Qed.

Lemma returns_dispatch p r key : returns (dispatch (S := S) p r key).
Proof.
  intros w. unfold dispatch.
  destruct (String.eqb (Method r) MethodGet); [apply returns_GetHandler|].
  destruct (String.eqb (Method r) MethodPut).
  { destruct (keepsStatus_PutHandler p r key w) as [a [w' [tl [E _]]]].
    now exists a, w'. }
  destruct (String.eqb (Method r) MethodDelete).
  { destruct (keepsStatus_DeleteHandler p r key w) as [a [w' [tl [E _]]]].
    now exists a, w'. }
  now eexists _, _.
Qed.

End FetchOutcomes.

(** X5. A PUT opens a writer, copies the request body to it under the
    [Content-Type] of the request and closes it. A failure of the copy
    ends the request at once, and the writer is not closed; a failure of
    the close ends it as well: in both cases the status is written, 404
    for [storage.ErrObjectNotExist] and 500 for any other error. After a
    successful close the attributes are fetched for the [ETag] header; a
    failure of that fetch is dropped and the request still succeeds,
    without the header. No status is written on success. *)
Theorem put_outcomes
  {S : Type} {C : ObjectStore S} (p : GcsProxy) (r : Request)
  (next : M S (option GoError)) (key : string) (w : World S) :
  Method r = MethodPut ->
  joinPath (Replacer r (Root p)) (URLPath r) = Returns key ->
  let contentType := headerGet (Header r) "Content-Type" in
  let copied := storeWriterCopy key contentType (Body r) (store w) in
  let t1 := trace w ++ [EvStore (CallNewWriter key);
                        EvStore (CallWriterCopy key contentType (Body r))] in
  let closed := storeWriterClose key (snd copied) in
  let t2 := t1 ++ [EvStore (CallWriterClose key)] in
  let fetched := storeAttrs key (snd closed) in
  ServeHTTP p r next w =
  match fst copied with
  | Some e =>
    (Returns (Some (HandlerError (convertedStatus e) (Some e))),
     {| store := snd copied; trace := t1 ++ [EvWriteHeader (convertedStatus e)] |})
  | None =>
    match fst closed with
    | Some e =>
      (Returns (Some (HandlerError (convertedStatus e) (Some e))),
       {| store := snd closed; trace := t2 ++ [EvWriteHeader (convertedStatus e)] |})
    | None =>
      (Returns None,
       {| store := snd fetched;
          trace := t2 ++ EvStore (CallAttrs key)
                      :: match fst fetched with
                         | inl attrs =>
                           [EvSetHeader "ETag" (quotedDecimal (Generation attrs))]
                         | inr _ => []
                         end |})
    end
  end.
Proof.
  intros Hm Hkey. cbv zeta.
  assert (Hng : Method r <> MethodGet) by (rewrite Hm; discriminate).
  assert (Hfail : forall e w0,
             onError p r next (HandlerError (convertedStatus e) (Some e)) w0 =
             (Returns (Some (HandlerError (convertedStatus e) (Some e))),
              after w0 [EvWriteHeader (convertedStatus e)])).
  { intros e w0. rewrite onError_not_get by assumption.
    cbn [asHandlerError fst snd].
    now destruct (Z.eqb_spec (convertedStatus e) 0) as [H | _];
      [apply convertedStatus_nonzero in H|]. }
  unfold ServeHTTP, bind at 1, liftOutcome. rewrite Hkey.
  rewrite dispatch_put by assumption.
  unfold PutHandler, bind. rewrite !call_run. cbn [fst snd store trace].
  destruct (fst (storeWriterCopy key _ (Body r) (store w))) as [e|].
  { unfold ret. rewrite convertToCaddyError_some, Hfail. unfold after.
    cbn [store trace]. now rewrite <- !app_assoc. }
  rewrite call_run. cbn [fst snd store trace].
  destruct (fst (storeWriterClose key _)) as [e|].
  { unfold ret. rewrite convertToCaddyError_some, Hfail. unfold after.
    cbn [store trace]. now rewrite <- !app_assoc. }
  rewrite call_run. cbn [fst snd store trace].
  destruct (fst (storeAttrs key _)) as [attrs | e]; unfold emit, ret;
    cbn [store trace]; now rewrite <- !app_assoc.
Qed.

Lemma put_outcomes_witness :
  ServeHTTP pagesProxy
    {| Method := "PUT"; URLPath := "/secret";
       Header := {[ "Content-Type"%string := "text/css"%string ]};
       Body := list_ascii_of_string "x"; Replacer := fun s => s |}
    nextOk (emptyWorld ∅) =
  (Returns None,
   {| store := {[ "/secret"%string := {| objectBody := list_ascii_of_string "x";
                                         objectAttrs := plainAttrs "text/css" 1 |} ]};
      trace := [EvStore (CallNewWriter "/secret");
                EvStore (CallWriterCopy "/secret" "text/css" (list_ascii_of_string "x"));
                EvStore (CallWriterClose "/secret");
                EvStore (CallAttrs "/secret");
                EvSetHeader "ETag" (quotedDecimal 1)] |}).
Proof.
  exact (put_outcomes pagesProxy
           {| Method := "PUT"; URLPath := "/secret";
              Header := {[ "Content-Type"%string := "text/css"%string ]};
              Body := list_ascii_of_string "x"; Replacer := fun s => s |}
           nextOk "/secret" (emptyWorld ∅) eq_refl eq_refl).
Defined.

(** X6. A GET of an object key (not hidden, no trailing separator) opens
    one reader on the resolved key, whatever the index names. When the
    reader cannot be opened the request fails with 404 and a debug entry
    for an object that does not exist, and with 500 and an error entry
    for any other error. When it is opened, the attributes are fetched:
    if that fails the request fails with the converted error and nothing
    is sent; else the headers and the body are sent and the result is the
    error of the copy, as a plain error. In both cases the reader is
    closed last. *)
Theorem get_object_outcomes
  {S : Type} {C : ObjectStore S} (p : GcsProxy) (r : Request)
  (fullPath : string) (w : World S) :
  fileHidden fullPath (Hide p) = false ->
  GoStrings.HasSuffix fullPath "/" = false ->
  let opened := storeNewReader fullPath None (store w) in
  let t1 := trace w ++ [EvStore (CallNewReader fullPath None)] in
  let fetched := storeAttrs fullPath (snd opened) in
  let t2 := t1 ++ [EvStore (CallAttrs fullPath)] in
  GetHandler p r fullPath w =
  match fst opened with
  | inr err =>
    (Returns (Some (HandlerError (convertedStatus err) (Some err))),
     {| store := snd opened; trace := t1 ++ [fetchLog fullPath err] |})
  | inl reader =>
    match fst fetched with
    | inr err =>
      (Returns (Some (HandlerError (convertedStatus err) (Some err))),
       {| store := snd fetched;
          trace := t2 ++ [EvStore (CallReaderClose fullPath)] |})
    | inl attrs =>
      (Returns (option_map Plain (readerErr reader)),
       {| store := snd fetched;
          trace := t2 ++ standardHeaders attrs ++ metadataHeaders (Metadata attrs)
                      ++ [EvWrite (readerBody reader);
                          EvStore (CallReaderClose fullPath)] |})
    end
  end.
Proof.
  intros Hhide Hdir. cbv zeta. unfold GetHandler. rewrite Hhide, Hdir.
  cbn [andb]. unfold bind at 1, ret at 1. cbn [v_isDir v_reader].
  unfold bind at 1. rewrite call_run.
  destruct (fst (storeNewReader fullPath None (store w))) as [reader | err].
  - unfold bind, closeReader. rewrite !call_run. cbn [fst snd store trace].
    destruct (fst (storeAttrs fullPath _)) as [attrs | err].
    + rewrite writeResponse_run. unfold ret. rewrite call_run. unfold after.
      cbn [fst snd store trace bodyEvents]. rewrite <- !app_assoc. reflexivity.
    + unfold ret. rewrite call_run, convertToCaddyError_some.
      cbn [fst snd store trace]. reflexivity.
  - unfold fetchLog, convertedStatus.
    destruct (isErrObjectNotExist err) eqn:En; unfold bind, emit, ret;
      cbn [store trace]; [reflexivity|].
    unfold convertToCaddyError. now rewrite En.
Qed.

Lemma get_object_outcomes_witness :
  GetHandler pagesProxy (request "GET" "/a.txt") "/a.txt" (emptyWorld siteBucket) =
  (Returns None,
   after (emptyWorld siteBucket)
         [EvStore (CallNewReader "/a.txt" None);
          EvStore (CallAttrs "/a.txt");
          EvSetHeader "Content-Type" "text/plain";
          EvSetHeader "ETag" (quotedDecimal 42);
          EvWrite (list_ascii_of_string "hello");
          EvStore (CallReaderClose "/a.txt")]).
Proof.
  exact (get_object_outcomes pagesProxy (request "GET" "/a.txt") "/a.txt"
           (emptyWorld siteBucket) eq_refl eq_refl).
Defined.

(** X7. When a GET of a directory key is served from an index candidate,
    the headers and the body of the candidate are sent from the world its
    probe leaves and nothing follows: the calls to the store end with the
    two calls of that probe, so the reader of the candidate, unlike the
    reader of a direct fetch, is not closed. *)
Theorem index_reader_left_open
  {S : Type} {C : ObjectStore S} (p : GcsProxy) (r : Request)
  (fullPath : string) (pre : list string) (c : string) (post : list string)
  (w w1 : World S) (reader : Reader) (attrs : ObjectAttrs) (w2 : World S) :
  fileHidden fullPath (Hide p) = false ->
  GoStrings.HasSuffix fullPath "/" = true ->
  IndexNames p = pre ++ c :: post ->
  allMiss fullPath pre w w1 ->
  probeHit (GoPath.Join [fullPath; c]) w1 reader attrs w2 ->
  GetHandler p r fullPath w =
  (Returns (option_map Plain (readerErr reader)),
   after w2 (standardHeaders attrs ++ metadataHeaders (Metadata attrs)
             ++ [EvWrite (readerBody reader)]))
  /\ storeCalls (trace (snd (GetHandler p r fullPath w))) =
     storeCalls (trace w1) ++ [CallNewReader (GoPath.Join [fullPath; c]) None;
                               CallAttrs (GoPath.Join [fullPath; c])].
Proof.
  intros Hhide Hdir Hnames Hmiss Hhit.
  assert (E : GetHandler p r fullPath w =
              (Returns (option_map Plain (readerErr reader)),
               after w2 (standardHeaders attrs ++ metadataHeaders (Metadata attrs)
                         ++ [EvWrite (readerBody reader)]))).
  { unfold GetHandler. rewrite Hhide, Hdir, Hnames.
    replace (0 <? length (pre ++ c :: post))%nat with true
      by (symmetry; apply Nat.ltb_lt; rewrite length_app; simpl; lia).
    cbn [andb]. unfold bind at 1.
    rewrite (indexLoop_hit p fullPath pre c post w w1 reader attrs w2 Hmiss Hhit).
    cbn [v_isDir v_reader v_attrs]. unfold bind.
    rewrite writeResponse_run. reflexivity. }
  split; [exact E|]. rewrite E. cbn [snd after trace].
  rewrite storeCalls_app.
  change [EvWrite (readerBody reader)] with (bodyEvents (Some reader)).
  rewrite (storeCalls_response (Some reader) attrs), app_nil_r.
  destruct Hhit as [rd s1 at' s2 _ _]. cbn [trace].
  now rewrite storeCalls_app.
Qed.

Lemma index_reader_left_open_witness :
  storeCalls (trace (snd (GetHandler defaultProxy (request "GET" "/dir/") "/dir/"
                                     (emptyWorld siteBucket)))) =
  [CallNewReader "/dir/index.html" None]
  ++ [CallNewReader "/dir/index.txt" None; CallAttrs "/dir/index.txt"].
Proof.
  exact (proj2 (index_reader_left_open defaultProxy (request "GET" "/dir/")
                  "/dir/" ["index.html"%string] "index.txt"%string []
                  (emptyWorld siteBucket)
                  (after (emptyWorld siteBucket)
                         [EvStore (CallNewReader "/dir/index.html" None)])
                  {| readerBody := list_ascii_of_string "index"; readerErr := None |}
                  (plainAttrs "text/plain" 7)
                  (after (emptyWorld siteBucket)
                         [EvStore (CallNewReader "/dir/index.html" None);
                          EvStore (CallNewReader "/dir/index.txt" None);
                          EvStore (CallAttrs "/dir/index.txt")])
                  eq_refl eq_refl eq_refl
                  (allMiss_cons "/dir/" "index.html" [] _ _ _
                     (miss_reader "/dir/index.html" (emptyWorld siteBucket)
                                  ErrObjectNotExist siteBucket eq_refl)
                     (allMiss_nil "/dir/" _))
                  (hit_candidate "/dir/index.txt"
                     (after (emptyWorld siteBucket)
                            [EvStore (CallNewReader "/dir/index.html" None)])
                     {| readerBody := list_ascii_of_string "index"; readerErr := None |}
                     siteBucket (plainAttrs "text/plain" 7) siteBucket
                     eq_refl eq_refl))).
Defined.

(** X8. A GET of a directory key whose index candidates all miss, with
    browsing on, lists the objects under the key with the delimiter [/]
    and, when the listing succeeds, returns [nil] without sending
    anything: no header, no status and no body reach the client, from the
    probes or from the listing. *)
Theorem browse_sends_nothing
  {S : Type} {C : ObjectStore S} (p : GcsProxy) (r : Request)
  (next : M S (option GoError)) (fullPath : string) (w w1 : World S) :
  Method r = MethodGet ->
  joinPath (Replacer r (Root p)) (URLPath r) = Returns fullPath ->
  fileHidden fullPath (Hide p) = false ->
  GoStrings.HasSuffix fullPath "/" = true ->
  EnableBrowse p = true ->
  allMiss fullPath (IndexNames p) w w1 ->
  snd (fst (storeObjects fullPath "/" (store w1))) = None ->
  ServeHTTP p r next w =
  (Returns None,
   {| store := snd (storeObjects fullPath "/" (store w1));
      trace := trace w1 ++ [EvStore (CallObjects fullPath "/")] |})
  /\ responseEvents (trace (snd (ServeHTTP p r next w))) = responseEvents (trace w).
Proof.
  intros Hm Hkey Hhide Hdir Hb Hmiss Hok.
  assert (Hv : exists v', (if (0 <? length (IndexNames p))%nat
                           then indexLoop p fullPath (IndexNames p)
                                  {| v_reader := None; v_attrs := None;
                                     v_err := None; v_isDir := true |}
                           else ret {| v_reader := None; v_attrs := None;
                                       v_err := None; v_isDir := true |}) w
                          = (Returns v', w1) /\ v_isDir v' = true).
  { destruct (0 <? length (IndexNames p))%nat eqn:Hlen.
    - destruct (indexLoop_allMiss p fullPath _ w w1 Hmiss
                  {| v_reader := None; v_attrs := None; v_err := None;
                     v_isDir := true |}) as [v' [E D]].
      now exists v'.
    - destruct (IndexNames p) as [|n ns]; [|discriminate].
      inversion Hmiss; subst. now eexists. }
  destruct Hv as [v' [Ev Dv]].
  assert (E : dispatch p r fullPath w =
              (Returns None,
               {| store := snd (storeObjects fullPath "/" (store w1));
                  trace := trace w1 ++ [EvStore (CallObjects fullPath "/")] |})).
  { rewrite dispatch_get by assumption. unfold GetHandler.
    rewrite Hhide, Hdir. cbn [andb]. unfold bind at 1. rewrite Ev, Dv, Hb.
    unfold BrowseHandler, bind. rewrite call_run, Hok. reflexivity. }
  rewrite (ServeHTTP_run p r next w fullPath _ _ Hkey E).
  split; [reflexivity|]. cbn [snd trace].
  destruct (allMiss_trace fullPath _ w w1 Hmiss) as [tl [T N]].
  rewrite T, !responseEvents_app, N. cbn [responseEvents].
  now rewrite !app_nil_r.
Qed.

Lemma browse_sends_nothing_witness :
  ServeHTTP browseProxy (request "GET" "/dir/") nextOk (emptyWorld siteBucket) =
  (Returns None,
   after (emptyWorld siteBucket) [EvStore (CallObjects "/dir/" "/")]).
Proof.
  exact (proj1 (browse_sends_nothing browseProxy (request "GET" "/dir/") nextOk
                  "/dir/" (emptyWorld siteBucket) (emptyWorld siteBucket)
                  eq_refl eq_refl eq_refl eq_refl eq_refl
                  (allMiss_nil "/dir/" _) eq_refl)).
Defined.

(** X9. [serveErrorPage] opens one reader on the key of the page, without
    consulting the hide list. When the reader cannot be opened, its error
    is returned and nothing is sent. When it is opened, the attributes are
    fetched: a failure is returned and nothing is sent, else the headers
    and the body of the page are sent and the error of the copy is
    returned. A reader that was opened is closed last in both cases. *)
Theorem error_page_outcomes
  {S : Type} {C : ObjectStore S} (p : GcsProxy) (gcsKey : string) (w : World S) :
  let opened := storeNewReader gcsKey None (store w) in
  let t1 := trace w ++ [EvStore (CallNewReader gcsKey None)] in
  let fetched := storeAttrs gcsKey (snd opened) in
  let t2 := t1 ++ [EvStore (CallAttrs gcsKey)] in
  serveErrorPage p gcsKey w =
  match fst opened with
  | inr err => (Returns (Some err), {| store := snd opened; trace := t1 |})
  | inl reader =>
    match fst fetched with
    | inr err =>
      (Returns (Some err),
       {| store := snd fetched;
          trace := t2 ++ [EvStore (CallReaderClose gcsKey)] |})
    | inl attrs =>
      (Returns (readerErr reader),
       {| store := snd fetched;
          trace := t2 ++ standardHeaders attrs ++ metadataHeaders (Metadata attrs)
                      ++ [EvWrite (readerBody reader);
                          EvStore (CallReaderClose gcsKey)] |})
    end
  end.
Proof.
  cbv zeta. unfold serveErrorPage. unfold bind at 1. rewrite call_run.
  destruct (fst (storeNewReader gcsKey None (store w))) as [reader | err];
    [|reflexivity].
  unfold bind, closeReader. rewrite !call_run. cbn [fst snd store trace].
  destruct (fst (storeAttrs gcsKey _)) as [attrs | err].
  - rewrite writeResponse_run. unfold ret. rewrite call_run. unfold after.
    cbn [fst snd store trace bodyEvents]. rewrite <- !app_assoc. reflexivity.
  - unfold ret. rewrite call_run. reflexivity.
Qed.

(** X10. [GetHandler] returns for every key, configuration and store: the
    attributes [writeResponseFromGetObject] dereferences are never [nil]
    there, since the index loop leaves either a directory or a reader
    together with its attributes. So a request panics only in [joinPath],
    on an empty URL path, or in the next handler: for a non-empty path and
    a next handler that returns, [ServeHTTP] returns. *)
Theorem serve_returns
  {S : Type} {C : ObjectStore S} (p : GcsProxy) (r : Request)
  (next : M S (option GoError)) (fullPath : string) :
  returns (GetHandler (S := S) p r fullPath)
  /\ (URLPath r <> ""%string -> returns next -> returns (ServeHTTP p r next)).
Proof.
  split; [apply returns_GetHandler|].
  intros Hpath Hnext w.
  unfold ServeHTTP, bind at 1, liftOutcome.
  rewrite (joinPath_eq (Replacer r (Root p)) (URLPath r) Hpath). unfold bind.
  match goal with
  | |- context [dispatch p r ?k w] =>
    destruct (returns_dispatch p r k w) as [res [w1 E]]; rewrite E
  end.
  destruct res as [e|]; [|now eexists _, _].
  unfold onError. destruct (asHandlerError e) as [statusCode cause].
  destruct (negb (String.eqb (Method r) MethodGet)).
  { unfold bind, writeHeaderIfSet.
    destruct (negb (statusCode =? 0)%Z); now eexists _, _. }
  destruct ((statusCode =? StatusNotModified)%Z
            || (statusCode =? StatusPreconditionFailed)%Z
            || (statusCode =? StatusRequestedRangeNotSatisfiable)%Z).
  { now eexists _, _. }
  destruct (determineErrorsAction p statusCode) as [[pass page] key].
  destruct pass; [apply Hnext|].
  unfold bind.
  assert (Hw : exists w2, writeHeaderIfSet statusCode w1 = (Returns tt, w2)).
  { unfold writeHeaderIfSet. destruct (negb (statusCode =? 0)%Z); now eexists. }
  destruct Hw as [w2 ->].
  destruct page; [|now eexists _, _].
  destruct (serveErrorPage_keepsStatus p key w2) as [served [w3 [tl [Es _]]]].
  rewrite Es. destruct served; now eexists _, _.
Qed.

Lemma serve_returns_witness :
  returns (ServeHTTP pagesProxy (request "GET" "/missing")
                     (nextOk (S := gmap string Object))).
Proof.
  apply (proj2 (serve_returns pagesProxy (request "GET" "/missing") nextOk
                  "/missing")).
  - discriminate.
  - intros w. now exists None, w.
Defined.

(** ** Hidden names and the pattern list *)

Section HiddenNames.
Import GoStrings.

Lemma splitBytes_app_sep z y :
  splitBytes slash (z ++ slash :: y) = splitBytes slash z ++ splitBytes slash y.
Proof.
  induction z as [e Hn | e rest Hn IH] using path_elem_ind.
  - rewrite (splitBytes_sep e y), (splitBytes_noSlash e) by assumption.
    reflexivity.
  - rewrite <- app_assoc. simpl.
    rewrite (splitBytes_sep e (rest ++ slash :: y)), (splitBytes_sep e rest)
      by assumption.
    now rewrite IH.
Qed.

(** The pieces of a split are the elements of the text. *)
Lemma In_splitBytes h : noSlash h ->
  forall k, In h (splitBytes slash k) <-> namedElem h k.
Proof.
  intros Hh k. split.
  - induction k as [e Hn | e rest Hn IH] using path_elem_ind.
    + rewrite splitBytes_noSlash by assumption. intros [<- | []]. now left.
    + rewrite splitBytes_sep by assumption. intros [<- | Hin].
      * right; left. now exists rest.
      * destruct (IH Hin) as [-> | [[post ->] | [[pre ->] | [pre [post ->]]]]].
        -- right; right; left. now exists e.
        -- right; right; right. now exists e, post.
        -- right; right; left. exists (e ++ slash :: pre).
           now rewrite <- app_assoc.
        -- right; right; right. exists (e ++ slash :: pre), post.
           now rewrite <- app_assoc.
  - intros [-> | [[post ->] | [[pre ->] | [pre [post ->]]]]].
    + rewrite splitBytes_noSlash by assumption. now left.
    + rewrite splitBytes_sep by assumption. now left.
    + rewrite splitBytes_last by assumption. apply in_or_app. right. now left.
    + rewrite splitBytes_app_sep, splitBytes_sep by assumption.
      apply in_or_app. right. now left.
Qed.

Lemma In_Split h k :
  In h (Split k slash) <->
  In (list_ascii_of_string h) (splitBytes slash (list_ascii_of_string k)).
Proof.
  unfold Split. rewrite in_map_iff. split.
  - intros [x [<- Hin]]. now rewrite list_ascii_of_string_of_list_ascii.
  - intros Hin. exists (list_ascii_of_string h). split; [|exact Hin].
    apply string_of_list_ascii_of_string.
Qed.

Lemma bytes_sep (a b : string) :
  list_ascii_of_string (a ++ "/" ++ b)%string =
  list_ascii_of_string a ++ slash :: list_ascii_of_string b.
Proof. now rewrite bytes_app. Qed.

Lemma namedComponent_bytes h k :
  namedComponent h k <-> namedElem (list_ascii_of_string h) (list_ascii_of_string k).
Proof.
  unfold namedComponent, namedElem. split.
  - intros [-> | [[post ->] | [[pre ->] | [pre [post ->]]]]].
    + now left.
    + right; left. eexists. apply bytes_sep.
    + right; right; left. eexists. apply bytes_sep.
    + right; right; right. eexists _, _. rewrite bytes_sep, bytes_sep. reflexivity.
  - intros [E | [[post E] | [[pre E] | [pre [post E]]]]].
    + left. now apply bytes_inj.
    + right; left. exists (string_of_list_ascii post). apply bytes_inj.
      now rewrite bytes_sep, list_ascii_of_string_of_list_ascii.
    + right; right; left. exists (string_of_list_ascii pre). apply bytes_inj.
      now rewrite bytes_sep, list_ascii_of_string_of_list_ascii.
    + right; right; right.
      exists (string_of_list_ascii pre), (string_of_list_ascii post).
      apply bytes_inj.
      now rewrite bytes_sep, bytes_sep, !list_ascii_of_string_of_list_ascii.
Qed.

Lemma fileHidden_iff k hide :
  fileHidden k hide = true <-> exists h, In h hide /\ hidesKey h k.
Proof. unfold fileHidden. apply fileHiddenLoop_spec. now left. Qed.

End HiddenNames.

(** X11. A hide pattern without a separator is a name, and the component
    rule of [fileHidden] hides exactly the keys that have this name as a
    component of their text: the whole key, or the name between two
    separators, or between a separator and an end of the key. So a name
    in the hide list hides an object of that name in every directory and
    everything below a directory of that name; as the comment in the code
    has it, [bar] hides [/bar] and [/foo/bar/baz] but not [/barstool]. *)
Theorem hidden_name_components (h k : string) (hide : list string) :
  GoStrings.Contains h GoFilepath.Separator = false ->
  (componentEq h k <-> namedComponent h k)
  /\ (In h hide -> namedComponent h k -> fileHidden k hide = true)
  /\ fileHidden "/bar" ["bar"]%string = true
  /\ fileHidden "/foo/bar/baz" ["bar"]%string = true
  /\ fileHidden "/barstool" ["bar"]%string = false.
Proof.
  intros Hh.
  assert (Hc : componentEq h k <-> namedComponent h k).
  { unfold componentEq. rewrite namedComponent_bytes.
    change GoFilepath.Separator with slash.
    rewrite In_Split, (In_splitBytes _ Hh). tauto. }
  split; [exact Hc|]. split; [|repeat split; reflexivity].
  intros Hin Hn. apply fileHidden_iff. exists h. split; [exact Hin|].
  left. now apply Hc.
Qed.

Lemma hidden_name_components_witness :
  fileHidden "/site/.git/config" [".git"; "secret"]%string = true.
Proof.
  apply (proj1 (proj2 (hidden_name_components ".git" "/site/.git/config"
                         [".git"; "secret"]%string eq_refl))).
  - now left.
  - right; right; right. now exists "/site"%string, "config"%string.
Defined.

(** X12. [fileHidden] depends on the hide list as a set of patterns only:
    a key is hidden by two lists put together exactly when one of them
    hides it, and two lists with the same patterns, in any order and with
    any repetition, hide the same keys. The components of the key, which
    the loop computes once and keeps, do not change this. *)
Theorem fileHidden_pattern_set (k : string) (a b : list string) :
  fileHidden k (a ++ b) = fileHidden k a || fileHidden k b
  /\ ((forall h, In h a <-> In h b) -> fileHidden k a = fileHidden k b).
Proof.
  split.
  - apply eq_true_iff_eq. rewrite orb_true_iff, !fileHidden_iff. split.
    + intros [h [Hin Hh]]. apply in_app_or in Hin as [Hin | Hin];
        [left | right]; now exists h.
    + intros [[h [Hin Hh]] | [h [Hin Hh]]]; exists h;
        (split; [apply in_or_app; auto | exact Hh]).
  - intros Hab. apply eq_true_iff_eq. rewrite !fileHidden_iff.
    split; intros [h [Hin Hh]]; exists h; (split; [now apply Hab | exact Hh]).
Qed.

Lemma fileHidden_pattern_set_witness :
  fileHidden "/x/_tmp" ["/x/*"; "y"]%string
  = fileHidden "/x/_tmp" ["y"; "/x/*"; "y"]%string.
Proof.
  apply (proj2 (fileHidden_pattern_set "/x/_tmp" ["/x/*"; "y"]%string
                  ["y"; "/x/*"; "y"]%string)).
  intros h. simpl. tauto.
Defined.

(** ** The action on an error *)

(** X13. The three results of [determineErrorsAction] are tied together:
    pass-through and error page are never both chosen; with pass-through
    the key is empty; without it the page flag says exactly that the key
    is not empty. An entry of [ErrorPages] for the status decides alone,
    even when it is the empty string: the default error page is then not
    used, so an empty entry turns the default page off for that status. *)
Theorem errors_action_invariants (p : GcsProxy) (statusCode : Z) :
  let doPassThrough := fst (fst (determineErrorsAction p statusCode)) in
  let doGCSErrorPage := snd (fst (determineErrorsAction p statusCode)) in
  let key := snd (determineErrorsAction p statusCode) in
  (doPassThrough && doGCSErrorPage = false)
  /\ (doPassThrough = true -> key = ""%string)
  /\ (doPassThrough = false -> (doGCSErrorPage = true <-> key <> ""%string))
  /\ (forall page,
        ErrorPages p !! statusCode = Some page ->
        forall other,
          determineErrorsAction (withDefaultErrorPage p other) statusCode =
          determineErrorsAction p statusCode)
  /\ (ErrorPages p !! statusCode = Some ""%string ->
      determineErrorsAction p statusCode = (false, false, ""%string)).
Proof.
  cbv zeta. rewrite determineErrorsAction_spec. cbv zeta.
  split; [|split; [|split; [|split]]].
  - now destruct (String.eqb (GoStrings.ToLower _) "pass_through").
  - destruct (String.eqb (GoStrings.ToLower _) "pass_through"); [reflexivity | discriminate].
  - destruct (String.eqb (GoStrings.ToLower _) "pass_through"); [discriminate|].
    intros _. cbn [fst snd].
    destruct (String.eqb_spec (overrideTarget p statusCode) ""); cbn [negb];
      split; congruence.
  - intros page Hpage other. rewrite determineErrorsAction_spec. cbv zeta.
    unfold overrideTarget, withDefaultErrorPage. cbn [ErrorPages].
    now rewrite Hpage.
  - intros Hpage. unfold overrideTarget. now rewrite Hpage.
Qed.

Lemma errors_action_invariants_witness :
  determineErrorsAction
    (withDefaultErrorPage
       {| Root := ""; Bucket := "b"; IndexNames := []; Hide := [];
          EnablePut := false; EnableDelete := false; EnableBrowse := false;
          BrowseTemplate := ""; ErrorPages := {[ 404%Z := ""%string ]};
          DefaultErrorPage := ""; ProjectID := ""; CredentialsFile := "" |}
       "/error.html") 404 = (false, false, ""%string).
Proof.
  refine (proj2 (proj2 (proj2 (proj2
            (errors_action_invariants
               (withDefaultErrorPage
                  {| Root := ""; Bucket := "b"; IndexNames := []; Hide := [];
                     EnablePut := false; EnableDelete := false;
                     EnableBrowse := false; BrowseTemplate := "";
                     ErrorPages := {[ 404%Z := ""%string ]};
                     DefaultErrorPage := ""; ProjectID := "";
                     CredentialsFile := "" |}
                  "/error.html") 404)))) _).
  reflexivity.
Defined.

(** ** The [If-Match] header of [getGcsObject] *)

Section IfMatch.
Import GoStrconv.
Local Open Scope Z_scope.

Lemma digits_acc (u : Decimal.uint) : forall acc : positive,
  digits (list_ascii_of_string (NilEmpty.string_of_uint u)) (Z.pos acc) =
  Some (Z.pos (Pos.of_uint_acc u acc)).
Proof.
  induction u as [|u IH|u IH|u IH|u IH|u IH|u IH|u IH|u IH|u IH|u IH];
    intros acc; [reflexivity|..];
    cbn [NilEmpty.string_of_uint list_ascii_of_string Pos.of_uint_acc];
    rewrite <- IH;
    match goal with
    | |- digits (?c :: ?s) ?a = _ =>
      let k := eval vm_compute in (Z.of_nat (nat_of_ascii c) - 48) in
      transitivity (digits s (10 * a + k)); [reflexivity | f_equal; lia]
    end.
Qed.

Lemma digits_of_uint (u : Decimal.uint) :
  digits (list_ascii_of_string (NilEmpty.string_of_uint u)) 0 =
  Some (Z.of_N (Pos.of_uint u)).
Proof.
  induction u as [|u IH|u IH|u IH|u IH|u IH|u IH|u IH|u IH|u IH|u IH];
    [reflexivity | exact IH | ..];
    cbn [NilEmpty.string_of_uint list_ascii_of_string Pos.of_uint Z.of_N];
    rewrite <- digits_acc; reflexivity.
Qed.

(** The decimal form of a number starts with a digit. *)
Lemma uint_first_digit (u : Decimal.uint) :
  u <> Decimal.Nil ->
  exists c t,
    list_ascii_of_string (NilEmpty.string_of_uint u) = c :: t
    /\ isByte c "+" = false /\ isByte c "-" = false.
Proof.
  destruct u; [contradiction | ..]; intros _; eexists _, _;
    (split; [reflexivity | split; reflexivity]).
Qed.

Lemma ParseInt_decimal (g : Z) :
  - 2 ^ 63 <= g < 2 ^ 63 ->
  ParseInt (NilZero.string_of_int (Z.to_int g)) = Some g.
Proof.
  intros Hg. destruct g as [|p|p].
  - reflexivity.
  - cbn [Z.to_int NilZero.string_of_int]. unfold NilZero.string_of_uint.
    pose proof (Unsigned.to_uint_nonnil p) as Hn.
    pose proof (digits_of_uint (Pos.to_uint p)) as Hd.
    rewrite DecimalPos.Unsigned.of_to in Hd. cbn [Z.of_N] in Hd.
    destruct (uint_first_digit _ Hn) as [c [t [E [Hplus Hminus]]]].
    replace (match Pos.to_uint p with
             | Decimal.Nil => "0"%string
             | _ => NilEmpty.string_of_uint (Pos.to_uint p)
             end) with (NilEmpty.string_of_uint (Pos.to_uint p))
      by (destruct (Pos.to_uint p); [contradiction | reflexivity..]).
    unfold ParseInt. rewrite E in *. rewrite Hplus, Hminus. cbn [orb negb andb].
    rewrite Hd.
    destruct (Z.leb_spec (2 ^ 63) (Z.pos p)); [lia | reflexivity].
  - cbn [Z.to_int NilZero.string_of_int]. unfold NilZero.string_of_uint.
    pose proof (Unsigned.to_uint_nonnil p) as Hn.
    pose proof (digits_of_uint (Pos.to_uint p)) as Hd.
    rewrite DecimalPos.Unsigned.of_to in Hd. cbn [Z.of_N] in Hd.
    destruct (uint_first_digit _ Hn) as [c [t [E _]]].
    replace (match Pos.to_uint p with
             | Decimal.Nil => "0"%string
             | _ => NilEmpty.string_of_uint (Pos.to_uint p)
             end) with (NilEmpty.string_of_uint (Pos.to_uint p))
      by (destruct (Pos.to_uint p); [contradiction | reflexivity..]).
    unfold ParseInt. cbn [list_ascii_of_string].
    change (isByte "-" "-") with true. change (isByte "-" "+") with false.
    cbn [orb negb andb]. rewrite E in *. rewrite Hd.
    destruct (Z.ltb_spec (2 ^ 63) (Z.pos p)); [lia | reflexivity].
Qed.

Lemma substring_prefix (d t : string) :
  String.substring 0 (String.length d) (d ++ t)%string = d.
Proof.
  induction d as [|c d IH]; [now destruct t|].
  change (String c d ++ t)%string with (String c (d ++ t)%string).
  cbn [String.length String.substring]. now rewrite IH.
Qed.

(** The condition [getGcsObject] reads in a header value of at least two
    bytes: the bytes between the first and the last. *)
Lemma ifMatch_inner (a b : ascii) (d : string) :
  let ifMatch := String a (d ++ String b EmptyString)%string in
  (if negb (String.eqb ifMatch "") && (2 <? String.length ifMatch)%nat
   then ParseInt (String.substring 1 (String.length ifMatch - 2) ifMatch)
   else None) = ParseInt d.
Proof.
  cbv zeta. cbn [String.eqb negb andb String.length].
  rewrite string_length_app. cbn [String.length].
  replace (Datatypes.S (String.length d + 1) - 2)%nat with (String.length d) by lia.
  cbn [String.substring]. rewrite substring_prefix.
  destruct d as [|c d]; [reflexivity|].
  replace (2 <? Datatypes.S (String.length (String c d) + 1))%nat with true
    by (symmetry; apply Nat.ltb_lt; cbn [String.length]; lia).
  reflexivity.
Qed.

End IfMatch.

(** X14. [getGcsObject] makes one call to the store, the opening of a
    reader on the path, and the [If-Match] header decides its condition.
    For a value of two bytes or more, the first and the last byte are
    dropped without being looked at, and the condition is what
    [strconv.ParseInt] reads in the bytes between them: a generation when
    they are a decimal [int64], no condition otherwise. A value of less
    than two bytes gives no condition. So the reader is conditional on
    generation 42 for [x42y] just as for the quoted [42]. *)
Theorem if_match_inner_bytes
  {S : Type} {C : ObjectStore S} (p : GcsProxy) (bucket path : string)
  (headers : gmap string string) (w : World S) :
  (forall a d b,
      headerGet headers "If-Match" = String a (d ++ String b EmptyString)%string ->
      getGcsObject p bucket path headers w =
      call (CallNewReader path (GoStrconv.ParseInt d))
           (storeNewReader path (GoStrconv.ParseInt d)) w)
  /\ ((String.length (headerGet headers "If-Match") < 2)%nat ->
      getGcsObject p bucket path headers w =
      call (CallNewReader path None) (storeNewReader path None) w).
Proof.
  split.
  - intros a d b Hh. unfold getGcsObject. rewrite Hh.
    pose proof (ifMatch_inner a b d) as E. cbv zeta in E. now rewrite E.
  - intros Hlen. unfold getGcsObject.
    replace (2 <? String.length (headerGet headers "If-Match"))%nat with false
      by (symmetry; apply Nat.ltb_ge; lia).
    now rewrite andb_false_r.
Qed.

Lemma if_match_inner_bytes_witness :
  getGcsObject defaultProxy "b" "/a.txt" {[ "If-Match"%string := "x42y"%string ]}
               (emptyWorld siteBucket) =
  (Returns (inl {| readerBody := list_ascii_of_string "hello"; readerErr := None |}),
   after (emptyWorld siteBucket) [EvStore (CallNewReader "/a.txt" (Some 42%Z))]).
Proof.
  exact (proj1 (if_match_inner_bytes defaultProxy "b" "/a.txt"
                  {[ "If-Match"%string := "x42y"%string ]} (emptyWorld siteBucket))
               "x"%char "42"%string "y"%char eq_refl).
Defined.

(** X15. The [ETag] header of the gateway round-trips through
    [getGcsObject]: for every generation [g] of the [int64] range, an
    [If-Match] header with the value the gateway sets as [ETag] for [g]
    makes the reader conditional on exactly the generation [g]. *)
Theorem etag_round_trip
  {S : Type} {C : ObjectStore S} (p : GcsProxy) (bucket path : string)
  (headers : gmap string string) (g : Z) (w : World S) :
  (- 2 ^ 63 <= g < 2 ^ 63)%Z ->
  headerGet headers "If-Match" = quotedDecimal g ->
  getGcsObject p bucket path headers w =
  call (CallNewReader path (Some g)) (storeNewReader path (Some g)) w.
Proof.
  intros Hg Hh. unfold getGcsObject. rewrite Hh.
  pose proof (ifMatch_inner (ascii_of_nat 34) (ascii_of_nat 34)
                (NilZero.string_of_int (Z.to_int g))) as E.
  cbv zeta in E.
  change (String (ascii_of_nat 34)
            (NilZero.string_of_int (Z.to_int g) ++ String (ascii_of_nat 34) ""))
    with (quotedDecimal g) in E.
  rewrite E, ParseInt_decimal by assumption. reflexivity.
Qed.

Lemma etag_round_trip_witness :
  getGcsObject defaultProxy "b" "/a.txt"
               {[ "If-Match"%string := quotedDecimal 42 ]} (emptyWorld siteBucket) =
  (Returns (inl {| readerBody := list_ascii_of_string "hello"; readerErr := None |}),
   after (emptyWorld siteBucket) [EvStore (CallNewReader "/a.txt" (Some 42%Z))]).
Proof.
  refine (etag_round_trip defaultProxy "b" "/a.txt"
            {[ "If-Match"%string := quotedDecimal 42 ]} 42 (emptyWorld siteBucket)
            _ eq_refl).
  lia.
Defined.

(** ** The shape of a resolved key *)

Section ResolvedKeys.
Import GoPath GoStrings.

Lemma joinRev_nonempty c cs : bufElem c -> joinRev (c :: cs) <> [].
Proof. intros Hc. destruct (joinRev_top c cs Hc) as [x [t [-> _]]]. discriminate. Qed.

Lemma rev_joinRev_cons c c' cs :
  rev (joinRev (c :: c' :: cs)) = rev (joinRev (c' :: cs)) ++ slash :: c.
Proof.
  change (joinRev (c :: c' :: cs)) with (rev c ++ slash :: joinRev (c' :: cs)).
  rewrite rev_app_distr, rev_involutive. cbn [rev].
  now rewrite <- app_assoc.
Qed.

(** The elements of a buffer, read from the bottom. *)
Lemma splitBytes_joinRev cs :
  Forall bufElem cs -> cs <> [] -> splitBytes slash (rev (joinRev cs)) = rev cs.
Proof.
  induction cs as [|c cs IH]; intros Hall Hne; [contradiction|].
  apply Forall_cons_iff in Hall as [[Hn Hc] Hall].
  destruct cs as [|c' cs].
  - cbn [joinRev rev app]. rewrite app_nil_r, rev_involutive.
    now apply splitBytes_noSlash.
  - rewrite rev_joinRev_cons, splitBytes_last by assumption.
    rewrite IH by (assumption || discriminate). reflexivity.
Qed.

Lemma joinRev_last_byte cs :
  Forall bufElem cs -> cs <> [] ->
  forall pre, endsInSlash (pre ++ rev (joinRev cs)) = false.
Proof.
  intros Hall Hne pre. destruct cs as [|c cs]; [contradiction|].
  apply Forall_cons_iff in Hall as [Hc _].
  destruct (joinRev_top c cs Hc) as [x [t [-> Hx]]].
  unfold endsInSlash. rewrite rev_app_distr, rev_involutive. cbn [app].
  destruct (Ascii.eqb_spec x slash); [contradiction | reflexivity].
Qed.

(** Folding real elements into a rooted buffer pushes them. *)
Lemma fold_real_elems reals :
  Forall realElem reals ->
  fold_left (stepElem true) (rev reals) ([slash], 1%nat) =
  (joinRev reals ++ [slash], 1%nat).
Proof.
  induction reals as [|c cs IH]; intros Hall; [reflexivity|].
  apply Forall_cons_iff in Hall as [Hc Hall].
  cbn [rev]. rewrite fold_left_app, IH by assumption. cbn [fold_left].
  rewrite stepElem_real by assumption. cbn [fst snd]. f_equal.
  apply (push_joinRev true).
  eapply Forall_impl; [exact Hall|]. intros x. apply realElem_bufElem.
Qed.

Lemma Clean_rooted_bytes (path : string) :
  rootedBytes (list_ascii_of_string path) = true ->
  exists reals,
    Forall realElem reals
    /\ list_ascii_of_string (Clean path) = slash :: rev (joinRev reals).
Proof.
  intros Hroot. destruct (Clean_spec path) as [out [dd [Hinv ->]]].
  rewrite Hroot in Hinv.
  destruct Hinv as [reals [dots [Hr [_ [Hd [Hout _]]]]]].
  rewrite (Hd eq_refl), app_nil_r in Hout. cbn [fst rootMark] in Hout.
  exists reals. split; [exact Hr|]. subst out.
  destruct (joinRev reals ++ [slash]) eqn:E.
  - destruct (joinRev reals); discriminate.
  - rewrite <- E, list_ascii_of_string_of_list_ascii, rev_app_distr. reflexivity.
Qed.

Lemma rootedRequest_joined root p :
  rootedRequest root p -> rootedBytes (list_ascii_of_string (joined root p)) = true.
Proof.
  rewrite joined_bytes. unfold HasPrefix.
  intros [H | [-> H]]; apply prefix_iff in H as [t ->]; reflexivity.
Qed.

(** A key resolved from a rooted request: the root separator, the real
    elements and, for a directory below the root, a last separator. *)
Lemma joinPath_rooted_bytes root p key :
  p <> ""%string -> rootedRequest root p ->
  joinPath root p = Returns key ->
  exists reals,
    Forall realElem reals
    /\ list_ascii_of_string key =
       slash :: rev (joinRev reals)
             ++ (if HasSuffix p "/" then match reals with [] => [] | _ => [slash] end
                 else []).
Proof.
  intros Hp Hroot Hkey. rewrite joinPath_eq in Hkey by assumption.
  injection Hkey as <-. rewrite Join_two by assumption.
  destruct (Clean_rooted_bytes _ (rootedRequest_joined root p Hroot))
    as [reals [Hr E]].
  exists reals. split; [exact Hr|].
  destruct (HasSuffix p "/"); cbn [andb]; [|now rewrite E, app_nil_r].
  destruct reals as [|c cs].
  - cbn [joinRev rev] in E.
    replace (Clean (joined root p)) with "/"%string
      by (apply bytes_inj; now rewrite E).
    reflexivity.
  - assert (Hne : Clean (joined root p) <> "/"%string).
    { intros Heq. rewrite Heq in E. cbn [list_ascii_of_string] in E.
      injection E as E. symmetry in E.
      apply (f_equal (@rev ascii)) in E. rewrite rev_involutive in E.
      apply (joinRev_nonempty c cs) in E; [exact E|].
      apply Forall_cons_iff in Hr as [Hc _]. now apply realElem_bufElem. }
    apply String.eqb_neq in Hne. rewrite Hne. cbn [negb].
    rewrite bytes_app, E. reflexivity.
Qed.

Lemma realElem_realName e : realElem e -> realName (string_of_list_ascii e).
Proof.
  intros [Hn [Hne [Hd Hdd]]]. unfold realName, Contains.
  rewrite list_ascii_of_string_of_list_ascii.
  repeat split; try exact Hn; intros E;
    apply (f_equal list_ascii_of_string) in E;
    rewrite list_ascii_of_string_of_list_ascii in E; contradiction.
Qed.

End ResolvedKeys.

Section ResolvedKeyFacts.
Import GoPath GoStrings.

(** [Clean] on a rooted path, as a fold over the elements after the root. *)
Lemma Clean_rooted_fold (path : string) rest :
  list_ascii_of_string path = slash :: rest ->
  Clean path =
  match fst (fold_left (stepElem true) (splitBytes slash rest) ([slash], 1%nat)) with
  | [] => "."%string
  | out => string_of_list_ascii (rev out)
  end.
Proof.
  intros E. unfold Clean. rewrite E.
  change (Ascii.eqb slash slash) with true. cbv iota.
  rewrite cleanLoop_fold.
  destruct (fst (fold_left (stepElem true) (splitBytes slash rest) ([slash], 1%nat)));
    reflexivity.
Qed.

(** A resolved key is clean: [Clean] drops its last separator only. *)
Lemma Clean_normal reals (trail : bool) (key : string) :
  Forall realElem reals -> reals <> [] ->
  list_ascii_of_string key =
  slash :: rev (joinRev reals) ++ (if trail then [slash] else []) ->
  list_ascii_of_string (Clean key) = slash :: rev (joinRev reals).
Proof.
  intros Hr Hne E.
  assert (Hb : Forall bufElem reals)
    by (eapply Forall_impl; [exact Hr|]; intros x; apply realElem_bufElem).
  rewrite (Clean_rooted_fold key _ E).
  assert (Hs : fold_left (stepElem true)
                 (splitBytes slash (rev (joinRev reals)
                                    ++ (if trail then [slash] else [])))
                 ([slash], 1%nat) = (joinRev reals ++ [slash], 1%nat)).
  { destruct trail.
    - rewrite (splitBytes_last _ []) by reflexivity.
      rewrite splitBytes_joinRev, fold_left_app, fold_real_elems by assumption.
      reflexivity.
    - rewrite app_nil_r, splitBytes_joinRev, fold_real_elems by assumption.
      reflexivity. }
  rewrite Hs. cbn [fst].
  destruct (joinRev reals ++ [slash]) eqn:Eo.
  - destruct (joinRev reals); discriminate.
  - rewrite <- Eo, list_ascii_of_string_of_list_ascii, rev_app_distr. reflexivity.
Qed.

(** A [..] element after one element of the root removes it. *)
Lemma dotdot_pops e :
  noSlash e ->
  stepElem true (stepElem true (stepElem true ([slash], 1%nat) e) []) [dot; dot] =
  ([slash], 1%nat).
Proof.
  intros Hn. destruct (elem_cases e Hn) as [-> | [-> | [-> | Hreal]]];
    try reflexivity.
  rewrite (stepElem_real true ([slash], 1%nat) e Hreal). cbn [fst snd stepElem].
  change (addSlash true [slash]) with [slash].
  change (Ascii.eqb dot dot && Ascii.eqb dot dot) with true. cbv iota.
  unfold dotdotElem.
  destruct Hreal as [_ [Hne _]].
  replace (1 <? length (rev e ++ [slash]))%nat with true.
  - f_equal. now apply backtrack_stop.
  - symmetry. apply Nat.ltb_lt. rewrite length_app, length_rev. cbn [length].
    destruct e; [contradiction | cbn [length]; lia].
Qed.

End ResolvedKeyFacts.

(** X16. A key resolved from a rooted request (the root starts with the
    separator, or there is no root and the request path starts with it)
    is in normal form: split at the separator it is an empty first
    piece, then names that are not empty, not [.] and not [..], then an
    empty last piece exactly when the key ends in the separator. So such
    a key starts with the separator, has no two separators in a row
    inside and no [.] or [..] element left. *)
Theorem resolved_key_components (root uriPath key : string) :
  uriPath <> ""%string ->
  rootedRequest root uriPath ->
  joinPath root uriPath = Returns key ->
  exists names,
    Forall realName names
    /\ GoStrings.Split key GoFilepath.Separator =
       (""%string :: names
          ++ (if GoStrings.HasSuffix key "/" then [""%string] else []))%list.
Proof.
  intros Hp Hroot Hkey.
  destruct (joinPath_rooted_bytes root uriPath key Hp Hroot Hkey)
    as [reals [Hr E]].
  exists (map string_of_list_ascii (rev reals)). split.
  { apply List.Forall_forall. intros n Hin.
    apply in_map_iff in Hin as [e [<- He]].
    apply realElem_realName. rewrite List.Forall_forall in Hr. apply Hr.
    now apply in_rev. }
  assert (Hb : Forall bufElem reals)
    by (eapply Forall_impl; [exact Hr|]; intros x; apply realElem_bufElem).
  rewrite HasSuffix_slash. unfold GoStrings.Split.
  change GoFilepath.Separator with slash. rewrite E.
  destruct reals as [|c cs].
  - replace (if GoStrings.HasSuffix uriPath "/" then [] else [])
      with (@nil ascii) by now destruct (GoStrings.HasSuffix uriPath "/").
    reflexivity.
  - set (reals := c :: cs) in *.
    assert (Hne : reals <> []) by discriminate.
    replace (match reals with [] => [] | _ :: _ => [slash] end) with [slash]
      by reflexivity.
    change (GoStrings.splitBytes slash (slash :: ?y)) with ([] :: GoStrings.splitBytes slash y).
    destruct (GoStrings.HasSuffix uriPath "/").
    + rewrite (splitBytes_last _ []) by reflexivity.
      rewrite splitBytes_joinRev by assumption.
      replace (endsInSlash (slash :: rev (joinRev reals) ++ [slash])) with true.
      * cbn [map]. now rewrite map_app.
      * unfold endsInSlash.
        change (slash :: rev (joinRev reals) ++ [slash])
          with ((slash :: rev (joinRev reals)) ++ [slash]).
        now rewrite rev_app_distr.
    + rewrite app_nil_r, splitBytes_joinRev by assumption.
      change (slash :: rev (joinRev reals)) with ([slash] ++ rev (joinRev reals)).
      rewrite joinRev_last_byte by assumption.
      cbn [map app]. now rewrite app_nil_r.
Qed.

Lemma resolved_key_components_witness :
  exists names,
    Forall realName names
    /\ GoStrings.Split "/site/img/" GoFilepath.Separator =
       (""%string :: names
          ++ (if GoStrings.HasSuffix "/site/img/" "/" then [""%string] else []))%list.
Proof.
  apply (resolved_key_components "/site" "/docs/./../img//" "/site/img/").
  - discriminate.
  - now left.
  - reflexivity.
Defined.

(** X17. The root is joined to the request path before the whole is
    cleaned, so it does not confine the request: a leading [..] element
    of the request path removes the last element of the root. For a root
    of one element [r], the key of [/../k] is the key that [/k] has with
    no root at all. *)
Theorem dotdot_leaves_root (r k : string) :
  GoStrings.Contains r GoFilepath.Separator = false ->
  joinPath ("/" ++ r) ("/../" ++ k) = joinPath "" ("/" ++ k).
Proof.
  intros Hr.
  assert (Hc : GoPath.Clean (joined ("/" ++ r) ("/../" ++ k))
               = GoPath.Clean (joined "" ("/" ++ k))).
  { rewrite (Clean_rooted_fold (joined "" ("/" ++ k)) (list_ascii_of_string k))
      by (rewrite joined_bytes; cbn [list_ascii_of_string]; now rewrite bytes_app).
    rewrite (Clean_rooted_fold (joined ("/" ++ r) ("/../" ++ k))
               (list_ascii_of_string r
                ++ slash :: slash :: [dot; dot] ++ slash :: list_ascii_of_string k)).
    - rewrite splitBytes_sep by exact Hr.
      change (GoStrings.splitBytes slash (slash :: ?y)) with ([] :: GoStrings.splitBytes slash y).
      rewrite (splitBytes_sep [dot; dot]) by reflexivity.
      cbn [fold_left]. now rewrite dotdot_pops.
    - rewrite joined_bytes, !bytes_app. cbn [list_ascii_of_string app].
      reflexivity. }
  rewrite !joinPath_eq by (intros E; apply (f_equal String.length) in E;
                           rewrite string_length_app in E; discriminate).
  rewrite !Join_two by (intros E; apply (f_equal String.length) in E;
                        rewrite string_length_app in E; discriminate).
  rewrite Hc.
  replace (GoStrings.HasSuffix ("/../" ++ k) "/")
    with (GoStrings.HasSuffix ("/" ++ k) "/"); [reflexivity|].
  rewrite !HasSuffix_slash, !bytes_app. cbn [list_ascii_of_string app].
  rewrite (endsInSlash_cons "/"%char
             ("."%char :: "."%char :: "/"%char :: list_ascii_of_string k)),
    (endsInSlash_cons "."%char ("."%char :: "/"%char :: list_ascii_of_string k)),
    (endsInSlash_cons "."%char ("/"%char :: list_ascii_of_string k))
    by discriminate.
  reflexivity.
Qed.

Lemma dotdot_leaves_root_witness :
  joinPath "/site" "/../other/secret.txt" = Returns "/other/secret.txt"%string.
Proof.
  exact (dotdot_leaves_root "site" "other/secret.txt" eq_refl).
Defined.

(** X18. A key resolved from a rooted request is a fixed point of the
    resolution with an empty root: resolved again, it is returned as it
    is, with its last separator if it has one. *)
Theorem resolved_key_fixed (root uriPath key : string) :
  uriPath <> ""%string ->
  rootedRequest root uriPath ->
  joinPath root uriPath = Returns key ->
  joinPath "" key = Returns key.
Proof.
  intros Hp Hroot Hkey.
  destruct (joinPath_rooted_bytes root uriPath key Hp Hroot Hkey)
    as [reals [Hr E]].
  assert (Hk : key <> ""%string) by (intros ->; discriminate).
  rewrite joinPath_eq, Join_two by assumption.
  change (joined "" key) with key.
  destruct reals as [|c cs].
  - replace key with "/"%string; [reflexivity|]. apply bytes_inj. rewrite E.
    now destruct (GoStrings.HasSuffix uriPath "/").
  - set (reals := c :: cs) in *.
    assert (Hne : reals <> []) by discriminate.
    assert (Hb : Forall bufElem reals)
      by (eapply Forall_impl; [exact Hr|]; intros x; apply realElem_bufElem).
    replace (match reals with [] => [] | _ :: _ => [slash] end) with [slash] in E
      by reflexivity.
    pose proof (Clean_normal reals (GoStrings.HasSuffix uriPath "/") key Hr Hne) as Hc.
    rewrite HasSuffix_slash, E.
    destruct (GoStrings.HasSuffix uriPath "/"); specialize (Hc E).
    + replace (endsInSlash (slash :: rev (joinRev reals) ++ [slash])) with true.
      * replace (String.eqb (GoPath.Clean key) "/") with false.
        -- cbn [andb negb]. f_equal. apply bytes_inj.
           now rewrite bytes_app, Hc, E.
        -- symmetry. apply String.eqb_neq. intros Heq. rewrite Heq in Hc.
           injection Hc as Hc. symmetry in Hc.
           apply (f_equal (@rev ascii)) in Hc. rewrite rev_involutive in Hc.
           apply (joinRev_nonempty c cs) in Hc; [exact Hc|].
           now apply Forall_cons_iff in Hb as [Hb _].
      * unfold endsInSlash.
        change (slash :: rev (joinRev reals) ++ [slash])
          with ((slash :: rev (joinRev reals)) ++ [slash]).
        now rewrite rev_app_distr.
    + rewrite app_nil_r in *.
      change (slash :: rev (joinRev reals)) with ([slash] ++ rev (joinRev reals)).
      rewrite joinRev_last_byte by assumption. cbn [andb]. f_equal.
      apply bytes_inj. now rewrite Hc, E.
Qed.

Lemma resolved_key_fixed_witness :
  joinPath "" "/site/img/" = Returns "/site/img/"%string.
Proof.
  apply (resolved_key_fixed "/site" "/docs/./../img//" "/site/img/").
  - discriminate.
  - now left.
  - reflexivity.
Defined.

(** ** The page of a listing ([browse.go]) *)

Section ListingPage.
Import Browse.
Context {Time : Type} (humanizeBytes : Z -> string)
        (humanizeTime : nat -> Time -> string) (queryEscape : string -> string).

Lemma int64_succ (a : Z) : int64 (int64 a + 1) = int64 (a + 1).
Proof.
  unfold int64.
  replace ((a + 2 ^ 63) mod 2 ^ 64 - 2 ^ 63 + 1 + 2 ^ 63)%Z
    with ((a + 2 ^ 63) mod 2 ^ 64 + 1)%Z by lia.
  replace (a + 1 + 2 ^ 63)%Z with (a + 2 ^ 63 + 1)%Z by lia.
  now rewrite Zplus_mod_idemp_l.
Qed.

(** The loop invariant of [MakePageObj]: the count follows the number of
    items, and every entry adds its item at the end. *)
Lemma nextLoop_done rest : forall (po : PageObj),
  Count po = int64 (Z.of_nat (length (Items po))) ->
  exists new,
    nextLoop Time humanizeBytes humanizeTime rest None po =
    inl {| Count := int64 (Z.of_nat (length (Items po ++ new)));
           Items := Items po ++ new; MoreLink := MoreLink po |}
    /\ Forall2 (fun attrs item =>
                  exists position,
                    item = makeItem Time humanizeBytes humanizeTime position attrs)
               rest new.
Proof.
  induction rest as [|attrs rest IH]; intros po Hc.
  - exists []. split; [|constructor]. cbn [nextLoop]. rewrite app_nil_r, <- Hc.
    now destruct po.
  - cbn [nextLoop].
    match goal with
    | |- context [nextLoop _ _ _ rest None ?po1] =>
      destruct (IH po1) as [new [E F]]
    end.
    { cbn [Count Items]. rewrite Hc, int64_succ, length_app. cbn [length].
      f_equal. lia. }
    cbn [Count Items MoreLink] in E.
    exists (makeItem Time humanizeBytes humanizeTime (length (Items po)) attrs :: new).
    split.
    + rewrite E. rewrite <- !app_assoc. reflexivity.
    + constructor; [now eexists | exact F].
Qed.

Lemma nextLoop_fails rest err : forall (po : PageObj),
  nextLoop Time humanizeBytes humanizeTime rest (Some err) po = inr err.
Proof. induction rest as [|attrs rest IH]; intros po; [reflexivity | apply IH]. Qed.

Lemma lastElem_noSlash r : noSlash (GoPathBase.lastElem r).
Proof.
  induction r as [|c r IH]; [reflexivity|]. cbn [GoPathBase.lastElem].
  destruct (Ascii.eqb c slash) eqn:E; [reflexivity|].
  apply noSlash_cons. now split.
Qed.

Lemma Base_nonempty (path : string) : GoPathBase.Base path <> ""%string.
Proof.
  unfold GoPathBase.Base. destruct (String.eqb path ""); [discriminate|].
  destruct (GoPathBase.lastElem _) as [|c elem]; [discriminate|].
  intros E. apply (f_equal list_ascii_of_string) in E.
  rewrite list_ascii_of_string_of_list_ascii in E. cbn [rev list_ascii_of_string] in E.
  destruct (rev elem); discriminate.
Qed.

Lemma Base_no_separator (path : string) :
  GoPathBase.Base path = "/"%string
  \/ GoStrings.Contains (GoPathBase.Base path) GoFilepath.Separator = false.
Proof.
  unfold GoPathBase.Base. destruct (String.eqb path ""); [now right|].
  pose proof (lastElem_noSlash
                (GoPathBase.stripSlashes (rev (list_ascii_of_string path)))) as Hn.
  destruct (GoPathBase.lastElem _) as [|c elem]; [now left|].
  right. unfold GoStrings.Contains.
  rewrite list_ascii_of_string_of_list_ascii. now apply noSlash_rev.
Qed.

(** [Base] of a path that ends in a name, with or without separators
    after it, is that name. *)
Lemma Base_last_name (pre : bytes) (n : bytes) (k : nat) (path : string) :
  noSlash n -> n <> [] ->
  list_ascii_of_string path = pre ++ n ++ repeat slash k ->
  (pre = [] \/ exists pre', pre = pre' ++ [slash]) ->
  GoPathBase.Base path = string_of_list_ascii n.
Proof.
  intros Hn Hne E Hpre. unfold GoPathBase.Base.
  replace (String.eqb path "") with false.
  2:{ symmetry. apply String.eqb_neq. intros ->. cbn in E.
      destruct pre; [destruct n; [contradiction | discriminate] | discriminate]. }
  rewrite E, !rev_app_distr.
  assert (Hs : forall r, GoPathBase.stripSlashes (rev (repeat slash k) ++ rev n ++ r)
                         = rev n ++ r).
  { clear E. intros r. rewrite rev_repeat. induction k as [|k IH]; cbn [repeat app].
    - destruct (rev_top n Hn Hne) as [x [t [-> Hx]]]. cbn [app GoPathBase.stripSlashes].
      apply noSlash_cons in Hx as [-> _]. reflexivity.
    - cbn [GoPathBase.stripSlashes]. change (Ascii.eqb slash slash) with true.
      exact IH. }
  rewrite <- app_assoc, Hs.
  assert (Hl : forall e r, noSlash e ->
                 (r = [] \/ exists r', r = slash :: r') ->
                 GoPathBase.lastElem (e ++ r) = e).
  { induction e as [|c e IH]; intros r He Hr.
    - destruct Hr as [-> | [r' ->]]; [reflexivity|]. cbn.
      now change (Ascii.eqb slash slash) with true.
    - apply noSlash_cons in He as [Hc He]. cbn [app GoPathBase.lastElem].
      rewrite Hc. f_equal. now apply IH. }
  rewrite Hl.
  - destruct (rev_top n Hn Hne) as [x [t [Er _]]]. rewrite Er, <- Er.
    now rewrite rev_involutive.
  - now apply noSlash_rev.
  - destruct Hpre as [-> | [pre' ->]]; [now left|].
    right. rewrite rev_app_distr. now eexists.
Qed.

End ListingPage.

(** X19. [MakePageObj] returns a page for an iterator that ends with
    [iterator.Done]: its items are those of the entries, one each and in
    the order of the iterator, a directory item exactly for an entry with
    a prefix; its count is the number of items (as [int64]); and its
    [more] link is empty exactly when the iterator has no page token. For
    an iterator that fails, the error is returned with the zero page,
    whatever the entries before the failure. *)
Theorem page_counts_entries
  {Time : Type} (humanizeBytes : Z -> string) (humanizeTime : nat -> Time -> string)
  (queryEscape : string -> string) (it : Browse.ObjectIterator Time) :
  (Browse.stop it = None ->
   exists po,
     Browse.MakePageObj Time humanizeBytes humanizeTime queryEscape it = (po, None)
     /\ Browse.Count po = Browse.int64 (Z.of_nat (length (Browse.Items po)))
     /\ ((Z.of_nat (length (Browse.entries it)) < 2 ^ 63)%Z ->
         Browse.Count po = Z.of_nat (length (Browse.entries it)))
     /\ Forall2 (fun attrs item =>
                   Browse.IsDir item = negb (String.eqb (Browse.Prefix attrs) ""))
                (Browse.entries it) (Browse.Items po)
     /\ (Browse.MoreLink po = ""%string <-> Browse.Token it = ""%string))
  /\ (forall err,
        Browse.stop it = Some err ->
        Browse.MakePageObj Time humanizeBytes humanizeTime queryEscape it =
        (Browse.zeroPage, Some err)).
Proof.
  split.
  - intros Hstop. unfold Browse.MakePageObj. rewrite Hstop.
    destruct (nextLoop_done humanizeBytes humanizeTime (Browse.entries it)
                Browse.zeroPage eq_refl) as [new [E F]].
    rewrite E. cbn [Browse.zeroPage Browse.Items Browse.Count Browse.MoreLink app].
    assert (Hl : length new = length (Browse.entries it))
      by (symmetry; eapply Forall2_length; exact F).
    assert (Hd : Forall2 (fun attrs item =>
                            Browse.IsDir item
                            = negb (String.eqb (Browse.Prefix attrs) ""))
                         (Browse.entries it) new).
    { clear E Hl. induction F as [|attrs item rest new' [pos ->] _ IH];
        constructor; [|exact IH].
      unfold Browse.makeItem.
      now destruct (String.eqb (Browse.Prefix attrs) ""). }
    assert (Hc : (Z.of_nat (length (Browse.entries it)) < 2 ^ 63)%Z ->
                 Browse.int64 (Z.of_nat (length new))
                 = Z.of_nat (length (Browse.entries it))).
    { intros Hlt. rewrite Hl. unfold Browse.int64.
      rewrite Z.mod_small by lia. lia. }
    destruct (String.eqb_spec (Browse.Token it) "") as [Ht | Ht]; cbn [negb].
    + eexists. split; [reflexivity|].
      cbn [Browse.Count Browse.Items Browse.MoreLink]. repeat split; auto.
    + eexists. split; [reflexivity|].
      cbn [Browse.Count Browse.Items Browse.MoreLink]. repeat split; auto.
      * intros Hm. discriminate Hm.
      * intros Hm. contradiction.
  - intros err Hstop. unfold Browse.MakePageObj.
    now rewrite Hstop, nextLoop_fails.
Qed.

Lemma page_counts_entries_witness :
  (exists po,
      Browse.MakePageObj unit (fun _ => "0 B"%string) (fun _ _ => "now"%string)
                         (fun s => s)
        {| Browse.entries := [ {| Browse.Prefix := "docs/"; Browse.attrsName := "";
                                  Browse.attrsSize := 0; Browse.Updated := tt |} ];
           Browse.stop := None; Browse.Token := "t"; Browse.MaxSize := 10 |}
      = (po, None)
      /\ Browse.Count po = 1%Z
      /\ Browse.MoreLink po <> ""%string)
  /\ Browse.MakePageObj unit (fun _ => "0 B"%string) (fun _ _ => "now"%string)
                        (fun s => s)
       {| Browse.entries := [ {| Browse.Prefix := "docs/"; Browse.attrsName := "";
                                 Browse.attrsSize := 0; Browse.Updated := tt |} ];
          Browse.stop := Some (ErrOther "backend"); Browse.Token := "t";
          Browse.MaxSize := 10 |}
     = (Browse.zeroPage, Some (ErrOther "backend")).
Proof.
  split.
  - destruct (proj1 (page_counts_entries (fun _ => "0 B"%string)
                       (fun _ _ => "now"%string) (fun s => s)
                       {| Browse.entries :=
                            [ {| Browse.Prefix := "docs/"; Browse.attrsName := "";
                                 Browse.attrsSize := 0; Browse.Updated := tt |} ];
                          Browse.stop := None; Browse.Token := "t";
                          Browse.MaxSize := 10 |}) eq_refl)
      as [po [E [_ [Hc [_ Hm]]]]].
    exists po. split; [exact E|]. split.
    + apply Hc. cbn. lia.
    + intros Hmore. apply Hm in Hmore. discriminate Hmore.
  - exact (proj2 (page_counts_entries (fun _ => "0 B"%string)
                    (fun _ _ => "now"%string) (fun s => s)
                    {| Browse.entries :=
                         [ {| Browse.Prefix := "docs/"; Browse.attrsName := "";
                              Browse.attrsSize := 0; Browse.Updated := tt |} ];
                       Browse.stop := Some (ErrOther "backend"); Browse.Token := "t";
                       Browse.MaxSize := 10 |})
                 (ErrOther "backend") eq_refl).
Defined.

(** X20. Every item of a page links relative to the page: its name is
    never empty and holds no separator, unless it is the name [/] of an
    entry made of separators only; its URL is [./] and the name, with a
    last separator for a directory; and a directory item has no key, size
    or date. *)
Theorem page_item_links
  {Time : Type} (humanizeBytes : Z -> string) (humanizeTime : nat -> Time -> string)
  (queryEscape : string -> string) (it : Browse.ObjectIterator Time)
  (po : Browse.PageObj) :
  Browse.MakePageObj Time humanizeBytes humanizeTime queryEscape it = (po, None) ->
  Forall (fun item =>
            Browse.Name item <> ""%string
            /\ (Browse.Name item = "/"%string
                \/ GoStrings.Contains (Browse.Name item) GoFilepath.Separator = false)
            /\ Browse.Url item =
               ("./" ++ Browse.Name item
                     ++ (if Browse.IsDir item then "/" else ""))%string
            /\ (Browse.IsDir item = true ->
                Browse.Key item = ""%string /\ Browse.Size item = ""%string
                /\ Browse.LastModified item = ""%string))
         (Browse.Items po).
Proof.
  unfold Browse.MakePageObj. destruct (Browse.stop it) as [err|].
  { rewrite nextLoop_fails. discriminate. }
  destruct (nextLoop_done humanizeBytes humanizeTime (Browse.entries it)
              Browse.zeroPage eq_refl) as [new [E F]].
  rewrite E. cbn [Browse.zeroPage Browse.Items Browse.Count Browse.MoreLink app].
  intros Hpo.
  assert (Hitems : Browse.Items po = new).
  { destruct (negb (String.eqb (Browse.Token it) "")); injection Hpo as <-;
      reflexivity. }
  rewrite Hitems. clear E Hpo Hitems.
  induction F as [|attrs item rest new' [pos ->] _ IH]; constructor; [|exact IH].
  unfold Browse.makeItem.
  destruct (String.eqb (Browse.Prefix attrs) "");
    cbn [negb Browse.Name Browse.Url Browse.IsDir Browse.Key Browse.Size
         Browse.LastModified].
  - repeat split; try discriminate.
    + apply Base_nonempty.
    + apply Base_no_separator.
    + apply bytes_inj. now rewrite !bytes_app, app_nil_r.
  - repeat split; try reflexivity.
    + apply Base_nonempty.
    + apply Base_no_separator.
Qed.

Lemma page_item_links_witness :
  Forall (fun item =>
            Browse.Name item <> ""%string
            /\ (Browse.Name item = "/"%string
                \/ GoStrings.Contains (Browse.Name item) GoFilepath.Separator = false)
            /\ Browse.Url item =
               ("./" ++ Browse.Name item
                     ++ (if Browse.IsDir item then "/" else ""))%string
            /\ (Browse.IsDir item = true ->
                Browse.Key item = ""%string /\ Browse.Size item = ""%string
                /\ Browse.LastModified item = ""%string))
         [ {| Browse.Name := "img"; Browse.IsDir := true; Browse.Key := "";
              Browse.Url := "./img/"; Browse.Size := ""; Browse.LastModified := "" |};
           {| Browse.Name := "a.txt"; Browse.IsDir := false;
              Browse.Key := "docs/a.txt"; Browse.Url := "./a.txt";
              Browse.Size := "0 B"; Browse.LastModified := "now" |} ].
Proof.
  exact (page_item_links (fun _ => "0 B"%string) (fun _ _ => "now"%string)
           (fun s => s)
           {| Browse.entries :=
                [ {| Browse.Prefix := "docs/img/"; Browse.attrsName := "";
                     Browse.attrsSize := 0; Browse.Updated := tt |};
                  {| Browse.Prefix := ""; Browse.attrsName := "docs/a.txt";
                     Browse.attrsSize := 0; Browse.Updated := tt |} ];
              Browse.stop := None; Browse.Token := ""; Browse.MaxSize := 0 |}
           _ eq_refl).
Defined.

(** X21. The item of a listed entry is named after the last name of the
    entry: an entry with the prefix [dir n /] gives the directory item
    [n] with the URL [./n/], and an entry without prefix and with the
    name [dir n] gives the file item [n] with the URL [./n] and the whole
    name as key, for every name [n] that is not empty and holds no
    separator, and every [dir] that is empty or ends in a separator. *)
Theorem listed_entry_names
  {Time : Type} (humanizeBytes : Z -> string) (humanizeTime : nat -> Time -> string)
  (position : nat) (attrs : Browse.ObjectAttrs Time) (dir n : string) :
  n <> ""%string ->
  GoStrings.Contains n GoFilepath.Separator = false ->
  dir = ""%string \/ GoStrings.HasSuffix dir "/" = true ->
  (Browse.Prefix attrs = (dir ++ n ++ "/")%string ->
   Browse.makeItem Time humanizeBytes humanizeTime position attrs =
   {| Browse.Name := n; Browse.IsDir := true; Browse.Key := "";
      Browse.Url := ("./" ++ n ++ "/")%string;
      Browse.Size := ""; Browse.LastModified := "" |})
  /\ (Browse.Prefix attrs = ""%string ->
      Browse.attrsName attrs = (dir ++ n)%string ->
      Browse.makeItem Time humanizeBytes humanizeTime position attrs =
      {| Browse.Name := n; Browse.IsDir := false; Browse.Key := (dir ++ n)%string;
         Browse.Url := ("./" ++ n)%string;
         Browse.Size := humanizeBytes (Browse.uint64 (Browse.attrsSize attrs));
         Browse.LastModified := humanizeTime position (Browse.Updated attrs) |}).
Proof.
  intros Hne Hn Hdir.
  assert (Hn' : noSlash (list_ascii_of_string n)) by exact Hn.
  assert (Hne' : list_ascii_of_string n <> [])
    by (destruct n; [contradiction | discriminate]).
  assert (Hpre : list_ascii_of_string dir = []
                 \/ exists pre', list_ascii_of_string dir = pre' ++ [slash]).
  { destruct Hdir as [-> | Hd]; [now left|]. right.
    rewrite HasSuffix_slash in Hd. now apply endsInSlash_true. }
  assert (Hbase : forall k (path : string),
             list_ascii_of_string path =
             list_ascii_of_string dir ++ list_ascii_of_string n ++ repeat slash k ->
             GoPathBase.Base path = n).
  { intros k path E.
    rewrite (Base_last_name _ _ k path Hn' Hne' E Hpre).
    apply string_of_list_ascii_of_string. }
  split.
  - intros Hp. unfold Browse.makeItem. rewrite Hp.
    replace (String.eqb (dir ++ n ++ "/") "") with false.
    + cbn [negb]. rewrite (Hbase 1%nat) by now rewrite !bytes_app. reflexivity.
    + symmetry. apply String.eqb_neq. intros E.
      apply (f_equal String.length) in E. rewrite !string_length_app in E.
      cbn [String.length] in E. lia.
  - intros Hp Hname. unfold Browse.makeItem. rewrite Hp, Hname. cbn [String.eqb negb].
    rewrite (Hbase 0%nat) by (rewrite !bytes_app; cbn [repeat]; now rewrite app_nil_r).
    reflexivity.
Qed.

Lemma listed_entry_names_witness :
  Browse.makeItem unit (fun _ => "0 B"%string) (fun _ _ => "now"%string) 0
    {| Browse.Prefix := "docs/img/"; Browse.attrsName := "";
       Browse.attrsSize := 0; Browse.Updated := tt |} =
  {| Browse.Name := "img"; Browse.IsDir := true; Browse.Key := "";
     Browse.Url := "./img/"; Browse.Size := ""; Browse.LastModified := "" |}.
Proof.
  refine (proj1 (listed_entry_names (fun _ => "0 B"%string)
                   (fun _ _ => "now"%string) 0
                   {| Browse.Prefix := "docs/img/"; Browse.attrsName := "";
                      Browse.attrsSize := 0; Browse.Updated := tt |}
                   "docs/" "img" _ eq_refl (or_intror eq_refl)) eq_refl).
  discriminate.
Defined.

(** ** Patterns without glob syntax *)

Section LiteralPatterns.
Import GoFilepath GoStrings.

Lemma literalByte_tests c :
  literalByte c = true ->
  isByte c "*" = false /\ isByte c "?" = false /\ isByte c "[" = false
  /\ isByte c "\" = false.
Proof.
  unfold literalByte. rewrite negb_true_iff, !orb_false_iff. tauto.
Qed.

Lemma scanBody_literal chunk : forall inrange,
  forallb literalByte chunk = true -> scanBody chunk inrange = (chunk, []).
Proof.
  induction chunk as [|c chunk IH]; intros inrange Hl; [reflexivity|].
  cbn [forallb] in Hl. apply andb_true_iff in Hl as [Hc Hl].
  destruct (literalByte_tests c Hc) as [Hstar [_ [Hopen Hesc]]].
  cbn [scanBody]. rewrite Hesc, Hopen, Hstar. cbn [andb].
  destruct (isByte c "]"); now rewrite IH.
Qed.

Lemma scanChunk_literal c chunk :
  forallb literalByte (c :: chunk) = true ->
  scanChunk (c :: chunk) = (false, c :: chunk, []).
Proof.
  intros Hl. unfold scanChunk. cbn [skipStars].
  pose proof Hl as Hl'. cbn [forallb] in Hl'. apply andb_true_iff in Hl' as [Hc _].
  destruct (literalByte_tests c Hc) as [-> _].
  now rewrite scanBody_literal.
Qed.

(** A chunk of literal bytes matches the names it is a prefix of. *)
Lemma matchChunkLoop_literal chunk : forall fuel s failed,
  forallb literalByte chunk = true -> (length chunk <= fuel)%nat ->
  (failed = true -> matchChunkLoop fuel chunk s failed = ChunkNo)
  /\ (failed = false ->
      (forall t, s = chunk ++ t -> matchChunkLoop fuel chunk s failed = ChunkOk t)
      /\ ((forall t, s <> chunk ++ t) -> matchChunkLoop fuel chunk s failed = ChunkNo)).
Proof.
  induction chunk as [|c chunk IH]; intros fuel s failed Hl Hf.
  - destruct fuel; cbn [matchChunkLoop]; (split; [now intros -> | intros ->]);
      (split; [now intros t -> | intros H; now destruct (H s)]).
  - cbn [forallb] in Hl. apply andb_true_iff in Hl as [Hc Hl].
    destruct (literalByte_tests c Hc) as [_ [Hq [Hopen Hesc]]].
    destruct fuel as [|fuel]; [cbn [length] in Hf; lia|].
    cbn [length] in Hf. assert (Hf' : (length chunk <= fuel)%nat) by lia.
    cbn [matchChunkLoop]. rewrite Hopen, Hq, Hesc.
    split.
    + intros ->. cbn [orb]. cbv beta iota zeta.
      exact (proj1 (IH fuel s true Hl Hf') eq_refl).
    + intros ->. cbn [orb]. destruct s as [|c0 s]; cbn [length Nat.eqb];
        cbv beta iota zeta.
      * split; [intros t E; discriminate E|]. intros _.
        exact (proj1 (IH fuel [] true Hl Hf') eq_refl).
      * cbn [tl]. destruct (Ascii.eqb_spec c c0) as [<- | Hne]; cbn [negb].
        -- destruct (IH fuel s false Hl Hf') as [_ H]. destruct (H eq_refl) as [Hok Hno].
           split.
           ++ intros t E. injection E as E. now apply Hok.
           ++ intros Hn. apply Hno. intros t E. apply (Hn t). now rewrite E.
        -- split; [intros t E; injection E as E _; congruence|].
           intros _. exact (proj1 (IH fuel s true Hl Hf') eq_refl).
Qed.

(** A pattern without glob syntax matches itself and nothing else. *)
Lemma Match_literal (h k : string) :
  literalPattern h -> (Match h k = true <-> k = h).
Proof.
  unfold literalPattern, Match. intros Hl.
  assert (Hk : k = h <-> list_ascii_of_string k = list_ascii_of_string h)
    by (split; [now intros -> | apply bytes_inj]).
  rewrite Hk. clear Hk.
  destruct (list_ascii_of_string h) as [|c chunk] eqn:Eh.
  - cbn [length matchLoop]. destruct (list_ascii_of_string k); cbn; split;
      congruence.
  - cbn [length matchLoop]. rewrite (scanChunk_literal c chunk Hl).
    cbn [andb length Nat.eqb negb orb]. unfold matchChunk.
    destruct (matchChunkLoop_literal (c :: chunk) (length (c :: chunk))
                (list_ascii_of_string k) false Hl (le_n _)) as [_ H].
    destruct (H eq_refl) as [Hok Hno]. clear H.
    destruct (bytes_eq_dec (list_ascii_of_string k) (c :: chunk)) as [E | Hne].
    + rewrite (Hok [] ltac:(now rewrite app_nil_r)). cbn [length Nat.eqb orb].
      destruct chunk; cbn; tauto.
    + split; [|contradiction]. 
      destruct (matchChunkLoop (length (c :: chunk)) (c :: chunk)
                               (list_ascii_of_string k) false) as [t | |] eqn:Em;
        try discriminate.
      destruct t as [|c1 t]; [|cbn; discriminate].
      exfalso.
      assert (Hcase : (exists t, list_ascii_of_string k = (c :: chunk) ++ t)
                      \/ forall t, list_ascii_of_string k <> (c :: chunk) ++ t).
      { clear. generalize (c :: chunk) as x. generalize (list_ascii_of_string k) as y.
        intros y x. revert y. induction x as [|a x IH]; intros y.
        - left. now exists y.
        - destruct y as [|b y]; [right; intros t E; discriminate E|].
          destruct (ascii_dec b a) as [-> | Hab].
          + destruct (IH y) as [[t ->] | Hn]; [left; now exists t|].
            right. intros t E. injection E as E. now apply (Hn t).
          + right. intros t E. injection E as E _. contradiction. }
      destruct Hcase as [[t E] | Hn].
      * pose proof (Hok t E) as Ht. injection Ht as <-. rewrite app_nil_r in E.
        contradiction.
      * pose proof (Hno Hn) as Ht. discriminate Ht.
Qed.

End LiteralPatterns.

(** X22. For a hide pattern without glob syntax (none of [*], [?], [[]
    and the backslash) hiding is exact. A name, that is a pattern without
    separator, hides the keys that have it as a component. A pattern with
    a separator hides the key equal to it and the keys below it, where
    the pattern is followed by a separator, and no other key: [/foo]
    hides [/foo] and [/foo/bar], not [/foobar] and not [/x/foo]. *)
Theorem literal_patterns_exact (h k : string) :
  literalPattern h ->
  (hidesKey h k <->
   if GoStrings.Contains h GoFilepath.Separator
   then k = h \/ exists rest, k = (h ++ "/" ++ rest)%string
   else namedComponent h k)
  /\ fileHidden "/foo" ["/foo"]%string = true
  /\ fileHidden "/foo/bar" ["/foo"]%string = true
  /\ fileHidden "/foobar" ["/foo"]%string = false
  /\ fileHidden "/x/foo" ["/foo"]%string = false.
Proof.
  intros Hl. split; [|repeat split; reflexivity].
  unfold hidesKey, globMatch. rewrite (Match_literal h k Hl).
  destruct (GoStrings.Contains h GoFilepath.Separator) eqn:Hc.
  - unfold componentEq, boundedPrefix. rewrite Hc. split.
    + intros [[Hf _] | [[_ Hp] | Hm]]; [discriminate | now right | now left].
    + intros [Hm | Hp]; [right; now right | right; left; now split].
  - assert (Hn : componentEq h k <-> namedComponent h k).
    { unfold componentEq. rewrite namedComponent_bytes.
      change GoFilepath.Separator with slash.
      rewrite In_Split, (In_splitBytes _ Hc). tauto. }
    rewrite Hn. unfold boundedPrefix. rewrite Hc. split.
    + intros [Hm | [[Hf _] | Hm]]; [exact Hm | discriminate | now left].
    + intros Hm. now left.
Qed.

Lemma literal_patterns_exact_witness :
  hidesKey "/private" "/private/keys/id" <->
  ("/private/keys/id"%string = "/private"%string
   \/ exists rest, "/private/keys/id"%string = ("/private" ++ "/" ++ rest)%string).
Proof.
  exact (proj1 (literal_patterns_exact "/private" "/private/keys/id" eq_refl)).
Defined.

(** ** The next handler and a copy that fails *)

Section NextHandler.
Context {S : Type} {C : ObjectStore S}.
Implicit Types (p : GcsProxy) (r : Request) (w : World S).

(** A failed GET outside the bypass set: the next handler, or the status
    and then at most an error page, which writes no status. *)
Lemma onError_get_written p r next err w :
  Method r = MethodGet ->
  ~ bypassStatus (fst (asHandlerError err)) ->
  fst (asHandlerError err) <> 0%Z ->
  let statusCode := fst (asHandlerError err) in
  if String.eqb (GoStrings.ToLower (overrideTarget p statusCode)) "pass_through"
  then onError p r next err w = next w
  else exists tl,
      fst (onError p r next err w) =
      Returns (Some (HandlerError statusCode (snd (asHandlerError err))))
      /\ trace (snd (onError p r next err w)) =
         trace w ++ EvWriteHeader statusCode :: tl
      /\ statusWrites tl = [].
Proof.
  intros Hm Hb Hne. cbv zeta.
  rewrite (onError_get p r next err w Hm Hb Hne). cbv zeta.
  set (statusCode := fst (asHandlerError err)).
  destruct (String.eqb (GoStrings.ToLower (overrideTarget p statusCode))
                       "pass_through"); [reflexivity|].
  destruct (String.eqb (overrideTarget p statusCode) "").
  - exists []. repeat split; reflexivity.
  - destruct (serveErrorPage_keepsStatus p (overrideTarget p statusCode)
                (after w [EvWriteHeader statusCode]))
      as [served [w2 [tl [E [T N]]]]].
    rewrite E. cbn [fst snd].
    destruct served as [e|].
    + exists (tl ++ [EvLog "error" "error serving error page"
                           (overrideTarget p statusCode) (Some e)]).
      split; [reflexivity|]. split.
      * cbn [after trace]. rewrite T. cbn [after trace].
        rewrite <- !app_assoc. reflexivity.
      * rewrite statusWrites_app, N. reflexivity.
    + exists tl. split; [reflexivity|]. split; [|exact N].
      rewrite T. cbn [after trace]. rewrite <- app_assoc. reflexivity.
Qed.

Lemma onError_next_free p r next next' err w :
  Method r <> MethodGet \/ noPassThrough p ->
  onError p r next err w = onError p r next' err w.
Proof.
  intros H. unfold onError. destruct (asHandlerError err) as [statusCode cause].
  destruct (negb (String.eqb (Method r) MethodGet)) eqn:Hm; [reflexivity|].
  destruct ((statusCode =? StatusNotModified)%Z
            || (statusCode =? StatusPreconditionFailed)%Z
            || (statusCode =? StatusRequestedRangeNotSatisfiable)%Z); [reflexivity|].
  destruct H as [H | H].
  - apply negb_false_iff, String.eqb_eq in Hm. contradiction.
  - specialize (H statusCode).
    destruct (determineErrorsAction p statusCode) as [[pass page] key].
    cbn [fst] in H. subst pass. reflexivity.
Qed.

End NextHandler.

(** X23. The next handler plays a part only in the pass-through of a
    failed GET: for every method other than GET, and for every method
    when no override is a pass-through, the answer of [ServeHTTP] and
    what it does are the same whatever the next handler is. *)
Theorem next_handler_only_on_pass_through
  {S : Type} {C : ObjectStore S} (p : GcsProxy) (r : Request)
  (next next' : M S (option GoError)) (w : World S) :
  Method r <> MethodGet \/ noPassThrough p ->
  ServeHTTP p r next w = ServeHTTP p r next' w.
Proof.
  intros H. unfold ServeHTTP, bind.
  destruct (liftOutcome _ w) as [[key | msg] w0]; [|reflexivity].
  destruct (dispatch p r key w0) as [[[e|] | msg] w1]; try reflexivity.
  now apply onError_next_free.
Qed.

Lemma next_handler_only_on_pass_through_witness :
  ServeHTTP pagesProxy (request "GET" "/missing") nextOk (emptyWorld siteBucket)
  = ServeHTTP pagesProxy (request "GET" "/missing") nextServes (emptyWorld siteBucket).
Proof.
  apply (next_handler_only_on_pass_through pagesProxy (request "GET" "/missing")
           nextOk nextServes (emptyWorld siteBucket)).
  right. intros statusCode. rewrite determineErrorsAction_spec. cbv zeta.
  unfold overrideTarget. cbn [ErrorPages DefaultErrorPage pagesProxy].
  destruct (decide (statusCode = 404%Z)) as [-> | Hne].
  - reflexivity.
  - rewrite lookup_singleton_ne by congruence. reflexivity.
Defined.

(** X24. When the copy of the body fails in a GET of an object, the
    headers and the bytes read so far are already sent and the reader is
    closed; the error of the copy is then treated as a 500 like any other
    failure of a GET: with a pass-through for 500 the request goes to the
    next handler, and else the status 500 is written, after the body,
    followed at most by the error page. *)
Theorem copy_failure_after_body
  {S : Type} {C : ObjectStore S} (p : GcsProxy) (r : Request)
  (next : M S (option GoError)) (fullPath : string) (w : World S)
  (reader : Reader) (attrs : ObjectAttrs) (e : PlainError) :
  Method r = MethodGet ->
  joinPath (Replacer r (Root p)) (URLPath r) = Returns fullPath ->
  fileHidden fullPath (Hide p) = false ->
  GoStrings.HasSuffix fullPath "/" = false ->
  fst (storeNewReader fullPath None (store w)) = inl reader ->
  fst (storeAttrs fullPath (snd (storeNewReader fullPath None (store w)))) = inl attrs ->
  readerErr reader = Some e ->
  let w1 :=
    {| store := snd (storeAttrs fullPath (snd (storeNewReader fullPath None (store w))));
       trace := trace w ++ [EvStore (CallNewReader fullPath None);
                            EvStore (CallAttrs fullPath)]
                        ++ standardHeaders attrs ++ metadataHeaders (Metadata attrs)
                        ++ [EvWrite (readerBody reader);
                            EvStore (CallReaderClose fullPath)] |} in
  if String.eqb (GoStrings.ToLower (overrideTarget p StatusInternalServerError))
                "pass_through"
  then ServeHTTP p r next w = next w1
  else exists tl,
      fst (ServeHTTP p r next w) =
      Returns (Some (HandlerError StatusInternalServerError (Some e)))
      /\ trace (snd (ServeHTTP p r next w)) =
         trace w1 ++ EvWriteHeader StatusInternalServerError :: tl
      /\ statusWrites tl = [].
Proof.
  intros Hm Hkey Hhide Hdir Hopen Hattrs Herr. cbv zeta.
  set (w1 := {| store := _; trace := _ |}).
  assert (Hget : dispatch p r fullPath w = (Returns (Some (Plain e)), w1)).
  { rewrite dispatch_get by assumption. unfold GetHandler.
    rewrite Hhide, Hdir. cbn [andb]. unfold bind at 1, ret at 1.
    cbn [v_isDir v_reader]. unfold bind at 1. rewrite call_run, Hopen.
    unfold bind, closeReader. rewrite !call_run. cbn [fst snd store trace].
    rewrite Hattrs, writeResponse_run. unfold ret. rewrite call_run, Herr.
    unfold after, w1. cbn [fst snd store trace bodyEvents option_map].
    rewrite <- !app_assoc. reflexivity. }
  rewrite (ServeHTTP_run p r next w fullPath _ _ Hkey Hget).
  assert (Hb : ~ bypassStatus (fst (asHandlerError (Plain e))))
    by (intros [H | [H | H]]; discriminate H).
  exact (onError_get_written p r next (Plain e) w1 Hm Hb ltac:(discriminate)).
Qed.

Lemma copy_failure_after_body_witness :
  exists tl,
    fst (ServeHTTP (H := truncatingStore) defaultProxy (request "GET" "/a.txt")
                   nextOk {| store := tt; trace := [] |}) =
    Returns (Some (HandlerError StatusInternalServerError
                                (Some (ErrOther "connection reset"))))
    /\ trace (snd (ServeHTTP (H := truncatingStore) defaultProxy
                             (request "GET" "/a.txt") nextOk
                             {| store := tt; trace := [] |})) =
       ([] ++ [EvStore (CallNewReader "/a.txt" None); EvStore (CallAttrs "/a.txt")]
           ++ standardHeaders (plainAttrs "text/plain" 1)
           ++ metadataHeaders (Metadata (plainAttrs "text/plain" 1))
           ++ [EvWrite (list_ascii_of_string "par");
               EvStore (CallReaderClose "/a.txt")])
       ++ EvWriteHeader StatusInternalServerError :: tl
    /\ statusWrites tl = [].
Proof.
  exact (copy_failure_after_body (C := truncatingStore) defaultProxy
           (request "GET" "/a.txt") nextOk
           "/a.txt" {| store := tt; trace := [] |}
           {| readerBody := list_ascii_of_string "par";
              readerErr := Some (ErrOther "connection reset") |}
           (plainAttrs "text/plain" 1) (ErrOther "connection reset")
           eq_refl eq_refl eq_refl eq_refl eq_refl eq_refl eq_refl).
Defined.

(** ** The statuses of the gateway *)

(** X25. A handler that fails reports one of four statuses: 403 (a
    directory that cannot be viewed), 404, 405 or 500. In particular it
    never reports 304, 412 or 416, so the branch of [ServeHTTP] that
    writes these three statuses as they are is never taken for an error
    of the handlers, and a failed request that is not passed through
    returns a handler error with one of the four statuses. *)
Theorem gateway_statuses
  {S : Type} {C : ObjectStore S} (p : GcsProxy) (r : Request)
  (next : M S (option GoError)) (key : string) (w : World S)
  (err : GoError) (w1 : World S) :
  joinPath (Replacer r (Root p)) (URLPath r) = Returns key ->
  dispatch p r key w = (Returns (Some err), w1) ->
  let statusCode := fst (asHandlerError err) in
  (statusCode = StatusForbidden \/ statusCode = StatusNotFound
   \/ statusCode = StatusMethodNotAllowed \/ statusCode = StatusInternalServerError)
  /\ ~ bypassStatus statusCode
  /\ (ServeHTTP p r next w = next w1
      \/ fst (ServeHTTP p r next w) =
         Returns (Some (HandlerError statusCode (snd (asHandlerError err))))).
Proof.
  intros Hkey Hd. cbv zeta.
  assert (Hs : fst (asHandlerError err) = StatusForbidden
               \/ fst (asHandlerError err) = StatusNotFound
               \/ fst (asHandlerError err) = StatusMethodNotAllowed
               \/ fst (asHandlerError err) = StatusInternalServerError).
  { revert Hd. unfold dispatch.
    destruct (String.eqb (Method r) MethodGet).
    { intros E. destruct (GetHandler_status p r key w err w1 E) as [H | [H | H]];
        rewrite H; auto. }
    destruct (String.eqb (Method r) MethodPut);
      [|destruct (String.eqb (Method r) MethodDelete)]; intros E.
    - unfold PutHandler, bind, call, ret, emit in E. cbn [store trace fst snd] in E.
      case_run E; try discriminate; injection E as E _;
        apply convertToCaddyError_status in E; destruct E as [H | H];
        rewrite H; auto.
    - unfold DeleteHandler, bind, call, ret in E. cbn [store trace fst snd] in E.
      case_run E; try discriminate; injection E as E _.
      + subst err. auto.
      + apply convertToCaddyError_status in E. destruct E as [H | H];
          rewrite H; auto.
    - injection E as <- _. auto. }
  assert (Hb : ~ bypassStatus (fst (asHandlerError err))).
  { intros [H | [H | H]]; destruct Hs as [E | [E | [E | E]]]; rewrite E in H;
      discriminate H. }
  assert (Hne : fst (asHandlerError err) <> 0%Z).
  { destruct Hs as [E | [E | [E | E]]]; rewrite E; discriminate. }
  split; [exact Hs|]. split; [exact Hb|].
  rewrite (ServeHTTP_run p r next w key (Some err) w1 Hkey Hd).
  destruct (String.eqb_spec (Method r) MethodGet) as [Hm | Hm].
  - pose proof (onError_get_written p r next err w1 Hm Hb Hne) as H.
    cbv zeta in H.
    destruct (String.eqb (GoStrings.ToLower
                            (overrideTarget p (fst (asHandlerError err))))
                         "pass_through"); [now left|].
    destruct H as [tl [H _]]. now right.
  - right. now rewrite onError_not_get.
Qed.

Lemma gateway_statuses_witness :
  fst (ServeHTTP pagesProxy (request "GET" "/dir/sub/") nextOk (emptyWorld siteBucket))
  = Returns (Some (HandlerError StatusForbidden
                                (Some (ErrOther "cannot view a directory")))).
Proof.
  assert (Hd : dispatch pagesProxy (request "GET" "/dir/sub/") "/dir/sub/"
                        (emptyWorld siteBucket) =
               (Returns (Some (HandlerError StatusForbidden
                                            (Some (ErrOther "cannot view a directory")))),
                after (emptyWorld siteBucket)
                      [EvStore (CallNewReader "/dir/sub/index.html" None);
                       EvStore (CallNewReader "/dir/sub/index.txt" None)]))
    by (vm_compute; reflexivity).
  destruct (gateway_statuses pagesProxy (request "GET" "/dir/sub/") nextOk
              "/dir/sub/" (emptyWorld siteBucket) _ _ eq_refl Hd) as [_ [_ [H | H]]].
  - vm_compute in H. discriminate H.
  - exact H.
Defined.

(** ** Conditional GET *)

Section ConditionalGet.
Context {S : Type} {C : ObjectStore S}.
Implicit Types (p : GcsProxy) (r : Request) (w : World S).














End ConditionalGet.


